(** * XEITIN diffuser: protocol codec, command catalog and device session

    A shallow embedding of the Python sources
      - [src/xeitin_diffuser.py]                       (client library)
      - [custom_components/xeitin_diffuser/const.py]   (command catalog)
      - [custom_components/xeitin_diffuser/switch.py]  (device session, switches)
      - [custom_components/xeitin_diffuser/number.py]  (intensity entity)
      - [custom_components/xeitin_diffuser/select.py]  (mode / timer entities)

    Python [bytes] values are lists of integers in [0, 256); Python [int] is
    [Z] (unbounded), so [x & 0xFF] is [Z.land x 255] also for negative [x].
    Code that can raise returns a [result]; code that talks to the BLE
    transport runs in a small state-and-exception monad over a [World]. *)

From Stdlib Require Import ZArith Lia Ascii.
From stdpp Require Import base list strings gmap.

Local Open Scope Z_scope.

(** ** Exceptions and results *)

(** The exception classes that occur in the modelled code. [OtherError]
    stands for any class that is none of the named ones. *)
Inductive exn : Type :=
  | BleakError
  | ValueError
  | KeyError
  | IndexError
  | AttributeError
  | OtherError.

Global Instance exn_eq_dec : EqDecision exn.
Proof. solve_decision. Defined.

Inductive result (A : Type) : Type :=
  | Ok (a : A)
  | Err (e : exn).
Arguments Ok {A} a.
Arguments Err {A} e.

Definition is_ok {A} (r : result A) : bool :=
  match r with Ok _ => true | Err _ => false end.

(** ** Bytes *)

Abbreviation bytes := (list Z).

Definition is_byte (z : Z) : bool := (0 <=? z) && (z <? 256).

Definition all_bytes (l : list Z) : bool := forallb is_byte l.

(** Python's [bytes([x0, x1, ...])]: [ValueError] unless every element is in
    [range(0, 256)]. *)
Definition bytes_of (l : list Z) : result bytes :=
  if all_bytes l then Ok l else Err ValueError.

(** Python's builtins [sum] and [len] over a byte string. *)
Definition py_sum (data : list Z) : Z := foldr Z.add 0 data.

Definition py_len {A} (data : list A) : Z := Z.of_nat (length data).

(** ** Protocol constants ([xeitin_diffuser.py], [const.py]) *)

Definition HEADER : bytes := [0x55; 0xAA].
Definition FOOTER : bytes := [0x5A].

Module Command.
Definition INIT : Z := 0x47.
Definition GET_SETTINGS : Z := 0x09.
Definition GET_INFO : Z := 0x51.
Definition KEEPALIVE : Z := 0xA1.
Definition GET_STATUS : Z := 0x08.
Definition TIME_SYNC : Z := 0x06.
Definition POWER_MODE : Z := 0x07.
Definition SCHEDULE : Z := 0x14.
End Command.

Module PowerMode.
Definition MODE_10 : Z := 0x10.
Definition MODE_12 : Z := 0x12.
End PowerMode.

(** ** Codec of the client library ([xeitin_diffuser.py]) *)

(** [def _calculate_checksum(data): return (0x101 - sum(data)) & 0xFF] *)
Definition _calculate_checksum (data : bytes) : Z :=
  Z.land (0x101 - py_sum data) 0xFF.

(** [def _build_packet(cmd, data=b'')]: the two [bytes([...])] calls raise
    [ValueError] when the length byte, the command or the checksum does not
    fit a byte. *)
Definition _build_packet (cmd : Z) (data : bytes) : result bytes :=
  let length := 1 + py_len data in
  match bytes_of [length; cmd] with
  | Err e => Err e
  | Ok lc =>
      let payload := lc ++ data in
      let checksum := _calculate_checksum payload in
      match bytes_of [checksum] with
      | Err e => Err e
      | Ok cs => Ok (HEADER ++ payload ++ cs ++ FOOTER)
      end
  end.

(** ** Codec of the integration ([const.py]) *)

(** [def build_packet(cmd, data=b"")] *)
Definition build_packet (cmd : Z) (data : bytes) : result bytes :=
  let length := 1 + py_len data in
  match bytes_of [length; cmd] with
  | Err e => Err e
  | Ok lc =>
      let payload := lc ++ data in
      let checksum := Z.land (0x101 - length - cmd - py_sum data) 0xFF in
      match bytes_of [checksum] with
      | Err e => Err e
      | Ok cs => Ok (HEADER ++ payload ++ cs ++ FOOTER)
      end
  end.

(** The checksum byte the codec puts in a frame for [cmd] and [data]. *)
Definition checksum_of (cmd : Z) (data : bytes) : Z :=
  _calculate_checksum ([1 + py_len data; cmd] ++ data).


(** ** Command catalog ([const.py]) *)

(** Value of a hexadecimal digit, as [bytes.fromhex] reads it. *)
Definition hex_digit (c : ascii) : option Z :=
  let n := Z.of_N (N_of_ascii c) in
  if (48 <=? n) && (n <=? 57) then Some (n - 48)
  else if (65 <=? n) && (n <=? 70) then Some (n - 55)
  else if (97 <=? n) && (n <=? 102) then Some (n - 87)
  else None.

(** [bytes.fromhex(s)] on a string without white space: two hexadecimal
    digits per byte, [ValueError] otherwise. *)
Fixpoint bytes_fromhex (s : string) : result bytes :=
  match s with
  | EmptyString => Ok []
  | String a (String b rest) =>
      match hex_digit a, hex_digit b with
      | Some h, Some l =>
          match bytes_fromhex rest with
          | Ok bs => Ok (16 * h + l :: bs)
          | Err e => Err e
          end
      | _, _ => Err ValueError
      end
  | String _ EmptyString => Err ValueError
  end.

(** The catalog's literals are module-level constants; every one of them is
    well formed (see [catalog_literals_parse]), so the module loads and the
    constant is the parsed byte string. *)
Definition fromhex (s : string) : bytes :=
  match bytes_fromhex s with Ok bs => bs | Err _ => [] end.

Definition CHARACTERISTIC_UUID : string := "0000FFE1-0000-1000-8000-00805F9B34FB".

Definition CMD_INIT : Z := 0x47.
Definition CMD_GET_STATUS : Z := 0x08.
Definition CMD_POWER : Z := 0x07.
Definition CMD_KEEPALIVE : Z := 0xA1.
Definition CMD_MODE : Z := 0x02.
Definition CMD_FAN_BOOST : Z := 0x03.
Definition CMD_LOCK : Z := 0x04.
Definition CMD_INTENSITY : Z := 0x05.
Definition CMD_TIMER : Z := 0x06.

Definition PACKET_INIT : bytes := fromhex "55AA0147B95A".
Definition PACKET_POWER_ON : bytes := fromhex "55AA04071001E55A".
Definition PACKET_POWER_OFF : bytes := fromhex "55AA04071000E65A".
Definition PACKET_GET_STATUS : bytes := fromhex "55AA0108F85A".
Definition PACKET_KEEPALIVE : bytes := fromhex "55AA01A15F5A".

Definition PACKET_MODE_1 : bytes := fromhex "55AA020201FC5A".
Definition PACKET_MODE_2 : bytes := fromhex "55AA020202FB5A".
Definition PACKET_MODE_3 : bytes := fromhex "55AA020203FA5A".
Definition PACKET_MODE_4 : bytes := fromhex "55AA020204F95A".
Definition PACKET_MODE_5 : bytes := fromhex "55AA020205F85A".

Definition PACKET_FAN_BOOST_ON : bytes := fromhex "55AA020301FB5A".
Definition PACKET_FAN_BOOST_OFF : bytes := fromhex "55AA020300FC5A".

Definition PACKET_LOCK_ON : bytes := fromhex "55AA020401FA5A".
Definition PACKET_LOCK_OFF : bytes := fromhex "55AA020400FB5A".

(** A Python [dict] with integer keys, in source order. *)
Definition INTENSITY_PACKETS : gmap Z bytes :=
  list_to_map
    [ (1, fromhex "55AA020501F95A");
      (2, fromhex "55AA020502F85A");
      (3, fromhex "55AA020503F75A");
      (4, fromhex "55AA020504F65A");
      (5, fromhex "55AA020505F55A");
      (6, fromhex "55AA020506F45A");
      (7, fromhex "55AA020507F35A");
      (8, fromhex "55AA020508F25A");
      (9, fromhex "55AA020509F15A");
      (10, fromhex "55AA02050AF05A") ].

Definition TIMER_PACKETS : gmap Z bytes :=
  list_to_map
    [ (0, fromhex "55AA020600F95A");
      (30, fromhex "55AA02061EDB5A");
      (60, fromhex "55AA02063CBB5A");
      (120, fromhex "55AA0206787B5A");
      (180, fromhex "55AA0206B43B5A") ].

Definition MODE_OPTIONS : list string :=
  ["Mode I"; "Mode II"; "Mode III"; "Mode IV"; "Mode V"]%string.
Definition MODE_PACKETS : list bytes :=
  [PACKET_MODE_1; PACKET_MODE_2; PACKET_MODE_3; PACKET_MODE_4; PACKET_MODE_5].

Definition TIMER_OPTIONS : list string :=
  ["Off"; "30 minutes"; "1 hour"; "2 hours"; "3 hours"]%string.
Definition TIMER_VALUES : list Z := [0; 30; 60; 120; 180].

(** The frames captured from the vendor application ([safe_test.py],
    [KNOWN_SAFE_PACKETS]). *)
Module KNOWN_SAFE_PACKETS.
Definition init : bytes := fromhex "55AA0147B95A".
Definition keepalive : bytes := fromhex "55AA01A15F5A".
Definition get_status : bytes := fromhex "55AA0108F85A".
Definition get_info : bytes := fromhex "55AA0151AF5A".
Definition power_on_mode10 : bytes := fromhex "55AA04071001E55A".
Definition power_off_mode10 : bytes := fromhex "55AA04071000E65A".
End KNOWN_SAFE_PACKETS.

(** ** Python sequence helpers *)

(** [l[i]] for a Python list: negative indices count from the end,
    [IndexError] out of range. *)
Definition py_getitem {A} (l : list A) (i : Z) : result A :=
  let n := py_len l in
  let j := if i <? 0 then i + n else i in
  if (0 <=? j) && (j <? n) then
    match l !! Z.to_nat j with Some x => Ok x | None => Err IndexError end
  else Err IndexError.

(** [l[i] = x] for a Python list. *)
Definition py_setitem {A} (l : list A) (i : Z) (x : A) : result (list A) :=
  let n := py_len l in
  let j := if i <? 0 then i + n else i in
  if (0 <=? j) && (j <? n) then Ok (<[Z.to_nat j := x]> l) else Err IndexError.

(** [l.index(x)]: position of the first occurrence, [ValueError] if none. *)
Fixpoint py_index {A} `{EqDecision A} (l : list A) (x : A) : result Z :=
  match l with
  | [] => Err ValueError
  | y :: l' =>
      if decide (y = x) then Ok 0
      else match py_index l' x with
           | Ok i => Ok (1 + i)
           | Err e => Err e
           end
  end.

(** [d[k]] for a Python dict: [KeyError] if the key is absent. *)
Definition dict_getitem (d : gmap Z bytes) (k : Z) : result bytes :=
  match d !! k with Some v => Ok v | None => Err KeyError end.

(** [k in d] *)
Definition dict_contains (d : gmap Z bytes) (k : Z) : bool :=
  match d !! k with Some _ => true | None => false end.

(** ** Schedules ([xeitin_diffuser.py]) *)

(** [@dataclass class DiffuserSchedule] *)
Record DiffuserSchedule : Type := mkSchedule {
  mode_index : Z;
  enabled : bool;
  start_hour : Z;
  start_minute : Z;
  end_hour : Z;
  end_minute : Z;
  run_time_sec : Z;
  stop_time_sec : Z;
  days : Z
}.

Definition start_minutes_from_midnight (s : DiffuserSchedule) : Z :=
  start_hour s * 60 + start_minute s.

Definition end_minutes_from_midnight (s : DiffuserSchedule) : Z :=
  end_hour s * 60 + end_minute s.

(** The [data = bytes([...])] that [XEITINDiffuser.set_schedule] builds
    before it hands it to [_send_command(Command.SCHEDULE, data)]. *)
Definition set_schedule_data (schedule : DiffuserSchedule) : result bytes :=
  let start_mins := start_minutes_from_midnight schedule in
  let end_mins := end_minutes_from_midnight schedule in
  bytes_of
    [ mode_index schedule;
      if enabled schedule then 0x03 else 0x02;
      Z.lor (days schedule) (if enabled schedule then 0x80 else 0x00);
      0x00;
      Z.land start_mins 0xFF;
      Z.land (Z.shiftr start_mins 8) 0xFF;
      Z.land end_mins 0xFF;
      Z.land (Z.shiftr end_mins 8) 0xFF;
      Z.land (run_time_sec schedule) 0xFF;
      Z.land (Z.shiftr (run_time_sec schedule) 8) 0xFF;
      Z.land (stop_time_sec schedule) 0xFF;
      Z.land (Z.shiftr (stop_time_sec schedule) 8) 0xFF;
      0x00; 0x00; 0x00; 0x00 ].

(** The frame [set_schedule] passes to the transport. *)
Definition set_schedule_packet (schedule : DiffuserSchedule) : result bytes :=
  match set_schedule_data schedule with
  | Ok data => _build_packet Command.SCHEDULE data
  | Err e => Err e
  end.

(** The [data] of [power_on(mode)] and [power_off(mode)]. *)
Definition power_on_data (mode : Z) : result bytes := bytes_of [mode; 0x01; 0x00].
Definition power_off_data (mode : Z) : result bytes := bytes_of [mode; 0x00; 0x00].

(** The frames [power_on] and [power_off] pass to the transport. *)
Definition power_on_packet (mode : Z) : result bytes :=
  match power_on_data mode with
  | Ok data => _build_packet Command.POWER_MODE data
  | Err e => Err e
  end.

Definition power_off_packet (mode : Z) : result bytes :=
  match power_off_data mode with
  | Ok data => _build_packet Command.POWER_MODE data
  | Err e => Err e
  end.

(** ** Frame parsing *)

Inductive ParseError : Type :=
  | BadHeader
  | BadFooter
  | ChecksumMismatch
  | Truncated.

Record Frame : Type := mkFrame { command : Z; payload : bytes }.

(** Modelled from the spec: [parse_frame], which the sources do not contain
    (the library only logs notifications). It validates, in the layout
    HEADER(2) | LENGTH(1) | COMMAND(1) | PAYLOAD | CHECKSUM(1) | FOOTER(1)
    with LENGTH = 1 + len(PAYLOAD), the header, the presence of LENGTH + 2
    further bytes, the footer as the last byte, and the checksum
    (0x101 - LENGTH - COMMAND - sum(PAYLOAD)) mod 256. *)
Definition parse_frame (b : bytes) : Frame + ParseError :=
  match b with
  | h0 :: h1 :: length :: rest =>
      if negb ((h0 =? 0x55) && (h1 =? 0xAA)) then inr BadHeader
      else if (length <? 1) || (py_len rest <? length + 2) then inr Truncated
      else
        let n := Z.to_nat length in
        let body := take n rest in
        match drop n rest with
        | [cs; ft] =>
            if negb (ft =? 0x5A) then inr BadFooter
            else if negb (cs =? (0x101 - length - py_sum body) `mod` 256)
            then inr ChecksumMismatch
            else match body with
                 | cmd :: data => inl (mkFrame cmd data)
                 | [] => inr Truncated
                 end
        | _ => inr BadFooter
        end
  | _ => inr Truncated
  end.

(** ** Address canonicalization ([switch.py], [async_setup_entry]) *)

(** [c.upper()] on an ASCII character. *)
Definition upper_ascii (c : ascii) : ascii :=
  let n := N_of_ascii c in
  if ((97 <=? n) && (n <=? 122))%N then ascii_of_N (n - 32) else c.

(** [s.upper()] on an ASCII string. *)
Fixpoint upper (s : string) : string :=
  match s with
  | EmptyString => EmptyString
  | String c s' => String (upper_ascii c) (upper s')
  end.

(** [c in s] for a one-character [c]. *)
Fixpoint contains_char (c : ascii) (s : string) : bool :=
  match s with
  | EmptyString => false
  | String d s' => if decide (d = c) then true else contains_char c s'
  end.

(** [s[i:i+n]] for [0 <= i]: the slice is clipped at the end of [s]. *)
Definition slice (i n : nat) (s : string) : string := String.substring i n s.

(** [sep.join(parts)] *)
Definition join (sep : string) (parts : list string) : string :=
  String.concat sep parts.

(** The address that [async_setup_entry] hands to [XEITINBLEDevice]:
    [if ":" not in address:
        address = ":".join(address[i:i+2].upper() for i in range(0, 12, 2))] *)
Definition canonical_address (address : string) : string :=
  if negb (contains_char ":" address) then
    join ":" (map (fun i => upper (slice i 2 address)) [0; 2; 4; 6; 8; 10]%nat)
  else address.

Definition is_upper_hex (c : ascii) : bool :=
  let n := N_of_ascii c in
  (((48 <=? n) && (n <=? 57)) || ((65 <=? n) && (n <=? 70)))%N.

Definition is_hex (c : ascii) : bool :=
  let n := N_of_ascii c in
  (((48 <=? n) && (n <=? 57)) || ((65 <=? n) && (n <=? 70))
   || ((97 <=? n) && (n <=? 102)))%N.

Fixpoint all_chars (p : ascii -> bool) (s : string) : bool :=
  match s with
  | EmptyString => true
  | String c s' => p c && all_chars p s'
  end.

(** A bare address: exactly twelve hexadecimal digits. *)
Definition is_bare_mac (s : string) : bool :=
  (String.length s =? 12)%nat && all_chars is_hex s.

(** The form XX:XX:XX:XX:XX:XX with upper-case hexadecimal digits. *)
Definition is_upper_colon_mac (s : string) : bool :=
  match s with
  | String a0 (String a1 (String c0 (String b0 (String b1 (String c1
    (String d0 (String d1 (String c2 (String e0 (String e1 (String c3
    (String f0 (String f1 (String c4 (String g0 (String g1 EmptyString))))))))))))))))
    =>
      forallb is_upper_hex [a0; a1; b0; b1; d0; d1; e0; e1; f0; f1; g0; g1]
      && forallb (fun c => bool_decide (c = ":"%char)) [c0; c1; c2; c3; c4]
  | _ => false
  end.

(** The colon-delimited form with hexadecimal digits of either case. *)
Definition is_colon_mac (s : string) : bool :=
  match s with
  | String a0 (String a1 (String c0 (String b0 (String b1 (String c1
    (String d0 (String d1 (String c2 (String e0 (String e1 (String c3
    (String f0 (String f1 (String c4 (String g0 (String g1 EmptyString))))))))))))))))
    =>
      forallb is_hex [a0; a1; b0; b1; d0; d1; e0; e1; f0; f1; g0; g1]
      && forallb (fun c => bool_decide (c = ":"%char)) [c0; c1; c2; c3; c4]
  | _ => false
  end.

(** ** Device session ([switch.py], [class XEITINBLEDevice]) *)

(** The attributes of an [XEITINBLEDevice] object. [_lock] is [true] while
    the [asyncio.Lock] is held. [mode] is [None] while the object has no
    attribute of that name: [__init__] does not create it, the mode select
    entity does, by assignment. *)
Record XEITINBLEDevice : Type := mkDevice {
  _address : string;
  _available : bool;
  _lock : bool;
  power_on : bool;
  fan_boost : bool;
  modes_active : list bool;
  timer : Z;
  intensity : Z;
  mode : option Z
}.

(** [XEITINBLEDevice.__init__(address)] *)
Definition XEITINBLEDevice_init (address : string) : XEITINBLEDevice :=
  {| _address := address;
     _available := true;
     _lock := false;
     power_on := false;
     fan_boost := false;
     modes_active := replicate (length MODE_OPTIONS) false;
     timer := 0;
     intensity := 5;
     mode := None |}.

Definition set__available (b : bool) (d : XEITINBLEDevice) : XEITINBLEDevice :=
  mkDevice (_address d) b (_lock d) (power_on d) (fan_boost d)
           (modes_active d) (timer d) (intensity d) (mode d).
Definition set__lock (b : bool) (d : XEITINBLEDevice) : XEITINBLEDevice :=
  mkDevice (_address d) (_available d) b (power_on d) (fan_boost d)
           (modes_active d) (timer d) (intensity d) (mode d).
Definition set_power_on (b : bool) (d : XEITINBLEDevice) : XEITINBLEDevice :=
  mkDevice (_address d) (_available d) (_lock d) b (fan_boost d)
           (modes_active d) (timer d) (intensity d) (mode d).
Definition set_fan_boost (b : bool) (d : XEITINBLEDevice) : XEITINBLEDevice :=
  mkDevice (_address d) (_available d) (_lock d) (power_on d) b
           (modes_active d) (timer d) (intensity d) (mode d).
Definition set_modes_active (l : list bool) (d : XEITINBLEDevice) : XEITINBLEDevice :=
  mkDevice (_address d) (_available d) (_lock d) (power_on d) (fan_boost d)
           l (timer d) (intensity d) (mode d).
Definition set_timer (t : Z) (d : XEITINBLEDevice) : XEITINBLEDevice :=
  mkDevice (_address d) (_available d) (_lock d) (power_on d) (fan_boost d)
           (modes_active d) t (intensity d) (mode d).
Definition set_intensity (i : Z) (d : XEITINBLEDevice) : XEITINBLEDevice :=
  mkDevice (_address d) (_available d) (_lock d) (power_on d) (fan_boost d)
           (modes_active d) (timer d) i (mode d).
Definition set_mode (m : Z) (d : XEITINBLEDevice) : XEITINBLEDevice :=
  mkDevice (_address d) (_available d) (_lock d) (power_on d) (fan_boost d)
           (modes_active d) (timer d) (intensity d) (Some m).

(** The cache: the entity state fields, without availability and lock. *)
Definition cache (d : XEITINBLEDevice)
  : bool * bool * list bool * Z * Z * option Z :=
  (power_on d, fan_boost d, modes_active d, timer d, intensity d, mode d).

(** What the session does to its environment, in order. [Sleep] carries the
    duration in milliseconds. *)
Inductive event : Type :=
  | LockAcquire
  | LockRelease
  | Connect (address : string)
  | WriteGattChar (uuid : string) (packet : bytes)
  | Disconnect
  | Sleep (ms : Z).

Definition is_transport_call (ev : event) : bool :=
  match ev with
  | Connect _ | WriteGattChar _ _ | Disconnect => true
  | _ => false
  end.

(** The world a coroutine runs in: the shared device object, the log of
    events so far, and the transport's script: the outcome of each of the
    next transport calls, [Some e] for a call that raises [e] ([None], and
    every call after the script's end, succeeds). *)
Record World : Type := mkWorld {
  dev : XEITINBLEDevice;
  log : list event;
  faults : list (option exn)
}.

(** How a coroutine ends: it returns, it raises, or it waits for ever (for
    a lock that no other task will release). *)
Inductive outcome (A : Type) : Type :=
  | Ret (a : A)
  | Raise (e : exn)
  | Blocked.
Arguments Ret {A} a.
Arguments Raise {A} e.
Arguments Blocked {A}.

Definition M (A : Type) : Type := World -> outcome A * World.

Definition ret {A} (a : A) : M A := fun w => (Ret a, w).

Definition raise {A} (e : exn) : M A := fun w => (Raise e, w).

Definition bind {A B} (m : M A) (k : A -> M B) : M B :=
  fun w =>
    match m w with
    | (Ret a, w') => k a w'
    | (Raise e, w') => (Raise e, w')
    | (Blocked, w') => (Blocked, w')
    end.

Notation "'let*' x := m 'in' k" := (bind m (fun x => k))
  (at level 10, x name, m at level 100, k at level 200, only parsing).
Notation "m >> k" := (bind m (fun _ => k))
  (at level 100, k at level 200, right associativity, only parsing).

(** A step of pure code that may raise. *)
Definition lift {A} (r : result A) : M A :=
  match r with Ok a => ret a | Err e => raise e end.

(** [isinstance(e, classes)] for the classes above, none of which is a
    subclass of another. *)
Definition isinstance (e : exn) (classes : list exn) : bool :=
  existsb (fun c => bool_decide (e = c)) classes.

(** [try: body / except (classes): handler] *)
Definition try_except {A} (body : M A) (classes : list exn) (handler : exn -> M A)
  : M A :=
  fun w =>
    match body w with
    | (Raise e, w') =>
        if isinstance e classes then handler e w' else (Raise e, w')
    | r => r
    end.

(** [try: body / finally: final] and the exit half of a context manager:
    [final] runs whether [body] returned or raised; an exception of [final]
    replaces the outcome of [body]. *)
Definition finally {A} (body : M A) (final : M unit) : M A :=
  fun w =>
    match body w with
    | (Blocked, w') => (Blocked, w')
    | (r, w') =>
        match final w' with
        | (Ret _, w'') => (r, w'')
        | (Raise e, w'') => (Raise e, w'')
        | (Blocked, w'') => (Blocked, w'')
        end
    end.

Definition get_dev : M XEITINBLEDevice := fun w => (Ret (dev w), w).

Definition modify_dev (f : XEITINBLEDevice -> XEITINBLEDevice) : M unit :=
  fun w => (Ret tt, mkWorld (f (dev w)) (log w) (faults w)).

Definition emit (ev : event) : M unit :=
  fun w => (Ret tt, mkWorld (dev w) (log w ++ [ev]) (faults w)).

(** A call into the BLE transport: it is logged, and it ends as the
    transport's script says. *)
Definition transport_call (ev : event) : M unit :=
  fun w =>
    match faults w with
    | Some e :: fs => (Raise e, mkWorld (dev w) (log w ++ [ev]) fs)
    | None :: fs => (Ret tt, mkWorld (dev w) (log w ++ [ev]) fs)
    | [] => (Ret tt, mkWorld (dev w) (log w ++ [ev]) [])
    end.

(** [await asyncio.sleep(s)] *)
Definition sleep (ms : Z) : M unit := emit (Sleep ms).

(** [async with self._lock: body] *)
Definition with_lock {A} (body : M A) : M A :=
  let* d := get_dev in
  if _lock d then (fun w => (Blocked, w))
  else
    modify_dev (set__lock true) >>
    emit LockAcquire >>
    finally body (modify_dev (set__lock false) >> emit LockRelease).

(** [async with BleakClient(address, timeout=15.0) as client: body]:
    the connection is opened on entry and closed on exit, also when [body]
    raises; when opening fails, [body] and the exit are skipped. *)
Definition with_BleakClient {A} (address : string) (body : M A) : M A :=
  transport_call (Connect address) >>
  finally body (transport_call Disconnect).

(** [client.write_gatt_char(CHARACTERISTIC_UUID, packet, response=False)] *)
Definition write_gatt_char (uuid : string) (packet : bytes) : M unit :=
  transport_call (WriteGattChar uuid packet).

(** [XEITINBLEDevice.send_command(packet, wait_response=False)] *)
Definition send_command (packet : bytes) (wait_response : bool) : M bool :=
  with_lock
    (try_except
       (let* d := get_dev in
        with_BleakClient (_address d)
          (write_gatt_char CHARACTERISTIC_UUID PACKET_INIT >>
           sleep 300 >>
           write_gatt_char CHARACTERISTIC_UUID packet >>
           sleep 200) >>
        modify_dev (set__available true) >>
        ret true)
       [BleakError]
       (fun _ => modify_dev (set__available false) >> ret false)).

(** ** Entities ([switch.py], [number.py], [select.py])

    Logging and [async_write_ha_state] (the host's state push) do not touch
    the session and are left out. *)

Module XEITINPowerSwitch.
Definition is_on (d : XEITINBLEDevice) : bool := power_on d.

Definition async_turn_on : M unit :=
  let* ok := send_command PACKET_POWER_ON false in
  if ok : bool then modify_dev (set_power_on true) else ret tt.

Definition async_turn_off : M unit :=
  let* ok := send_command PACKET_POWER_OFF false in
  if ok : bool then modify_dev (set_power_on false) else ret tt.
End XEITINPowerSwitch.

Module XEITINFanBoostSwitch.
Definition is_on (d : XEITINBLEDevice) : bool := fan_boost d.

Definition async_turn_on : M unit :=
  let* ok := send_command PACKET_FAN_BOOST_ON false in
  if ok : bool then modify_dev (set_fan_boost true) else ret tt.

Definition async_turn_off : M unit :=
  let* ok := send_command PACKET_FAN_BOOST_OFF false in
  if ok : bool then modify_dev (set_fan_boost false) else ret tt.
End XEITINFanBoostSwitch.

(** [self.modes_active[idx] = b] on the shared device object. *)
Definition assign_mode_active (idx : Z) (b : bool) : M unit :=
  let* d := get_dev in
  let* l := lift (py_setitem (modes_active d) idx b) in
  modify_dev (set_modes_active l).

Module XEITINModeSwitch.
Record t : Type := mk { _mode_idx : Z; _mode_packet : bytes }.

(** [__init__(entry, ble_device, mode_idx, mode_name)] *)
Definition init (mode_idx : Z) : result t :=
  match py_getitem MODE_PACKETS mode_idx with
  | Ok p => Ok (mk mode_idx p)
  | Err e => Err e
  end.

Definition is_on (self : t) (d : XEITINBLEDevice) : result bool :=
  py_getitem (modes_active d) (_mode_idx self).

Definition async_turn_on (self : t) : M unit :=
  let* ok := send_command (_mode_packet self) false in
  if ok : bool then assign_mode_active (_mode_idx self) true else ret tt.

Definition async_turn_off (self : t) : M unit :=
  assign_mode_active (_mode_idx self) false.
End XEITINModeSwitch.

Module XEITINIntensityNumber.
Definition native_value (d : XEITINBLEDevice) : Z := intensity d.

(** [async_set_native_value(value)]; the argument here is [int(value)],
    the integer the method computes first. *)
Definition async_set_native_value (value : Z) : M unit :=
  let level := value in
  let level := if level <? 1 then 1 else if level >? 10 then 10 else level in
  if dict_contains INTENSITY_PACKETS level then
    let* packet := lift (dict_getitem INTENSITY_PACKETS level) in
    send_command packet false >>
    modify_dev (set_intensity level)
  else ret tt.
End XEITINIntensityNumber.

Module XEITINModeSelect.
(** The [current_option] property: reading [self._ble_device.mode] raises
    [AttributeError] while the attribute does not exist. *)
Definition current_option (d : XEITINBLEDevice) : result string :=
  match mode d with
  | None => Err AttributeError
  | Some mode_idx =>
      if (0 <=? mode_idx) && (mode_idx <? py_len MODE_OPTIONS) then
        py_getitem MODE_OPTIONS mode_idx
      else py_getitem MODE_OPTIONS 0
  end.

Definition async_select_option (option : string) : M unit :=
  try_except
    (let* idx := lift (py_index MODE_OPTIONS option) in
     let* packet := lift (py_getitem MODE_PACKETS idx) in
     send_command packet false >>
     modify_dev (set_mode idx))
    [ValueError]
    (fun _ => ret tt).
End XEITINModeSelect.

Module XEITINTimerSelect.
Definition current_option (d : XEITINBLEDevice) : result string :=
  let timer_val := timer d in
  match py_index TIMER_VALUES timer_val with
  | Ok idx => py_getitem TIMER_OPTIONS idx
  | Err ValueError => py_getitem TIMER_OPTIONS 0
  | Err e => Err e
  end.

Definition async_select_option (option : string) : M unit :=
  try_except
    (let* idx := lift (py_index TIMER_OPTIONS option) in
     let* timer_val := lift (py_getitem TIMER_VALUES idx) in
     let* packet := lift (dict_getitem TIMER_PACKETS timer_val) in
     send_command packet false >>
     modify_dev (set_timer timer_val))
    [ValueError; KeyError]
    (fun _ => ret tt).
End XEITINTimerSelect.

(** The calls the host can make on the entities of one device. *)
Inductive action : Type :=
  | PowerOn
  | PowerOff
  | FanBoostOn
  | FanBoostOff
  | ModeOn (sw : XEITINModeSwitch.t)
  | ModeOff (sw : XEITINModeSwitch.t)
  | SetIntensity (value : Z)
  | SelectMode (option : string)
  | SelectTimer (option : string).

Definition perform (a : action) : M unit :=
  match a with
  | PowerOn => XEITINPowerSwitch.async_turn_on
  | PowerOff => XEITINPowerSwitch.async_turn_off
  | FanBoostOn => XEITINFanBoostSwitch.async_turn_on
  | FanBoostOff => XEITINFanBoostSwitch.async_turn_off
  | ModeOn sw => XEITINModeSwitch.async_turn_on sw
  | ModeOff sw => XEITINModeSwitch.async_turn_off sw
  | SetIntensity v => XEITINIntensityNumber.async_set_native_value v
  | SelectMode o => XEITINModeSelect.async_select_option o
  | SelectTimer o => XEITINTimerSelect.async_select_option o
  end.

(** The host performs the calls one after the other; a call that raises
    does not stop the host from making the next one. *)
Fixpoint run (acts : list action) (w : World) : World :=
  match acts with
  | [] => w
  | a :: acts' => run acts' (snd (perform a w))
  end.

(** The transport's script holds transport errors only: every call that
    fails raises [BleakError]. *)
Definition transport_errors_only (script : list (option exn)) : bool :=
  forallb (fun f => match f with
                    | None => true
                    | Some e => bool_decide (e = BleakError)
                    end) script.

Definition no_fault (f : option exn) : bool :=
  match f with None => true | Some _ => false end.

(** The four transport calls of one session (connect, two writes,
    disconnect) all succeed. *)
Definition session_clean (script : list (option exn)) : bool :=
  forallb no_fault (take 4 script).

(** A world with a freshly set up device and the given transport script. *)
Definition fresh_world (address : string) (script : list (option exn)) : World :=
  mkWorld (XEITINBLEDevice_init address) [] script.

(** ** Vocabulary of the statements *)

(** The events of the sessions that one [send_command] can go through,
    between taking and releasing the lock: the complete one, and the ones
    that a transport error cuts short. *)
Definition session_complete (address : string) (packet : bytes) : list event :=
  [ Connect address;
    WriteGattChar CHARACTERISTIC_UUID PACKET_INIT; Sleep 300;
    WriteGattChar CHARACTERISTIC_UUID packet; Sleep 200;
    Disconnect ].

Definition sessions_failed (address : string) (packet : bytes)
  : list (list event) :=
  [ [ Connect address ];
    [ Connect address;
      WriteGattChar CHARACTERISTIC_UUID PACKET_INIT; Disconnect ];
    [ Connect address;
      WriteGattChar CHARACTERISTIC_UUID PACKET_INIT; Sleep 300;
      WriteGattChar CHARACTERISTIC_UUID packet; Disconnect ];
    [ Connect address;
      WriteGattChar CHARACTERISTIC_UUID PACKET_INIT; Sleep 300;
      WriteGattChar CHARACTERISTIC_UUID packet; Sleep 200;
      Disconnect ] ].

(** The assignments that the entities make to the shared device object. *)
Inductive cache_write : (XEITINBLEDevice -> XEITINBLEDevice) -> Prop :=
  | cw_power_on b : cache_write (set_power_on b)
  | cw_fan_boost b : cache_write (set_fan_boost b)
  | cw_modes_active l : cache_write (set_modes_active l)
  | cw_timer t : cache_write (set_timer t)
  | cw_intensity i : cache_write (set_intensity i)
  | cw_mode m : cache_write (set_mode m).

(** [m] never changes the [proj] part of the device. *)
Definition keeps {A B} (proj : XEITINBLEDevice -> B) (m : M A) : Prop :=
  forall w, proj (dev (snd (m w))) = proj (dev w).

(** [m] maintains the invariant [I] of the world, however it ends. *)
Definition maintains {A} (I : World -> Prop) (m : M A) : Prop :=
  forall w, I w -> I (snd (m w)).

(** The lock is free between calls and the rest of the script still holds
    transport errors only. *)
Definition session_idle (w : World) : Prop :=
  _lock (dev w) = false /\ transport_errors_only (faults w) = true.

(** A requested intensity, brought into the range 1..10. *)
Definition clamped_level (value : Z) : Z := Z.max 1 (Z.min value 10).

(** ** Further code of the client library ([xeitin_diffuser.py]) *)

(** [c.lower()] on an ASCII character. Python lower-cases other characters
    by the Unicode tables, which are not modelled: what is stated about
    [lower] is stated for ASCII strings. *)
Definition lower_ascii (c : ascii) : ascii :=
  let n := N_of_ascii c in
  if ((65 <=? n) && (n <=? 90))%N then ascii_of_N (n + 32) else c.

(** [s.lower()] on an ASCII string. *)
Fixpoint lower (s : string) : string :=
  match s with
  | EmptyString => EmptyString
  | String c s' => String (lower_ascii c) (lower s')
  end.

(** [s.isascii()]: every character of [s] is below 128. On such strings
    [lower] and [slice] are Python's [str.lower] and slicing, character by
    character. *)
Definition isascii (s : string) : bool :=
  all_chars (fun c => (N_of_ascii c <? 128)%N) s.

(** The [day_map] of [DiffuserSchedule.days_from_list]. *)
Definition day_map : gmap string Z :=
  list_to_map
    [ ("mon", 0); ("tue", 1); ("wed", 2); ("thu", 3); ("fri", 4); ("sat", 5);
      ("sun", 6) ]%string.

(** One turn of the loop of [days_from_list], for an ASCII name:
    [if day.lower()[:3] in day_map: result |= (1 << day_map[day.lower()[:3]])] *)
Definition days_step (result : Z) (day : string) : Z :=
  match day_map !! slice 0 3 (lower day) with
  | Some bit => Z.lor result (Z.shiftl 1 bit)
  | None => result
  end.

(** [DiffuserSchedule.days_from_list(days)] *)
Definition days_from_list (days : list string) : Z :=
  foldl days_step 0 days.

(** The [data] of [set_fan(enabled)]. *)
Definition set_fan_data (enabled : bool) : result bytes :=
  bytes_of [PowerMode.MODE_12; if enabled then 0x01 else 0x00; 0x00].

(** The [data] of [sync_time(timestamp)]; [now] is what [int(time.time())]
    returns when the call gives no timestamp. *)
Definition sync_time_data (timestamp : option Z) (now : Z) : result bytes :=
  let timestamp := match timestamp with Some t => t | None => now end in
  bytes_of
    [ Z.land timestamp 0xFF;
      Z.land (Z.shiftr timestamp 8) 0xFF;
      Z.land (Z.shiftr timestamp 16) 0xFF;
      Z.land (Z.shiftr timestamp 24) 0xFF ].

(** A scanned device: [BLEDevice] of the library, the discovery info of the
    configuration flow. The name may be missing. *)
Record BLEDevice : Type := mkBLEDevice {
  ble_name : option string;
  ble_address : string
}.

(** [d.name and d.name.startswith("Scent-")] as a condition: a missing or
    empty name is false. *)
Definition is_scent_device (d : BLEDevice) : bool :=
  match ble_name d with
  | None => false
  | Some EmptyString => false
  | Some name => String.prefix "Scent-" name
  end.

(** What [XEITINDiffuser.discover] keeps of a scan:
    [[d for d in devices if d.name and d.name.startswith("Scent-")]] *)
Definition discover (devices : list BLEDevice) : list BLEDevice :=
  List.filter is_scent_device devices.

(** ** Further code of the integration *)

(** The loop of [async_step_user] ([config_flow.py]) that fills
    [self._discovered_devices], a dict from address to name. *)
Definition discovered_step (found : gmap string string) (info : BLEDevice)
  : gmap string string :=
  if is_scent_device info then
    match ble_name info with
    | Some name => <[ble_address info := name]> found
    | None => found
    end
  else found.

Definition discovered_devices (infos : list BLEDevice) : gmap string string :=
  foldl discovered_step ∅ infos.

(** [s.replace(old, new)] for a one-character [old]. *)
Fixpoint replace_char (old : ascii) (new : string) (s : string) : string :=
  match s with
  | EmptyString => EmptyString
  | String c s' =>
      if decide (c = old) then (new +:+ replace_char old new s')%string
      else String c (replace_char old new s')
  end.

(** [address.replace(":", "").lower()]: the unique id of the configuration
    flow and the identifier in every entity's [device_info]. *)
Definition device_identifier (address : string) : string :=
  lower (replace_char ":" "" address).

(** The [unique_id] of a switch ([XEITINBaseSwitchEntity.__init__]):
    [f"{address.replace(chr(58), chr(95)).lower()}_{key}"] *)
Definition switch_unique_id (address key : string) : string :=
  (lower (replace_char ":" "_" address) +:+ "_" +:+ key)%string.

(** The [unique_id] of the number and select entities:
    [f"{address.replace(':', '').lower()}_intensity"], [..._mode],
    [..._timer]. *)
Definition entity_unique_id (address key : string) : string :=
  (device_identifier address +:+ "_" +:+ key)%string.

(** The key of a mode switch ([XEITINModeSwitch.__init__]):
    [f"mode_{mode_idx + 1}"], the integer in decimal. *)
Definition mode_key (mode_idx : Z) : string :=
  ("mode_" +:+ pretty.pretty_Z (mode_idx + 1))%string.

(** The entities that [async_setup_entry] ([switch.py]) creates, by kind. *)
Inductive switch_entity : Type :=
  | PowerSwitchEntity
  | FanBoostSwitchEntity
  | ModeSwitchEntity (sw : XEITINModeSwitch.t).

(** [for idx, mode_name in enumerate(MODE_OPTIONS):
       entities.append(XEITINModeSwitch(entry, ble_device, idx, mode_name))] *)
Fixpoint mode_switches (idx : nat) (names : list string)
  : result (list switch_entity) :=
  match names with
  | [] => Ok []
  | _ :: names' =>
      match XEITINModeSwitch.init (Z.of_nat idx) with
      | Err e => Err e
      | Ok sw =>
          match mode_switches (S idx) names' with
          | Err e => Err e
          | Ok l => Ok (ModeSwitchEntity sw :: l)
          end
      end
  end.

(** The entity list of [async_setup_entry] ([switch.py]). *)
Definition async_setup_entry_entities : result (list switch_entity) :=
  match mode_switches 0 MODE_OPTIONS with
  | Err e => Err e
  | Ok l => Ok (PowerSwitchEntity :: FanBoostSwitchEntity :: l)
  end.

(** The key that an entity of [async_setup_entry] passes to
    [XEITINBaseSwitchEntity.__init__]. *)
Definition switch_key (e : switch_entity) : string :=
  match e with
  | PowerSwitchEntity => "power"
  | FanBoostSwitchEntity => "fan_boost"
  | ModeSwitchEntity sw => mode_key (XEITINModeSwitch._mode_idx sw)
  end.

(** The ranges of the fields of a schedule, as the comments of
    [DiffuserSchedule] give them, with 16-bit times and a 7-bit day mask. *)
Definition schedule_in_range (s : DiffuserSchedule) : Prop :=
  0 <= mode_index s <= 4
  /\ 0 <= start_hour s <= 23 /\ 0 <= start_minute s <= 59
  /\ 0 <= end_hour s <= 23 /\ 0 <= end_minute s <= 59
  /\ 0 <= run_time_sec s < 65536 /\ 0 <= stop_time_sec s < 65536
  /\ 0 <= days s < 128.

(** The same ranges with any byte as mode index: the schedules whose
    fields fit the payload of [set_schedule]. *)
Definition schedule_encodable (s : DiffuserSchedule) : Prop :=
  0 <= mode_index s <= 255
  /\ 0 <= start_hour s <= 23 /\ 0 <= start_minute s <= 59
  /\ 0 <= end_hour s <= 23 /\ 0 <= end_minute s <= 59
  /\ 0 <= run_time_sec s < 65536 /\ 0 <= stop_time_sec s < 65536
  /\ 0 <= days s < 128.

(** ** Further vocabulary of the statements *)

(** The number of calls into the BLE transport among some events. *)
Definition transport_calls (evs : list event) : nat :=
  length (List.filter is_transport_call evs).

(** The number of connections opened among some events. *)
Definition connects (evs : list event) : nat :=
  length (List.filter (fun ev => match ev with Connect _ => true | _ => false end)
                      evs).

(** [m] never waits for ever. *)
Definition quiet {A} (m : M A) : Prop := forall w, fst (m w) <> Blocked.

(** Started with the lock free, [m] ends, and with the lock free again. *)
Definition lock_safe {A} (m : M A) : Prop :=
  forall w, _lock (dev w) = false ->
            fst (m w) <> Blocked /\ _lock (dev (snd (m w))) = false.

(** [m] only appends to the log, and what it appends holds at most [n]
    transport calls, at most [c] of them connects. *)
Definition appends_le {A} (n c : nat) (m : M A) : Prop :=
  forall w, exists evs,
    log (snd (m w)) = log w ++ evs
    /\ (transport_calls evs <= n)%nat /\ (connects evs <= c)%nat.

(** The cached fields hold values that the entities can show. *)
Definition cache_ok (d : XEITINBLEDevice) : Prop :=
  1 <= intensity d <= 10
  /\ timer d ∈ TIMER_VALUES
  /\ length (modes_active d) = length MODE_OPTIONS
  /\ (forall m, mode d = Some m -> 0 <= m < py_len MODE_OPTIONS).

(** What an entity call leaves in the device when its session completes
    (for a call without session: when it is made). *)
Definition success_effect (a : action) (d : XEITINBLEDevice) : XEITINBLEDevice :=
  match a with
  | PowerOn => set_power_on true (set__available true d)
  | PowerOff => set_power_on false (set__available true d)
  | FanBoostOn => set_fan_boost true (set__available true d)
  | FanBoostOff => set_fan_boost false (set__available true d)
  | ModeOn sw =>
      match py_setitem (modes_active d) (XEITINModeSwitch._mode_idx sw) true with
      | Ok l => set_modes_active l (set__available true d)
      | Err _ => set__available true d
      end
  | ModeOff sw =>
      match py_setitem (modes_active d) (XEITINModeSwitch._mode_idx sw) false with
      | Ok l => set_modes_active l d
      | Err _ => d
      end
  | SetIntensity value => set_intensity (clamped_level value) (set__available true d)
  | SelectMode option =>
      match py_index MODE_OPTIONS option with
      | Ok idx => set_mode idx (set__available true d)
      | Err _ => d
      end
  | SelectTimer option =>
      match py_index TIMER_OPTIONS option with
      | Ok idx =>
          match py_getitem TIMER_VALUES idx with
          | Ok timer_val => set_timer timer_val (set__available true d)
          | Err _ => d
          end
      | Err _ => d
      end
  end.

(** ** The client class ([xeitin_diffuser.py], [class XEITINDiffuser]) *)

(** The exceptions of the client: [ConnectionError], which [_send_command]
    raises itself, and the classes above. All are subclasses of
    [Exception]. *)
Inductive client_exn : Type :=
  | ConnectionError
  | Exn (e : exn).

(** What the client asks of the BLE library, in order. *)
Inductive client_event : Type :=
  | BleConnect (address : string)
  | BleStartNotify (uuid : string)
  | BleWrite (uuid : string) (packet : bytes)
  | BleDisconnect
  | BleSleep (ms : Z).

Module XEITINDiffuser.

(** A [BleakClient] object: the address it was made for and whether the
    library reports it connected ([is_connected]). *)
Record BleakClient : Type := mkBleak {
  bleak_address : string;
  bleak_is_connected : bool
}.

(** The attributes of an [XEITINDiffuser] object ([_notification_callback]
    only forwards notifications and is left out). *)
Record t : Type := mk {
  address : string;
  _client : option BleakClient;
  _connected : bool
}.

(** [XEITINDiffuser.__init__(address)] *)
Definition init (address : string) : t := mk address None false.

(** The world of the client: the object, the log of its calls into the BLE
    library, and the library's script, as for the session above. *)
Record Env : Type := mkEnv {
  self : t;
  calls : list client_event;
  script : list (option exn)
}.

Inductive ended (A : Type) : Type :=
  | Returns (a : A)
  | Raises (e : client_exn).
Arguments Returns {A} a.
Arguments Raises {A} e.

Definition C (A : Type) : Type := Env -> ended A * Env.

Definition creturn {A} (a : A) : C A := fun env => (Returns a, env).

Definition craise {A} (e : client_exn) : C A := fun env => (Raises e, env).

Definition cbind {A B} (m : C A) (k : A -> C B) : C B :=
  fun env =>
    match m env with
    | (Returns a, env') => k a env'
    | (Raises e, env') => (Raises e, env')
    end.

(** A step of pure code that may raise. *)
Definition clift {A} (r : result A) : C A :=
  match r with Ok a => creturn a | Err e => craise (Exn e) end.

(** [try: body / except Exception: handler] *)
Definition try_except_Exception {A} (body : C A) (handler : client_exn -> C A) : C A :=
  fun env =>
    match body env with
    | (Raises e, env') => handler e env'
    | r => r
    end.

(** [try: body / finally: final], also the exit of [async with]. *)
Definition cfinally {A} (body : C A) (final : C unit) : C A :=
  fun env =>
    match body env with
    | (r, env') =>
        match final env' with
        | (Returns _, env'') => (r, env'')
        | (Raises e, env'') => (Raises e, env'')
        end
    end.

Definition get_self : C t := fun env => (Returns (self env), env).

Definition set_self (s : t) : C unit :=
  fun env => (Returns tt, mkEnv s (calls env) (script env)).

(** A call into the BLE library: logged, and ended as the script says. *)
Definition ble (ev : client_event) : C unit :=
  fun env =>
    match script env with
    | Some e :: rest => (Raises (Exn e), mkEnv (self env) (calls env ++ [ev]) rest)
    | None :: rest => (Returns tt, mkEnv (self env) (calls env ++ [ev]) rest)
    | [] => (Returns tt, mkEnv (self env) (calls env ++ [ev]) [])
    end.

(** [await asyncio.sleep(s)] *)
Definition csleep (ms : Z) : C unit :=
  fun env => (Returns tt, mkEnv (self env) (calls env ++ [BleSleep ms]) (script env)).

(** The [is_connected] property. *)
Definition is_connected (s : t) : bool :=
  _connected s
  && match _client s with
     | Some c => bleak_is_connected c
     | None => false
     end.

(** [_send_command(cmd, data)] *)
Definition _send_command (cmd : Z) (data : bytes) : C bool :=
  cbind get_self (fun s =>
  if negb (is_connected s) then craise ConnectionError
  else
    cbind (clift (_build_packet cmd data)) (fun packet =>
    try_except_Exception
      (cbind (ble (BleWrite CHARACTERISTIC_UUID packet)) (fun _ => creturn true))
      (fun _ => creturn false))).

(** [connect()] *)
Definition connect : C bool :=
  try_except_Exception
    (cbind get_self (fun s =>
     cbind (set_self (mk (address s) (Some (mkBleak (address s) false))
                         (_connected s))) (fun _ =>
     cbind (ble (BleConnect (address s))) (fun _ =>
     cbind (set_self (mk (address s) (Some (mkBleak (address s) true))
                         (_connected s))) (fun _ =>
     cbind (ble (BleStartNotify CHARACTERISTIC_UUID)) (fun _ =>
     cbind get_self (fun s =>
     cbind (set_self (mk (address s) (_client s) true)) (fun _ =>
     cbind (_send_command Command.INIT []) (fun _ =>
     cbind (csleep 100) (fun _ =>
     creturn true))))))))))
    (fun _ =>
       cbind get_self (fun s =>
       cbind (set_self (mk (address s) (_client s) false)) (fun _ =>
       creturn false))).

(** [disconnect()] *)
Definition disconnect : C unit :=
  cbind get_self (fun s =>
  match _client s with
  | Some _ =>
      cfinally
        (try_except_Exception (ble BleDisconnect) (fun _ => creturn tt))
        (cbind get_self (fun s => set_self (mk (address s) None false)))
  | None => creturn tt
  end).

Definition keepalive : C bool := _send_command Command.KEEPALIVE [].

Definition get_status : C bool := _send_command Command.GET_STATUS [].

Definition power_on (mode : Z) : C bool :=
  cbind (clift (power_on_data mode)) (fun data =>
  _send_command Command.POWER_MODE data).

Definition power_off (mode : Z) : C bool :=
  cbind (clift (power_off_data mode)) (fun data =>
  _send_command Command.POWER_MODE data).

Definition set_fan (enabled : bool) : C bool :=
  cbind (clift (set_fan_data enabled)) (fun data =>
  _send_command Command.POWER_MODE data).

Definition set_schedule (schedule : DiffuserSchedule) : C bool :=
  cbind (clift (set_schedule_data schedule)) (fun data =>
  _send_command Command.SCHEDULE data).

Definition sync_time (timestamp : option Z) (now : Z) : C bool :=
  cbind (clift (sync_time_data timestamp now)) (fun data =>
  _send_command Command.TIME_SYNC data).

(** [async with diffuser: body]: [__aenter__] awaits [connect()] and drops
    its result, [__aexit__] awaits [disconnect()]. *)
Definition async_with {A} (body : C A) : C A :=
  cbind connect (fun _ => cfinally body disconnect).

(** [test_connection(address)], without its prints. *)
Definition test_connection (address : string) : C bool :=
  try_except_Exception
    (cbind (set_self (init address)) (fun _ =>
     async_with (cbind keepalive (fun _ => creturn true))))
    (fun _ => creturn false).

End XEITINDiffuser.

(** The commands of the client, to state what they share. *)
Inductive request : Type :=
  | Keepalive
  | GetStatus
  | PowerOnMode (mode : Z)
  | PowerOffMode (mode : Z)
  | SetFan (enabled : bool)
  | SetSchedule (schedule : DiffuserSchedule)
  | SyncTime (timestamp : option Z) (now : Z).

Definition issue (r : request) : XEITINDiffuser.C bool :=
  match r with
  | Keepalive => XEITINDiffuser.keepalive
  | GetStatus => XEITINDiffuser.get_status
  | PowerOnMode mode => XEITINDiffuser.power_on mode
  | PowerOffMode mode => XEITINDiffuser.power_off mode
  | SetFan enabled => XEITINDiffuser.set_fan enabled
  | SetSchedule schedule => XEITINDiffuser.set_schedule schedule
  | SyncTime timestamp now => XEITINDiffuser.sync_time timestamp now
  end.

(** The command byte and the payload that a command passes to
    [_send_command]. *)
Definition request_command (r : request) : Z :=
  match r with
  | Keepalive => Command.KEEPALIVE
  | GetStatus => Command.GET_STATUS
  | PowerOnMode _ | PowerOffMode _ | SetFan _ => Command.POWER_MODE
  | SetSchedule _ => Command.SCHEDULE
  | SyncTime _ _ => Command.TIME_SYNC
  end.

Definition request_data (r : request) : result bytes :=
  match r with
  | Keepalive | GetStatus => Ok []
  | PowerOnMode mode => power_on_data mode
  | PowerOffMode mode => power_off_data mode
  | SetFan enabled => set_fan_data enabled
  | SetSchedule schedule => set_schedule_data schedule
  | SyncTime timestamp now => sync_time_data timestamp now
  end.

(** * Properties *)

(** ** Bytes and checksums *)

Lemma land_0xFF (x : Z) : Z.land x 0xFF = x `mod` 256.
Proof. change 0xFF with (Z.ones 8). now rewrite Z.land_ones. Qed.

Lemma is_byte_spec (z : Z) : is_byte z = true <-> 0 <= z < 256.
Proof. unfold is_byte. rewrite andb_true_iff, Z.leb_le, Z.ltb_lt. tauto. Qed.

Lemma is_byte_mod (x : Z) : is_byte (x `mod` 256) = true.
Proof. apply is_byte_spec, Z.mod_pos_bound. lia. Qed.

Lemma is_byte_land (x : Z) : is_byte (Z.land x 0xFF) = true.
Proof. rewrite land_0xFF. apply is_byte_mod. Qed.

Lemma py_sum_cons (x : Z) (l : list Z) : py_sum (x :: l) = x + py_sum l.
Proof. reflexivity. Qed.

Lemma py_len_cons {A} (x : A) (l : list A) : py_len (x :: l) = 1 + py_len l.
Proof. unfold py_len. cbn [length]. lia. Qed.

Lemma py_len_nonneg {A} (l : list A) : 0 <= py_len l.
Proof. unfold py_len. lia. Qed.

Lemma bytes_of_ok (l : list Z) : all_bytes l = true -> bytes_of l = Ok l.
Proof. unfold bytes_of. now intros ->. Qed.

(** The two codecs compute the same checksum byte. *)
Lemma checksum_of_eq (cmd : Z) (data : bytes) :
  checksum_of cmd data = Z.land (0x101 - (1 + py_len data) - cmd - py_sum data) 0xFF.
Proof.
  unfold checksum_of, _calculate_checksum. cbn [app].
  rewrite !py_sum_cons. f_equal. lia.
Qed.

(** The library's builder and the integration's builder agree everywhere. *)
Lemma build_packet_agree (cmd : Z) (data : bytes) :
  build_packet cmd data = _build_packet cmd data.
Proof.
  unfold build_packet, _build_packet.
  destruct (bytes_of [1 + py_len data; cmd]) as [lc|e] eqn:Hlc; [|reflexivity].
  unfold bytes_of in Hlc. destruct (all_bytes _); [|discriminate].
  injection Hlc as <-.
  fold (checksum_of cmd data). now rewrite checksum_of_eq.
Qed.

(** When the builder succeeds, and what it returns then. *)
Lemma _build_packet_ok (cmd : Z) (data : bytes) :
  is_byte cmd = true -> py_len data <= 254 ->
  _build_packet cmd data =
    Ok (HEADER ++ [1 + py_len data; cmd] ++ data ++ [checksum_of cmd data] ++ FOOTER).
Proof.
  intros Hc Hl. unfold _build_packet.
  pose proof (py_len_nonneg data).
  assert (Hlen : is_byte (1 + py_len data) = true) by (apply is_byte_spec; lia).
  rewrite bytes_of_ok by (cbn; now rewrite Hlen, Hc).
  fold (checksum_of cmd data).
  rewrite bytes_of_ok.
  - now rewrite <- !app_assoc.
  - cbn. unfold checksum_of, _calculate_checksum. now rewrite is_byte_land.
Qed.

Lemma _build_packet_overflow (cmd : Z) (data : bytes) :
  254 < py_len data -> _build_packet cmd data = Err ValueError.
Proof.
  intros Hl. unfold _build_packet, bytes_of.
  assert (Hlen : is_byte (1 + py_len data) = false).
  { unfold is_byte. rewrite andb_false_iff, Z.ltb_ge. right. lia. }
  cbn. now rewrite Hlen.
Qed.

(** C1: for every command byte and every payload of 0..250 bytes, the
    checksum the codec computes is (0x101 - LENGTH - COMMAND - sum(PAYLOAD))
    mod 256 with LENGTH = 1 + len(PAYLOAD); it lies in 0..255; LENGTH +
    COMMAND + sum(PAYLOAD) + checksum is 1 modulo 256; and it is the byte
    that both builders put before the footer. *)
Theorem checksum_formula (cmd : Z) (data : bytes) :
  is_byte cmd = true ->
  all_bytes data = true ->
  0 <= py_len data <= 250 ->
  let length := 1 + py_len data in
  let c := checksum_of cmd data in
  c = (0x101 - length - cmd - py_sum data) `mod` 256
  /\ 0 <= c <= 255
  /\ (length + cmd + py_sum data + c) `mod` 256 = 1
  /\ _build_packet cmd data = Ok (HEADER ++ [length; cmd] ++ data ++ [c] ++ FOOTER)
  /\ build_packet cmd data = _build_packet cmd data.
Proof.
  intros Hc Hd Hl length c.
  assert (Hcs : c = (0x101 - length - cmd - py_sum data) `mod` 256).
  { subst c length. now rewrite checksum_of_eq, land_0xFF. }
  split; [exact Hcs|].
  split.
  { rewrite Hcs.
    pose proof (Z.mod_pos_bound (0x101 - length - cmd - py_sum data) 256). lia. }
  split.
  { rewrite Hcs, Zplus_mod_idemp_r.
    replace (length + cmd + py_sum data + (0x101 - length - cmd - py_sum data))
      with (1 + 1 * 256) by lia.
    now rewrite Z_mod_plus_full. }
  split.
  - apply _build_packet_ok; [exact Hc | lia].
  - apply build_packet_agree.
Qed.

Lemma checksum_formula_witness :
  let data := [0x10; 0x01; 0x00] in
  checksum_of 0x07 data = 0xE5
  /\ (1 + py_len data + 0x07 + py_sum data + checksum_of 0x07 data) `mod` 256 = 1.
Proof.
  intros data.
  destruct (checksum_formula 0x07 data) as (H1 & _ & H3 & _);
    [reflexivity | reflexivity | (vm_compute; split; discriminate) |].
  split; [rewrite H1; reflexivity | exact H3].
Defined.

(** ** The length guard of the builder *)

(** C6, as stated, fails: a payload of 254 bytes is longer than 253 bytes,
    and the builder accepts it (the length byte is 255). *)
Lemma build_254_bytes_accepted :
  let data := replicate 254 0 in
  253 < py_len data
  /\ is_ok (_build_packet 0x00 data) = true
  /\ is_ok (build_packet 0x00 data) = true
  /\ (exists rest, _build_packet 0x00 data = Ok (0x55 :: 0xAA :: 255 :: rest)).
Proof.
  intros data. repeat split; try reflexivity.
  eexists. vm_compute. reflexivity.
Qed.

(** C6, amended: the builder fails exactly when the payload has more than
    254 bytes, and then with the [ValueError] of the byte constructor (the
    length byte 1 + len would exceed 255); for a command byte and a payload
    of at most 254 bytes it succeeds and returns
    HEADER | 1 + len | COMMAND | PAYLOAD | CHECKSUM | FOOTER. *)
Theorem build_packet_length_guard (cmd : Z) (data : bytes) :
  is_byte cmd = true ->
  all_bytes data = true ->
  (254 < py_len data ->
     _build_packet cmd data = Err ValueError
     /\ build_packet cmd data = Err ValueError)
  /\ (py_len data <= 254 ->
        let frame :=
          HEADER ++ [1 + py_len data; cmd] ++ data
                 ++ [(0x101 - (1 + py_len data) - cmd - py_sum data) `mod` 256]
                 ++ FOOTER in
        _build_packet cmd data = Ok frame
        /\ build_packet cmd data = Ok frame
        /\ all_bytes frame = true).
Proof.
  intros Hc Hd. split.
  - intros Hl. rewrite build_packet_agree. split; now apply _build_packet_overflow.
  - intros Hl frame. rewrite build_packet_agree.
    assert (Hb : _build_packet cmd data = Ok frame).
    { rewrite _build_packet_ok by assumption.
      subst frame. now rewrite checksum_of_eq, land_0xFF. }
    repeat split; try exact Hb.
    subst frame. unfold all_bytes in *.
    pose proof (py_len_nonneg data).
    rewrite !forallb_app, Hd. cbn.
    rewrite Hc, is_byte_mod.
    assert (is_byte (1 + py_len data) = true) as -> by (apply is_byte_spec; lia).
    reflexivity.
Qed.

Lemma build_packet_length_guard_witness :
  _build_packet 0x00 (replicate 255 0) = Err ValueError
  /\ _build_packet 0x05 [0x0A] = Ok [0x55; 0xAA; 0x02; 0x05; 0x0A; 0xF0; 0x5A].
Proof.
  split.
  - apply (build_packet_length_guard 0x00 (replicate 255 0));
      [reflexivity | reflexivity | reflexivity].
  - apply (build_packet_length_guard 0x05 [0x0A]);
      [reflexivity | reflexivity | vm_compute; discriminate].
Defined.

(** ** Round trip through the parser *)

(** C7: for every command byte and every payload the builder accepts,
    parsing the built frame succeeds and gives back the command and the
    payload. *)
Theorem parse_build_roundtrip (cmd : Z) (data : bytes) :
  is_byte cmd = true ->
  all_bytes data = true ->
  py_len data <= 254 ->
  exists frame,
    _build_packet cmd data = Ok frame
    /\ parse_frame frame = inl (mkFrame cmd data).
Proof.
  intros Hc Hd Hl. eexists. split; [now apply _build_packet_ok|].
  pose proof (py_len_nonneg data) as Hn.
  unfold HEADER, FOOTER. cbn [app parse_frame].
  change ((85 =? 0x55) && (170 =? 0xAA)) with true. cbn [negb].
  assert (Hlt : (1 + py_len data <? 1) = false) by (apply Z.ltb_ge; lia).
  rewrite Hlt. cbn [orb].
  assert (Hrest : py_len (cmd :: data ++ [checksum_of cmd data; 90])
                  = 1 + py_len data + 2).
  { unfold py_len. cbn [length]. rewrite length_app. cbn [length]. lia. }
  rewrite Hrest, Z.ltb_irrefl.
  assert (Hnat : Z.to_nat (1 + py_len data) = S (length data))
    by (unfold py_len; lia).
  rewrite Hnat. cbn [take drop].
  rewrite take_app_length, drop_app_length.
  change (90 =? 0x5A) with true. cbn [negb].
  rewrite checksum_of_eq, land_0xFF, py_sum_cons.
  replace (257 - (1 + py_len data) - (cmd + py_sum data))
    with (257 - (1 + py_len data) - cmd - py_sum data) by lia.
  now rewrite Z.eqb_refl.
Qed.

Lemma parse_build_roundtrip_witness :
  exists frame,
    _build_packet 0x05 [0x0A] = Ok frame
    /\ parse_frame frame = inl (mkFrame 0x05 [0x0A]).
Proof.
  apply (parse_build_roundtrip 0x05 [0x0A]);
    [reflexivity | reflexivity | vm_compute; discriminate].
Defined.

(** The other half of the frame invariant on an example: a frame with a
    wrong checksum, header or footer is rejected. *)
Example parse_frame_rejects :
  parse_frame [0x55; 0xAA; 0x01; 0x47; 0xB8; 0x5A] = inr ChecksumMismatch
  /\ parse_frame [0x54; 0xAA; 0x01; 0x47; 0xB9; 0x5A] = inr BadHeader
  /\ parse_frame [0x55; 0xAA; 0x01; 0x47; 0xB9; 0x5B] = inr BadFooter
  /\ parse_frame [0x55; 0xAA; 0x01; 0x47; 0xB9] = inr Truncated.
Proof. repeat split. Qed.

(** ** Known frames *)

(** Every literal of the catalog is a well-formed hexadecimal string. *)
Lemma catalog_literals_parse :
  Forall (fun s => is_ok (bytes_fromhex s) = true)
    [ "55AA0147B95A"; "55AA04071001E55A"; "55AA04071000E65A"; "55AA0108F85A";
      "55AA01A15F5A"; "55AA0151AF5A";
      "55AA020201FC5A"; "55AA020202FB5A"; "55AA020203FA5A"; "55AA020204F95A";
      "55AA020205F85A";
      "55AA020301FB5A"; "55AA020300FC5A"; "55AA020401FA5A"; "55AA020400FB5A";
      "55AA020501F95A"; "55AA020502F85A"; "55AA020503F75A"; "55AA020504F65A";
      "55AA020505F55A"; "55AA020506F45A"; "55AA020507F35A"; "55AA020508F25A";
      "55AA020509F15A"; "55AA02050AF05A";
      "55AA020600F95A"; "55AA02061EDB5A"; "55AA02063CBB5A"; "55AA0206787B5A";
      "55AA0206B43B5A" ]%string.
Proof. repeat constructor. Qed.

(** The frames without payload and the intensity frames of the catalog are
    what the builder returns for their command and payload. *)
Lemma catalog_frames_built :
  _build_packet 0x08 [] = Ok (fromhex "55AA0108F85A")
  /\ _build_packet 0x47 [] = Ok (fromhex "55AA0147B95A")
  /\ _build_packet CMD_INIT [] = Ok PACKET_INIT
  /\ _build_packet CMD_GET_STATUS [] = Ok PACKET_GET_STATUS
  /\ _build_packet CMD_KEEPALIVE [] = Ok PACKET_KEEPALIVE
  /\ (forall level, 1 <= level <= 10 ->
        exists frame, INTENSITY_PACKETS !! level = Some frame
                      /\ _build_packet CMD_INTENSITY [level] = Ok frame)
  /\ INTENSITY_PACKETS !! 10 = Some (fromhex "55AA02050AF05A").
Proof.
  repeat split; try reflexivity.
  intros level Hl.
  assert (level = 1 \/ level = 2 \/ level = 3 \/ level = 4 \/ level = 5 \/
          level = 6 \/ level = 7 \/ level = 8 \/ level = 9 \/ level = 10)
    as Hcases by lia.
  repeat (destruct Hcases as [-> | Hcases]); try subst level;
    (eexists; split; [vm_compute; reflexivity | reflexivity]).
Qed.

(** C2 at the power frames: for command 0x07 and payload 10 01 00 (what
    [power_on] passes) the builder returns the nine bytes
    55 AA 04 07 10 01 00 E5 5A, not the eight bytes 55AA04071001E55A that the
    catalog and the captured frames record for power-on; likewise for
    power-off; and no payload at all makes the builder return the catalog's
    power frames, whose length byte 04 announces one byte more than they
    carry (the parser rejects them as truncated). *)
Theorem power_frames_differ :
  _build_packet 0x07 [0x10; 0x01; 0x00]
    = Ok [0x55; 0xAA; 0x04; 0x07; 0x10; 0x01; 0x00; 0xE5; 0x5A]
  /\ fromhex "55AA04071001E55A" = [0x55; 0xAA; 0x04; 0x07; 0x10; 0x01; 0xE5; 0x5A]
  /\ _build_packet 0x07 [0x10; 0x01; 0x00] <> Ok (fromhex "55AA04071001E55A")
  /\ _build_packet 0x07 [0x10; 0x00; 0x00]
    = Ok [0x55; 0xAA; 0x04; 0x07; 0x10; 0x00; 0x00; 0xE6; 0x5A]
  /\ _build_packet 0x07 [0x10; 0x00; 0x00] <> Ok (fromhex "55AA04071000E65A")
  /\ power_on_packet PowerMode.MODE_10 <> Ok PACKET_POWER_ON
  /\ power_on_packet PowerMode.MODE_10 <> Ok KNOWN_SAFE_PACKETS.power_on_mode10
  /\ power_off_packet PowerMode.MODE_10 <> Ok PACKET_POWER_OFF
  /\ (forall data, build_packet CMD_POWER data <> Ok PACKET_POWER_ON)
  /\ (forall data, build_packet CMD_POWER data <> Ok PACKET_POWER_OFF)
  /\ parse_frame PACKET_POWER_ON = inr Truncated.
Proof.
  assert (Hno : forall data tail,
             length tail = 5%nat ->
             build_packet CMD_POWER data
               <> Ok (0x55 :: 0xAA :: 0x04 :: tail)).
  { intros data tail Htail Hb.
    rewrite build_packet_agree in Hb. unfold _build_packet, bytes_of in Hb.
    destruct (all_bytes [1 + py_len data; CMD_POWER]); [|discriminate].
    destruct (all_bytes [_]); [|discriminate].
    injection Hb as Hlen Hrest.
    apply (f_equal (@length Z)) in Hrest.
    rewrite Htail in Hrest. cbn [length] in Hrest.
    rewrite length_app in Hrest. unfold FOOTER in Hrest. cbn [length] in Hrest.
    unfold py_len in Hlen. lia. }
  repeat split; try reflexivity; try (vm_compute; discriminate).
  - intros data. apply (Hno data [0x07; 0x10; 0x01; 0xE5; 0x5A]). reflexivity.
  - intros data. apply (Hno data [0x07; 0x10; 0x00; 0xE6; 0x5A]). reflexivity.
Qed.

(** ** Schedule payload *)

Lemma shiftr_8 (x : Z) : Z.shiftr x 8 = x / 256.
Proof. now rewrite Z.shiftr_div_pow2 by lia. Qed.

(** Setting bit 7 of a 7-bit mask adds 128. *)
Lemma lor_0x80 (d : Z) : 0 <= d < 128 -> Z.lor d 0x80 = d + 128.
Proof.
  intros Hd.
  assert (Hland : Z.land d 0x80 = 0).
  { apply Z.bits_inj'. intros n Hn.
    rewrite Z.land_spec, Z.bits_0.
    change 0x80 with (2 ^ 7). rewrite Z.pow2_bits_eqb by lia.
    destruct (Z.eqb_spec 7 n) as [<-|]; [|apply andb_false_r].
    rewrite andb_true_r. apply Z.testbit_false; [lia|].
    now rewrite Z.div_small. }
  rewrite <- Z.lxor_lor by exact Hland.
  symmetry. now apply Z.add_nocarry_lxor.
Qed.

Lemma le16_split (x : Z) :
  0 <= x < 65536 ->
  0 <= x `mod` 256 < 256 /\ 0 <= x / 256 < 256
  /\ (x / 256) `mod` 256 = x / 256
  /\ x `mod` 256 + 256 * (x / 256) = x.
Proof.
  intros Hx.
  pose proof (Z.mod_pos_bound x 256).
  pose proof (Z.div_mod x 256).
  assert (0 <= x / 256 < 256).
  { split; [apply Z.div_pos; lia | apply Z.div_lt_upper_bound; lia]. }
  repeat split; try lia. apply Z.mod_small. lia.
Qed.

(** C8: for a schedule with mode index 0..4, hours 0..23, minutes 0..59,
    16-bit run and stop times and a 7-bit day mask, the encoder returns the
    sixteen bytes [mode_index, flags, days byte, 0, start_lo, start_hi,
    end_lo, end_hi, run_lo, run_hi, stop_lo, stop_hi, 0, 0, 0, 0]: flags is
    3 when enabled and 2 otherwise; bit 7 of the days byte is set exactly
    when enabled and its low seven bits are the day mask; each lo/hi pair is
    the little-endian 16-bit encoding of start_hour*60+start_minute,
    end_hour*60+end_minute, run time and stop time. *)
Theorem set_schedule_data_layout (s : DiffuserSchedule) :
  0 <= mode_index s <= 4 ->
  0 <= start_hour s <= 23 -> 0 <= start_minute s <= 59 ->
  0 <= end_hour s <= 23 -> 0 <= end_minute s <= 59 ->
  0 <= run_time_sec s < 65536 -> 0 <= stop_time_sec s < 65536 ->
  0 <= days s < 128 ->
  exists flags daysb start_lo start_hi end_lo end_hi run_lo run_hi stop_lo stop_hi,
    set_schedule_data s =
      Ok [ mode_index s; flags; daysb; 0x00; start_lo; start_hi; end_lo; end_hi;
           run_lo; run_hi; stop_lo; stop_hi; 0; 0; 0; 0 ]
    /\ flags = (if enabled s then 0x03 else 0x02)
    /\ 0 <= daysb < 256
    /\ Z.testbit daysb 7 = enabled s
    /\ daysb `mod` 128 = days s
    /\ (0 <= start_lo < 256 /\ 0 <= start_hi < 256
        /\ start_lo + 256 * start_hi = start_hour s * 60 + start_minute s)
    /\ (0 <= end_lo < 256 /\ 0 <= end_hi < 256
        /\ end_lo + 256 * end_hi = end_hour s * 60 + end_minute s)
    /\ (0 <= run_lo < 256 /\ 0 <= run_hi < 256
        /\ run_lo + 256 * run_hi = run_time_sec s)
    /\ (0 <= stop_lo < 256 /\ 0 <= stop_hi < 256
        /\ stop_lo + 256 * stop_hi = stop_time_sec s).
Proof.
  intros Hm Hsh Hsm Heh Hem Hr Hst Hd.
  set (start := start_hour s * 60 + start_minute s).
  set (stop := end_hour s * 60 + end_minute s).
  assert (Hstart : 0 <= start < 65536) by (subst start; lia).
  assert (Hstop : 0 <= stop < 65536) by (subst stop; lia).
  destruct (le16_split _ Hstart) as (Ha1 & Ha2 & Ha3 & Ha4).
  destruct (le16_split _ Hstop) as (Hb1 & Hb2 & Hb3 & Hb4).
  destruct (le16_split _ Hr) as (Hc1 & Hc2 & Hc3 & Hc4).
  destruct (le16_split _ Hst) as (Hd1 & Hd2 & Hd3 & Hd4).
  set (daysb := days s + (if enabled s then 128 else 0)).
  assert (Hlor : Z.lor (days s) (if enabled s then 0x80 else 0x00) = daysb).
  { subst daysb. destruct (enabled s).
    - now apply lor_0x80.
    - rewrite Z.lor_0_r. lia. }
  exists (if enabled s then 0x03 else 0x02), daysb,
    (start `mod` 256), (start / 256), (stop `mod` 256), (stop / 256),
    (run_time_sec s `mod` 256), (run_time_sec s / 256),
    (stop_time_sec s `mod` 256), (stop_time_sec s / 256).
  split.
  { unfold set_schedule_data, start_minutes_from_midnight,
      end_minutes_from_midnight. fold start. fold stop.
    rewrite Hlor, !land_0xFF, !shiftr_8, Ha3, Hb3, Hc3, Hd3.
    apply bytes_of_ok. unfold all_bytes. cbn [forallb].
    repeat (rewrite (proj2 (is_byte_spec _));
            [| first [assumption | subst daysb; destruct (enabled s); lia]]).
    reflexivity. }
  split; [reflexivity|].
  split; [subst daysb; destruct (enabled s); lia|].
  split.
  { subst daysb. destruct (enabled s).
    - apply Z.testbit_true; [lia|].
      replace ((days s + 128) / 2 ^ 7) with 1; [reflexivity|].
      apply Z.div_unique with (r := days s); lia.
    - apply Z.testbit_false; [lia|].
      rewrite Z.add_0_r, Z.div_small by lia. reflexivity. }
  split.
  { subst daysb. destruct (enabled s).
    - replace (days s + 128) with (days s + 1 * 128) by lia.
      rewrite Z_mod_plus_full. apply Z.mod_small. lia.
    - rewrite Z.add_0_r. apply Z.mod_small. lia. }
  repeat split; lia.
Qed.

Lemma set_schedule_data_layout_witness :
  set_schedule_data (mkSchedule 2 true 8 30 17 45 300 900 0x1F)
  = Ok [2; 0x03; 0x9F; 0x00; 0xFE; 0x01; 0x29; 0x04; 0x2C; 0x01; 0x84; 0x03;
        0; 0; 0; 0].
Proof.
  destruct (set_schedule_data_layout (mkSchedule 2 true 8 30 17 45 300 900 0x1F))
    as (fl & db & a & b & c & d & e & f & g & h & Heq & _);
    cbn; try lia.
  reflexivity.
Defined.

(** ** Address canonicalization *)

Lemma upper_hex (c : ascii) : is_hex c = true -> is_upper_hex (upper_ascii c) = true.
Proof.
  destruct c as [[] [] [] [] [] [] [] []]; intros H; vm_compute in H;
    first [discriminate H | vm_compute; reflexivity].
Qed.

Lemma hex_not_colon (c : ascii) : is_hex c = true -> c <> ":"%char.
Proof. intros H ->. vm_compute in H. discriminate H. Qed.

Lemma upper_hex_fixed (c : ascii) : is_upper_hex c = true -> upper_ascii c = c.
Proof.
  destruct c as [[] [] [] [] [] [] [] []]; intros H; vm_compute in H;
    first [discriminate H | vm_compute; reflexivity].
Qed.

Lemma contains_char_cons (c d : ascii) (s : string) :
  contains_char c (String d s) = bool_decide (d = c) || contains_char c s.
Proof.
  cbn [contains_char]. destruct (decide (d = c)) as [Heq|Hne].
  - now rewrite bool_decide_eq_true_2.
  - now rewrite bool_decide_eq_false_2.
Qed.

(** An address with a colon is passed through as it is. *)
Lemma canonical_address_colon (s : string) :
  contains_char ":" s = true -> canonical_address s = s.
Proof. unfold canonical_address. now intros ->. Qed.

(** C9, as stated, fails: a colon-delimited address in lower case is
    accepted and passed on unchanged, so the result is not in upper case. *)
Lemma lowercase_colon_address_kept :
  is_colon_mac "e4:66:e5:69:91:81" = true
  /\ canonical_address "e4:66:e5:69:91:81" = "e4:66:e5:69:91:81"%string
  /\ is_upper_colon_mac (canonical_address "e4:66:e5:69:91:81") = false.
Proof. repeat split. Qed.

Lemma upper_hex_upper (c : ascii) :
  is_hex c = true -> upper_ascii c <> ":"%char.
Proof.
  destruct c as [[] [] [] [] [] [] [] []]; intros H; vm_compute in H;
    first [discriminate H | vm_compute; discriminate].
Qed.

Lemma replace_char_cons_ne (old c : ascii) (new s : string) :
  c <> old ->
  replace_char old new (String c s) = String c (replace_char old new s).
Proof. intros Hne. cbn [replace_char]. now destruct (decide (c = old)). Qed.

Lemma replace_char_cons_eq (old : ascii) (new s : string) :
  replace_char old new (String old s) = (new +:+ replace_char old new s)%string.
Proof. cbn [replace_char]. now destruct (decide (old = old)). Qed.

(** What [canonical_address] makes of twelve hexadecimal digits: the same
    digits in the same order, in upper case, with a colon after every
    second one but the last. *)
Lemma canonical_address_bare (c0 c1 c2 c3 c4 c5 c6 c7 c8 c9 c10 c11 : ascii) :
  forallb is_hex [c0; c1; c2; c3; c4; c5; c6; c7; c8; c9; c10; c11] = true ->
  canonical_address
    (String c0 (String c1 (String c2 (String c3 (String c4 (String c5
    (String c6 (String c7 (String c8 (String c9 (String c10 (String c11
     EmptyString))))))))))))
  = String (upper_ascii c0) (String (upper_ascii c1) (String ":"
    (String (upper_ascii c2) (String (upper_ascii c3) (String ":"
    (String (upper_ascii c4) (String (upper_ascii c5) (String ":"
    (String (upper_ascii c6) (String (upper_ascii c7) (String ":"
    (String (upper_ascii c8) (String (upper_ascii c9) (String ":"
    (String (upper_ascii c10) (String (upper_ascii c11)
     EmptyString)))))))))))))))).
Proof.
  intros Hhex. cbn [forallb] in Hhex.
  repeat (apply andb_true_iff in Hhex as [?H Hhex]). clear Hhex.
  unfold canonical_address. rewrite !contains_char_cons.
  repeat (rewrite (bool_decide_eq_false_2 (_ = ":"%char))
            by (now apply hex_not_colon)).
  cbn [contains_char orb negb map slice String.substring upper join
       String.concat].
  cbv [String.append]. reflexivity.
Qed.

(** C9, amended: a bare address of twelve hexadecimal digits becomes the
    upper-case colon-delimited form XX:XX:XX:XX:XX:XX of the same address:
    the result has that form, and without its colons it is the input in
    upper case, digit by digit in the same order. An address that contains
    a colon is used as it is, so an address already in upper-case
    colon-delimited form is accepted and unchanged. *)
Theorem canonical_address_spec (s : string) :
  (is_bare_mac s = true ->
     is_upper_colon_mac (canonical_address s) = true
     /\ replace_char ":" "" (canonical_address s) = upper s)
  /\ (is_colon_mac s = true -> canonical_address s = s)
  /\ (is_upper_colon_mac s = true ->
        canonical_address s = s /\ is_upper_colon_mac (canonical_address s) = true).
Proof.
  assert (Hcolon : is_colon_mac s = true -> canonical_address s = s).
  { intros H. apply canonical_address_colon.
    do 3 (destruct s as [|? s]; [discriminate H|]).
    unfold is_colon_mac in H.
    do 14 (destruct s as [|? s]; [discriminate H|]).
    destruct s; [|discriminate H].
    apply andb_true_iff in H as [_ H]. cbn [forallb] in H.
    apply andb_true_iff in H as [H _]. apply bool_decide_eq_true in H. subst.
    rewrite !contains_char_cons.
    rewrite (bool_decide_eq_true_2 (":"%char = ":"%char)) by reflexivity.
    now rewrite !orb_true_r. }
  split; [|split; [exact Hcolon|]].
  - unfold is_bare_mac. intros H. apply andb_true_iff in H as [Hlen Hhex].
    do 12 (destruct s as [|? s]; [discriminate Hlen|]).
    destruct s; [|discriminate Hlen]. clear Hlen.
    cbn [all_chars] in Hhex.
    rewrite canonical_address_bare
      by (cbn [forallb]; exact Hhex).
    repeat (apply andb_true_iff in Hhex as [?H Hhex]). clear Hhex.
    split.
    + cbv [is_upper_colon_mac]. cbn [forallb].
      rewrite !upper_hex by assumption. reflexivity.
    + repeat first [ rewrite replace_char_cons_eq
                   | rewrite replace_char_cons_ne by (now apply upper_hex_upper) ].
      cbn [replace_char]. cbv [String.append]. reflexivity.
  - intros H.
    assert (Hc : is_colon_mac s = true).
    { do 17 (destruct s as [|? s]; [discriminate H|]).
      destruct s; [|discriminate H].
      unfold is_upper_colon_mac in H. unfold is_colon_mac.
      apply andb_true_iff in H as [Hx Hc]. rewrite Hc, andb_true_r.
      cbn [forallb] in *.
      repeat (apply andb_true_iff in Hx as [?H Hx]). clear Hx.
      repeat match goal with
             | Hu : is_upper_hex ?c = true |- _ =>
                 assert (is_hex c = true) as ->
                   by (unfold is_hex; unfold is_upper_hex in Hu; now rewrite Hu);
                 clear Hu
             end.
      reflexivity. }
    rewrite (Hcolon Hc). split; [reflexivity | exact H].
Qed.

Lemma canonical_address_spec_witness :
  (is_upper_colon_mac (canonical_address "e466e5699181") = true
   /\ replace_char ":" "" (canonical_address "e466e5699181")
      = "E466E5699181"%string)
  /\ canonical_address "E4:66:E5:69:91:81" = "E4:66:E5:69:91:81"%string.
Proof.
  split.
  - apply (proj1 (canonical_address_spec "e466e5699181")). reflexivity.
  - apply (proj1 (proj2 (canonical_address_spec "E4:66:E5:69:91:81"))).
    reflexivity.
Defined.

(** ** The device session *)

Ltac unfold_session :=
  unfold send_command, with_lock, with_BleakClient, write_gatt_char, sleep,
    try_except, finally, bind, lift, get_dev, modify_dev, emit,
    transport_call, ret, raise.

Lemma set__available_unlocked (ok : bool) (d : XEITINBLEDevice) :
  _lock d = false ->
  set__lock false (set__available ok (set__lock true d)) = set__available ok d.
Proof. destruct d. cbn. now intros ->. Qed.

Lemma transport_errors_only_cons (f : option exn) (fs : list (option exn)) :
  transport_errors_only (f :: fs) = true ->
  (f = None \/ f = Some BleakError) /\ transport_errors_only fs = true.
Proof.
  cbn. intros H. apply andb_true_iff in H as [Hf Hfs]. split; [|exact Hfs].
  destruct f as [e|]; [right | now left].
  apply bool_decide_eq_true in Hf. now subst.
Qed.

Ltac session_shape Hd ok calls :=
  exists ok, calls; eexists;
  split; [rewrite <- (Hd ok); cbn; reflexivity|];
  split; [first [assumption | reflexivity]|];
  split; [reflexivity|];
  split; [intros Hok; first [discriminate Hok | reflexivity]|];
  intros Hok; first [discriminate Hok | set_solver].

(** One [send_command], run on a free lock against a transport that fails
    with transport errors only. *)
Lemma send_command_run (packet : bytes) (wait_response : bool) (w : World) :
  _lock (dev w) = false ->
  transport_errors_only (faults w) = true ->
  exists (ok : bool) (calls : list event) (rest : list (option exn)),
    send_command packet wait_response w
      = (Ret ok,
         mkWorld (set__available ok (dev w))
                 (log w ++ [LockAcquire] ++ calls ++ [LockRelease])
                 rest)
    /\ transport_errors_only rest = true
    /\ ok = session_clean (faults w)
    /\ (ok = true -> calls = session_complete (_address (dev w)) packet)
    /\ (ok = false -> calls ∈ sessions_failed (_address (dev w)) packet).
Proof.
  destruct w as [d lg fs]. cbn [dev log faults]. intros Hlock Hfs.
  unfold_session. cbn [dev log faults]. rewrite Hlock.
  cbn [dev log faults fst snd _lock set__lock].
  assert (Hd : forall ok,
             set__lock false (set__available ok (set__lock true d))
             = set__available ok d)
    by (intros; now apply set__available_unlocked).
  unfold session_complete, sessions_failed.
  do 4 (try match goal with
            | H : transport_errors_only ?l = true |- _ =>
                is_var l; destruct l as [|? l];
                [| apply transport_errors_only_cons in H as [[-> | ->] H]]
            end);
    cbn;
    rewrite ?(bool_decide_eq_true_2 (BleakError = BleakError)) by reflexivity;
    cbn; rewrite <- ?app_assoc; cbn [app];
    first
      [ solve [session_shape Hd true
                 [Connect (_address d);
                  WriteGattChar CHARACTERISTIC_UUID PACKET_INIT; Sleep 300;
                  WriteGattChar CHARACTERISTIC_UUID packet; Sleep 200;
                  Disconnect]]
      | solve [session_shape Hd false [Connect (_address d)]]
      | solve [session_shape Hd false
                 [Connect (_address d);
                  WriteGattChar CHARACTERISTIC_UUID PACKET_INIT; Disconnect]]
      | solve [session_shape Hd false
                 [Connect (_address d);
                  WriteGattChar CHARACTERISTIC_UUID PACKET_INIT; Sleep 300;
                  WriteGattChar CHARACTERISTIC_UUID packet; Disconnect]]
      | solve [session_shape Hd false
                 [Connect (_address d);
                  WriteGattChar CHARACTERISTIC_UUID PACKET_INIT; Sleep 300;
                  WriteGattChar CHARACTERISTIC_UUID packet; Sleep 200;
                  Disconnect]] ].
Qed.

(** The sessions over a transport whose failures are all [BleakError], the
    class that [send_command] handles: started with the lock free, the call
    takes the lock, opens a connection to the device's address, writes the
    INIT frame first and the requested frame second, closes the connection
    and releases the lock. It returns, and the returned flag is the new
    [available]; the flag is [true] exactly when connect, both writes and
    disconnect complete without error, and then the session is the complete
    one. Otherwise it is one of the four failed sessions: each connects
    once, writes each frame at most once (no retry), never writes the
    requested frame before INIT, and closes every connection it opened.
    The cache and the lock state are as before the call. *)
Theorem send_command_session (packet : bytes) (wait_response : bool) (w : World) :
  _lock (dev w) = false ->
  transport_errors_only (faults w) = true ->
  exists (ok : bool) (calls : list event),
    let w' := snd (send_command packet wait_response w) in
    fst (send_command packet wait_response w) = Ret ok
    /\ _available (dev w') = ok
    /\ _lock (dev w') = false
    /\ _address (dev w') = _address (dev w)
    /\ cache (dev w') = cache (dev w)
    /\ log w' = log w ++ [LockAcquire] ++ calls ++ [LockRelease]
    /\ (ok = true <-> session_clean (faults w) = true)
    /\ (ok = true -> calls = session_complete (_address (dev w)) packet)
    /\ (ok = false -> calls ∈ sessions_failed (_address (dev w)) packet).
Proof.
  intros Hlock Hfs.
  destruct (send_command_run packet wait_response w Hlock Hfs)
    as (ok & calls & rest & Hrun & _ & Hok & Hgood & Hbad).
  exists ok, calls. cbn zeta. rewrite Hrun. cbn [fst snd dev log].
  split; [reflexivity|].
  split; [now destruct (dev w)|].
  split; [destruct (dev w); exact Hlock|].
  split; [now destruct (dev w)|].
  split; [now destruct (dev w)|].
  split; [reflexivity|].
  split; [rewrite Hok; tauto|].
  split; assumption.
Qed.

Lemma send_command_session_witness :
  let w := fresh_world "E4:66:E5:69:91:81" [None; None; Some BleakError] in
  exists (ok : bool) (calls : list event),
    fst (send_command PACKET_POWER_ON false w) = Ret ok
    /\ log (snd (send_command PACKET_POWER_ON false w))
       = log w ++ [LockAcquire] ++ calls ++ [LockRelease].
Proof.
  intros w.
  destruct (send_command_session PACKET_POWER_ON false w)
    as (ok & calls & Hret & _ & _ & _ & _ & Hlog & _);
    [reflexivity | reflexivity |].
  exists ok, calls. split; [exact Hret | exact Hlog].
Defined.

(** What the hypothesis on the transport is for: [send_command] handles
    [BleakError] only, and an exception of another class leaves it, after
    the connection is closed and the lock released, with [available] as it
    was. *)
Example send_command_other_exception :
  let w := fresh_world "E4:66:E5:69:91:81" [None; Some OtherError] in
  fst (send_command PACKET_POWER_ON false w) = Raise OtherError
  /\ dev (snd (send_command PACKET_POWER_ON false w)) = dev w
  /\ log (snd (send_command PACKET_POWER_ON false w))
     = [LockAcquire; Connect "E4:66:E5:69:91:81";
        WriteGattChar CHARACTERISTIC_UUID PACKET_INIT; Disconnect; LockRelease].
Proof. repeat split. Qed.

(** The gate: called while the lock is held, [send_command] waits; it
    makes no transport call and changes nothing. *)
Lemma send_command_waits_for_lock (packet : bytes) (wait_response : bool)
      (w : World) :
  _lock (dev w) = true -> send_command packet wait_response w = (Blocked, w).
Proof.
  intros Hlock. unfold send_command, with_lock, bind, get_dev.
  now rewrite Hlock.
Qed.

(** Both writes complete and closing the connection raises [BleakError]:
    the call returns [False] and [available] becomes false. *)
Example send_command_close_failure :
  let w := fresh_world "E4:66:E5:69:91:81" [None; None; None; Some BleakError] in
  fst (send_command PACKET_POWER_ON false w) = Ret false
  /\ _available (dev (snd (send_command PACKET_POWER_ON false w))) = false
  /\ log (snd (send_command PACKET_POWER_ON false w))
     = [LockAcquire] ++ session_complete "E4:66:E5:69:91:81" PACKET_POWER_ON
       ++ [LockRelease].
Proof. repeat split. Qed.

(** A session in which one transport call (call number [n], counted from
    0: the connect, the INIT write, the requested write or the disconnect)
    raises an exception that is no [BleakError]; the disconnect that
    follows a failed write succeeds. *)
Lemma send_command_raises (packet : bytes) (wait_response : bool) (w : World)
      (e : exn) (n : nat) (rest : list (option exn)) :
  _lock (dev w) = false ->
  e <> BleakError ->
  (n <= 3)%nat ->
  faults w = replicate n None ++ Some e :: None :: rest ->
  fst (send_command packet wait_response w) = Raise e
  /\ dev (snd (send_command packet wait_response w)) = dev w
  /\ exists calls,
       log (snd (send_command packet wait_response w))
       = log w ++ [LockAcquire] ++ calls ++ [LockRelease]
       /\ calls ∈ sessions_failed (_address (dev w)) packet.
Proof.
  destruct w as [d lg fs]. cbn [dev log faults]. intros Hlock Hne Hn ->.
  assert (Hd : set__lock false (set__lock true d) = d)
    by (destruct d; cbn in *; now subst).
  assert (Hi : bool_decide (e = BleakError) = false)
    by now apply bool_decide_eq_false_2.
  unfold sessions_failed.
  assert (Hin0 : forall (x y z u : list event), x ∈ [x; y; z; u])
    by (intros; apply list_elem_of_here).
  assert (Hin1 : forall (x y z u : list event), y ∈ [x; y; z; u])
    by (intros; apply list_elem_of_further, list_elem_of_here).
  assert (Hin2 : forall (x y z u : list event), z ∈ [x; y; z; u])
    by (intros; do 2 apply list_elem_of_further; apply list_elem_of_here).
  assert (Hin3 : forall (x y z u : list event), u ∈ [x; y; z; u])
    by (intros; do 3 apply list_elem_of_further; apply list_elem_of_here).
  destruct n as [|[|[|[|n]]]]; [| | | |lia];
    unfold_session; cbn [dev log faults]; rewrite Hlock;
    cbn; rewrite Hi; cbn; rewrite Hd, <- ?app_assoc; cbn [app];
    (split; [reflexivity|]); (split; [reflexivity|]).
  - exists [Connect (_address d)]. split; [reflexivity | apply Hin0].
  - exists [Connect (_address d);
            WriteGattChar CHARACTERISTIC_UUID PACKET_INIT; Disconnect].
    split; [reflexivity | apply Hin1].
  - exists [Connect (_address d);
            WriteGattChar CHARACTERISTIC_UUID PACKET_INIT; Sleep 300;
            WriteGattChar CHARACTERISTIC_UUID packet; Disconnect].
    split; [reflexivity | apply Hin2].
  - exists [Connect (_address d);
            WriteGattChar CHARACTERISTIC_UUID PACKET_INIT; Sleep 300;
            WriteGattChar CHARACTERISTIC_UUID packet; Sleep 200; Disconnect].
    split; [reflexivity | apply Hin3].
Qed.

(** C5: the session boundary does not catch every transport failure. When
    a transport call of a session (the connect, the INIT write, the
    requested write or the disconnect) raises an exception [e] that is no
    [BleakError], [send_command] returns no flag: [e] leaves it, after the
    connection was closed and the lock released, and [available] is not
    set to false, the device object is as it was before the call. The
    switch entities await [send_command] without a handler of their own,
    so [e] leaves their turn-on and turn-off calls as well and reaches the
    host. *)
Theorem send_command_exception_escapes (packet : bytes) (wait_response : bool)
        (w : World) (e : exn) (n : nat) (rest : list (option exn)) :
  _lock (dev w) = false ->
  e <> BleakError ->
  (n <= 3)%nat ->
  faults w = replicate n None ++ Some e :: None :: rest ->
  (fst (send_command packet wait_response w) = Raise e
   /\ dev (snd (send_command packet wait_response w)) = dev w
   /\ exists calls,
        log (snd (send_command packet wait_response w))
        = log w ++ [LockAcquire] ++ calls ++ [LockRelease]
        /\ calls ∈ sessions_failed (_address (dev w)) packet)
  /\ (forall a,
        a ∈ [PowerOn; PowerOff; FanBoostOn; FanBoostOff]
        \/ (exists sw, a = ModeOn sw) ->
        fst (perform a w) = Raise e /\ dev (snd (perform a w)) = dev w).
Proof.
  intros Hlock Hne Hn Hf.
  split; [now apply (send_command_raises packet wait_response w e n rest)|].
  assert (Hent : forall p (k : bool -> M unit),
             fst (bind (send_command p false) k w) = Raise e
             /\ dev (snd (bind (send_command p false) k w)) = dev w).
  { intros p k.
    destruct (send_command_raises p false w e n rest Hlock Hne Hn Hf)
      as (Hr & Hd & _).
    unfold bind. destruct (send_command p false w) as [[ok| e'|] w'];
      cbn [fst snd] in Hr, Hd |- *; try discriminate Hr.
    injection Hr as ->. now split. }
  intros a [Ha | [sw ->]].
  - repeat (apply elem_of_cons in Ha as [-> | Ha];
            [cbn [perform];
             unfold XEITINPowerSwitch.async_turn_on,
               XEITINPowerSwitch.async_turn_off,
               XEITINFanBoostSwitch.async_turn_on,
               XEITINFanBoostSwitch.async_turn_off;
             apply Hent|]).
    now apply elem_of_nil in Ha.
  - cbn [perform]. unfold XEITINModeSwitch.async_turn_on. apply Hent.
Qed.

Lemma send_command_exception_escapes_witness :
  let w := fresh_world "E4:66:E5:69:91:81" [None; Some OtherError; None] in
  fst (send_command PACKET_POWER_ON false w) = Raise OtherError
  /\ _available (dev (snd (send_command PACKET_POWER_ON false w))) = true
  /\ fst (perform PowerOn w) = Raise OtherError.
Proof.
  intros w.
  destruct (send_command_exception_escapes PACKET_POWER_ON false w OtherError 1 [])
    as [(Hr & Hd & _) Hent]; [reflexivity | discriminate | lia | reflexivity |].
  split; [exact Hr|]. split; [rewrite Hd; reflexivity|].
  apply Hent. left. apply list_elem_of_here.
Defined.

(** ** What a coroutine leaves untouched *)

Section Keeps.
Context {B : Type} (proj : XEITINBLEDevice -> B).

Lemma keeps_ret {A} (a : A) : keeps proj (ret a).
Proof. now intros w. Qed.

Lemma keeps_raise {A} (e : exn) : keeps proj (@raise A e).
Proof. now intros w. Qed.

Lemma keeps_lift {A} (r : result A) : keeps proj (lift r).
Proof. destruct r; [apply keeps_ret | apply keeps_raise]. Qed.

Lemma keeps_get_dev : keeps proj get_dev.
Proof. now intros w. Qed.

Lemma keeps_emit (ev : event) : keeps proj (emit ev).
Proof. now intros w. Qed.

Lemma keeps_transport_call (ev : event) : keeps proj (transport_call ev).
Proof. intros w. unfold transport_call. now destruct (faults w) as [|[e|] fs]. Qed.

Lemma keeps_modify_dev (f : XEITINBLEDevice -> XEITINBLEDevice) :
  (forall d, proj (f d) = proj d) -> keeps proj (modify_dev f).
Proof. intros Hf w. apply Hf. Qed.

Lemma keeps_bind {A C} (m : M A) (k : A -> M C) :
  keeps proj m -> (forall a, keeps proj (k a)) -> keeps proj (bind m k).
Proof.
  intros Hm Hk w. unfold bind. specialize (Hm w).
  destruct (m w) as [[a|e|] w']; cbn [snd] in *; [|assumption..].
  now rewrite Hk.
Qed.

Lemma keeps_try_except {A} (body : M A) classes (handler : exn -> M A) :
  keeps proj body -> (forall e, keeps proj (handler e)) ->
  keeps proj (try_except body classes handler).
Proof.
  intros Hb Hh w. unfold try_except. specialize (Hb w).
  destruct (body w) as [[a|e|] w']; cbn [snd] in *; [assumption| |assumption].
  destruct (isinstance e classes); [|assumption]. now rewrite Hh.
Qed.

Lemma keeps_finally {A} (body : M A) (final : M unit) :
  keeps proj body -> keeps proj final -> keeps proj (finally body final).
Proof.
  intros Hb Hf w. unfold finally. specialize (Hb w).
  destruct (body w) as [[a|e|] w']; cbn [snd] in *; [| |assumption];
    specialize (Hf w'); destruct (final w') as [[[]|e'|] w''];
    cbn [snd] in *; congruence.
Qed.

Hypothesis proj_lock : forall b d, proj (set__lock b d) = proj d.
Hypothesis proj_available : forall b d, proj (set__available b d) = proj d.

Lemma keeps_with_lock {A} (body : M A) :
  keeps proj body -> keeps proj (with_lock body).
Proof.
  intros Hb. unfold with_lock. apply keeps_bind; [apply keeps_get_dev|].
  intros d. destruct (_lock d); [now intros w|].
  repeat first [ apply keeps_bind; [|intros ?] | apply keeps_finally
               | apply keeps_modify_dev; apply proj_lock | apply keeps_emit
               | assumption ].
Qed.

Lemma keeps_send_command (packet : bytes) (wait_response : bool) :
  keeps proj (send_command packet wait_response).
Proof.
  unfold send_command, with_BleakClient, write_gatt_char, sleep.
  apply keeps_with_lock.
  repeat first [ apply keeps_try_except; [|intros ?]
               | apply keeps_bind; [|intros ?] | apply keeps_finally
               | apply keeps_get_dev | apply keeps_transport_call
               | apply keeps_emit | apply keeps_ret
               | apply keeps_modify_dev; apply proj_available ].
Qed.
End Keeps.

(** ** Invariants of the entity calls *)

Section Invariant.
Variable I : World -> Prop.

Lemma maintains_ret {A} (a : A) : maintains I (ret a).
Proof. now intros w. Qed.

Lemma maintains_lift {A} (r : result A) : maintains I (lift r).
Proof. now destruct r; intros w. Qed.


Lemma maintains_bind {A C} (m : M A) (k : A -> M C) :
  maintains I m -> (forall a, maintains I (k a)) -> maintains I (bind m k).
Proof.
  intros Hm Hk w Hw. unfold bind. specialize (Hm w Hw).
  destruct (m w) as [[a|e|] w']; cbn [snd] in *; [|assumption..].
  now apply Hk.
Qed.

Lemma maintains_try_except {A} (body : M A) classes (handler : exn -> M A) :
  maintains I body -> (forall e, maintains I (handler e)) ->
  maintains I (try_except body classes handler).
Proof.
  intros Hb Hh w Hw. unfold try_except. specialize (Hb w Hw).
  destruct (body w) as [[a|e|] w']; cbn [snd] in *; [assumption| |assumption].
  destruct (isinstance e classes); [|assumption]. now apply Hh.
Qed.

Hypothesis I_send_command :
  forall packet wait_response, maintains I (send_command packet wait_response).
Hypothesis I_cache_write :
  forall f, cache_write f -> maintains I (modify_dev f).



End Invariant.



(** ** Cache update policy *)

Lemma py_index_not_in {A} `{EqDecision A} (l : list A) (x : A) :
  x ∉ l -> py_index l x = Err ValueError.
Proof.
  induction l as [|y l IH]; intros Hx; [reflexivity|].
  cbn [py_index]. apply not_elem_of_cons in Hx as [Hne Hx].
  destruct (decide (y = x)); [congruence|]. now rewrite IH.
Qed.

(** The switches write the cache only after a send that succeeded: when the
    session fails, the call returns, the device is marked unavailable and
    every cache field is as before. *)
Lemma switch_failed_send_keeps_cache (a : action) (w : World) :
  a ∈ [PowerOn; PowerOff; FanBoostOn; FanBoostOff] \/ (exists sw, a = ModeOn sw) ->
  session_idle w ->
  session_clean (faults w) = false ->
  fst (perform a w) = Ret tt
  /\ cache (dev (snd (perform a w))) = cache (dev w)
  /\ _available (dev (snd (perform a w))) = false.
Proof.
  intros Ha [Hlock Hfs] Hbad.
  assert (Hsend : forall packet k,
             (let* ok := send_command packet false in
              if ok : bool then k else ret tt) w
             = (Ret tt, snd (send_command packet false w))
             /\ dev (snd (send_command packet false w))
                = set__available false (dev w)).
  { intros packet k.
    destruct (send_command_run packet false w Hlock Hfs)
      as (ok & calls & rest & Hrun & _ & Hok & _).
    rewrite Hbad in Hok. subst ok. unfold bind. now rewrite Hrun. }
  assert (Hgoal : forall packet k,
             perform a w = (let* ok := send_command packet false in
                            if ok : bool then k else ret tt) w ->
             fst (perform a w) = Ret tt
             /\ cache (dev (snd (perform a w))) = cache (dev w)
             /\ _available (dev (snd (perform a w))) = false).
  { intros packet k ->. destruct (Hsend packet k) as [-> Hdev].
    cbn [fst snd]. rewrite Hdev. now destruct (dev w). }
  destruct Ha as [Ha | [sw ->]].
  - repeat (apply elem_of_cons in Ha as [-> | Ha]);
      [| | | | now apply elem_of_nil in Ha];
      eapply Hgoal; reflexivity.
  - eapply Hgoal; reflexivity.
Qed.

(** Switching a mode off writes the cache without any send. *)
Lemma mode_off_is_local (sw : XEITINModeSwitch.t) (w : World) :
  log (snd (perform (ModeOff sw) w)) = log w
  /\ faults (snd (perform (ModeOff sw) w)) = faults w.
Proof.
  cbn [perform]. unfold XEITINModeSwitch.async_turn_off, assign_mode_active.
  unfold bind, get_dev, lift, modify_dev.
  now destruct (py_setitem _ _ _).
Qed.

(** C3 at the intensity and timer entities: with a transport whose connect
    fails, [send_command] reports failure ([available] becomes false), and
    the intensity entity still writes the requested level 7 over the cached
    5, the timer entity the requested 30 minutes over the cached 0; the
    power switch, in the same world, leaves the cache as it was. *)
Theorem failed_send_updates_cache :
  let w := fresh_world "E4:66:E5:69:91:81" [Some BleakError] in
  let w_int := snd (XEITINIntensityNumber.async_set_native_value 7 w) in
  let w_tim := snd (XEITINTimerSelect.async_select_option "30 minutes" w) in
  let w_pow := snd (XEITINPowerSwitch.async_turn_on w) in
  fst (send_command PACKET_POWER_ON false w) = Ret false
  /\ (intensity (dev w) = 5 /\ _available (dev w_int) = false
      /\ intensity (dev w_int) = 7)
  /\ (timer (dev w) = 0 /\ _available (dev w_tim) = false
      /\ timer (dev w_tim) = 30)
  /\ (_available (dev w_pow) = false /\ cache (dev w_pow) = cache (dev w)).
Proof. vm_compute. repeat split. Qed.

(** ** Parameters out of range *)

Lemma clamped_level_range (value : Z) : 1 <= clamped_level value <= 10.
Proof. unfold clamped_level. lia. Qed.

(** The two comparisons of [async_set_native_value] are a clamp. *)
Lemma clamp_eq (value : Z) :
  (if value <? 1 then 1 else if value >? 10 then 10 else value)
  = clamped_level value.
Proof.
  unfold clamped_level.
  destruct (Z.ltb_spec value 1); [lia|].
  destruct (Z.gtb_spec value 10); lia.
Qed.

Lemma intensity_packet_defined (level : Z) :
  1 <= level <= 10 ->
  exists frame, INTENSITY_PACKETS !! level = Some frame
                /\ _build_packet CMD_INTENSITY [level] = Ok frame.
Proof. apply catalog_frames_built. Qed.

(** The intensity entity writes the clamped level into the cache after the
    send, whatever the send returned. *)
Lemma intensity_written_regardless (value : Z) (w : World) :
  session_idle w ->
  intensity (dev (snd (XEITINIntensityNumber.async_set_native_value value w)))
  = clamped_level value.
Proof.
  intros [Hlock Hfs].
  pose proof (clamped_level_range value) as Hrange.
  destruct (intensity_packet_defined _ Hrange) as (frame & Hframe & _).
  destruct (send_command_run frame false w Hlock Hfs)
    as (ok & calls & rest & Hrun & _).
  unfold XEITINIntensityNumber.async_set_native_value. cbv zeta.
  rewrite clamp_eq. unfold dict_contains, dict_getitem. rewrite Hframe.
  unfold lift, bind, ret. now rewrite Hrun.
Qed.

(** C4, as stated, fails: the intensity 0 is not rejected, it is clamped to
    1, the frame of level 1 goes through the transport and the cache holds
    1; likewise 11 becomes 10; and the unknown timer option is not answered
    with an exception, the call returns. *)
Lemma intensity_zero_is_clamped :
  let w := fresh_world "E4:66:E5:69:91:81" [] in
  let w0 := snd (XEITINIntensityNumber.async_set_native_value 0 w) in
  let w11 := snd (XEITINIntensityNumber.async_set_native_value 11 w) in
  fst (XEITINIntensityNumber.async_set_native_value 0 w) = Ret tt
  /\ List.filter is_transport_call (log w0)
     = [Connect "E4:66:E5:69:91:81";
        WriteGattChar CHARACTERISTIC_UUID PACKET_INIT;
        WriteGattChar CHARACTERISTIC_UUID (fromhex "55AA020501F95A");
        Disconnect]
  /\ intensity (dev w0) = 1
  /\ fst (XEITINIntensityNumber.async_set_native_value 11 w) = Ret tt
  /\ intensity (dev w11) = 10
  /\ fst (XEITINTimerSelect.async_select_option "45 minutes" w) = Ret tt
  /\ fst (XEITINModeSelect.async_select_option "Mode VI" w) = Ret tt.
Proof. vm_compute. repeat split. Qed.

(** C4, amended: an intensity outside 1..10 is clamped into the range at
    this layer (below 1 to 1, above 10 to 10) and the frame of the clamped
    level is sent: the session starts with a connect, and when it completes
    the cache holds the clamped level. A timer option or a mode option that
    is not in the fixed list is refused before any transport call: the call
    returns without an exception, and the log, the transport and the device
    are as before. *)
Theorem out_of_range_parameters (w : World) :
  (forall value,
      session_idle w ->
      exists frame calls,
        let r := XEITINIntensityNumber.async_set_native_value value w in
        INTENSITY_PACKETS !! clamped_level value = Some frame
        /\ 1 <= clamped_level value <= 10
        /\ fst r = Ret tt
        /\ log (snd r) = log w ++ [LockAcquire] ++ calls ++ [LockRelease]
        /\ head calls = Some (Connect (_address (dev w)))
        /\ (session_clean (faults w) = true ->
              calls = session_complete (_address (dev w)) frame
              /\ intensity (dev (snd r)) = clamped_level value))
  /\ (forall option,
        option ∉ TIMER_OPTIONS ->
        XEITINTimerSelect.async_select_option option w = (Ret tt, w))
  /\ (forall option,
        option ∉ MODE_OPTIONS ->
        XEITINModeSelect.async_select_option option w = (Ret tt, w)).
Proof.
  split; [|split].
  - intros value [Hlock Hfs].
    pose proof (clamped_level_range value) as Hrange.
    destruct (intensity_packet_defined _ Hrange) as (frame & Hframe & _).
    destruct (send_command_run frame false w Hlock Hfs)
      as (ok & calls & rest & Hrun & _ & Hok & Hgood & Hbad).
    exists frame, calls. cbv zeta.
    unfold XEITINIntensityNumber.async_set_native_value. cbv zeta.
    rewrite clamp_eq. unfold dict_contains, dict_getitem. rewrite Hframe.
    unfold lift, bind, ret. rewrite Hrun. cbn [fst snd log dev modify_dev].
    repeat split; try lia; try reflexivity.
    + destruct ok; [now rewrite Hgood | ].
      specialize (Hbad eq_refl). unfold sessions_failed in Hbad.
      repeat (apply elem_of_cons in Hbad as [-> | Hbad]); try reflexivity.
      now apply elem_of_nil in Hbad.
    + intros. apply Hgood. congruence.
  - intros option Hopt. unfold XEITINTimerSelect.async_select_option, try_except.
    unfold bind at 1. now rewrite (py_index_not_in _ _ Hopt).
  - intros option Hopt. unfold XEITINModeSelect.async_select_option, try_except.
    unfold bind at 1. now rewrite (py_index_not_in _ _ Hopt).
Qed.

Lemma out_of_range_parameters_witness :
  let w := fresh_world "E4:66:E5:69:91:81" [] in
  (exists frame calls,
      INTENSITY_PACKETS !! clamped_level 11 = Some frame
      /\ head calls = Some (Connect "E4:66:E5:69:91:81")
      /\ log (snd (XEITINIntensityNumber.async_set_native_value 11 w))
         = [LockAcquire] ++ calls ++ [LockRelease])
  /\ XEITINTimerSelect.async_select_option "45 minutes" w = (Ret tt, w)
  /\ XEITINModeSelect.async_select_option "Mode VI" w = (Ret tt, w).
Proof.
  intros w. destruct (out_of_range_parameters w) as (Hint & Htimer & Hmode).
  split; [|split].
  - destruct (Hint 11) as (frame & calls & Hframe & _ & _ & Hlog & Hhead & _);
      [split; reflexivity|].
    exists frame, calls. repeat split; assumption.
  - apply Htimer. unfold TIMER_OPTIONS. intros Hin.
    repeat (apply elem_of_cons in Hin as [Hin|Hin]; [discriminate Hin|]).
    exact (proj1 (elem_of_nil _) Hin).
  - apply Hmode. unfold MODE_OPTIONS. intros Hin.
    repeat (apply elem_of_cons in Hin as [Hin|Hin]; [discriminate Hin|]).
    exact (proj1 (elem_of_nil _) Hin).
Defined.

(** ** The [mode] attribute *)

Lemma py_index_in {A} `{EqDecision A} (l : list A) (x : A) :
  x ∈ l ->
  exists i, py_index l x = Ok i /\ 0 <= i < py_len l /\ py_getitem l i = Ok x.
Proof.
  induction l as [|y l IH]; intros Hx; [now apply elem_of_nil in Hx|].
  cbn [py_index]. destruct (decide (y = x)) as [->|Hne].
  - exists 0. rewrite py_len_cons. pose proof (py_len_nonneg l).
    split; [reflexivity|]. split; [lia|].
    unfold py_getitem. rewrite py_len_cons. cbn [Z.ltb Z.compare].
    replace ((0 <=? 0) && (0 <? 1 + py_len l)) with true; [reflexivity|].
    symmetry. apply andb_true_iff. split; [reflexivity | apply Z.ltb_lt; lia].
  - apply elem_of_cons in Hx as [Hx|Hx]; [congruence|].
    destruct (IH Hx) as (i & Hi & Hrange & Hget). rewrite Hi.
    exists (1 + i). pose proof (py_len_nonneg l). rewrite py_len_cons.
    split; [reflexivity|]. split; [lia|].
    unfold py_getitem in *. rewrite py_len_cons.
    destruct (Z.ltb_spec (1 + i) 0); [lia|].
    destruct (Z.ltb_spec i 0); [lia|].
    replace ((0 <=? 1 + i) && (1 + i <? 1 + py_len l)) with true
      by (symmetry; apply andb_true_iff; split;
          [apply Z.leb_le | apply Z.ltb_lt]; lia).
    replace ((0 <=? i) && (i <? py_len l)) with true in Hget
      by (symmetry; apply andb_true_iff; split;
          [apply Z.leb_le | apply Z.ltb_lt]; lia).
    replace (Z.to_nat (1 + i)) with (S (Z.to_nat i)) by lia.
    exact Hget.
Qed.










(** * Further properties *)

(** ** Frames of the codec *)

Lemma py_sum_app (l1 l2 : list Z) : py_sum (l1 ++ l2) = py_sum l1 + py_sum l2.
Proof.
  induction l1 as [|x l1 IH]; [reflexivity|].
  cbn [app]. rewrite !py_sum_cons, IH. lia.
Qed.

Lemma py_len_app {A} (l1 l2 : list A) : py_len (l1 ++ l2) = py_len l1 + py_len l2.
Proof. unfold py_len. rewrite length_app. lia. Qed.

(** What a successful build says about its arguments and its result. *)
Lemma _build_packet_inv (cmd : Z) (data frame : bytes) :
  _build_packet cmd data = Ok frame ->
  is_byte cmd = true /\ py_len data <= 254
  /\ frame = 0x55 :: 0xAA :: 1 + py_len data :: cmd
               :: data ++ [checksum_of cmd data; 0x5A].
Proof.
  intros Hb.
  assert (Hl : py_len data <= 254).
  { destruct (Z.le_gt_cases (py_len data) 254) as [|Hgt]; [assumption|].
    rewrite _build_packet_overflow in Hb by lia. discriminate Hb. }
  assert (Hc : is_byte cmd = true).
  { unfold _build_packet, bytes_of in Hb. cbn [all_bytes forallb] in Hb.
    destruct (is_byte cmd); [reflexivity|].
    rewrite andb_false_r in Hb. discriminate Hb. }
  rewrite _build_packet_ok in Hb by assumption.
  injection Hb as <-. repeat split; assumption.
Qed.

(** X1: a frame determines its command and its payload: when the builder
    returns the same frame for two calls, the commands are equal and the
    payloads are equal. This holds for the library's builder and for the
    integration's. *)
Theorem build_packet_injective (cmd cmd' : Z) (data data' frame : bytes) :
  (_build_packet cmd data = Ok frame -> _build_packet cmd' data' = Ok frame ->
   cmd = cmd' /\ data = data')
  /\ (build_packet cmd data = Ok frame -> build_packet cmd' data' = Ok frame ->
      cmd = cmd' /\ data = data').
Proof.
  assert (H : _build_packet cmd data = Ok frame ->
              _build_packet cmd' data' = Ok frame ->
              cmd = cmd' /\ data = data').
  { intros H1 H2.
    apply _build_packet_inv in H1 as (_ & _ & ->).
    apply _build_packet_inv in H2 as (_ & _ & H2).
    injection H2 as Hlen Hcmd Hrest. split; [congruence|].
    apply app_inj_1 in Hrest as [Hdata _]; [congruence|].
    unfold py_len in Hlen. lia. }
  split; [exact H|]. rewrite !build_packet_agree. exact H.
Qed.

Lemma build_packet_injective_witness :
  _build_packet 0x05 [0x0A] = Ok (fromhex "55AA02050AF05A")
  /\ (0x05 = 0x05 /\ [0x0A] = [0x0A]).
Proof.
  split; [reflexivity|].
  apply (proj1 (build_packet_injective 0x05 0x05 [0x0A] [0x0A]
                  (fromhex "55AA02050AF05A"))); reflexivity.
Defined.

Lemma mod_256_byte_eq (x y k : Z) :
  0 <= x < 256 -> 0 <= y < 256 ->
  (k - x) `mod` 256 = (k - y) `mod` 256 -> x = y.
Proof.
  intros Hx Hy Heq.
  pose proof (Z.div_mod (k - x) 256 ltac:(lia)) as H1.
  pose proof (Z.div_mod (k - y) 256 ltac:(lia)) as H2.
  rewrite Heq in H1. lia.
Qed.

(** X2: the checksum tells any single changed byte: two payloads that
    differ in one position only have different checksums, and so have two
    different command bytes with the same payload. *)
Theorem checksum_detects_byte_change (cmd x y : Z) (before after : bytes) :
  is_byte x = true -> is_byte y = true -> x <> y ->
  checksum_of cmd (before ++ x :: after) <> checksum_of cmd (before ++ y :: after)
  /\ checksum_of x before <> checksum_of y before.
Proof.
  intros Hx Hy Hne. apply is_byte_spec in Hx, Hy.
  rewrite !checksum_of_eq, !land_0xFF, !py_len_app, !py_len_cons,
    !py_sum_app, !py_sum_cons.
  split; intros Heq; apply Hne.
  - apply (mod_256_byte_eq x y
             (257 - (1 + (py_len before + (1 + py_len after))) - cmd
              - py_sum before - py_sum after)); [assumption..|].
    etransitivity; [|etransitivity; [exact Heq|]]; f_equal; lia.
  - apply (mod_256_byte_eq x y (257 - (1 + py_len before) - py_sum before));
      [assumption..|].
    etransitivity; [|etransitivity; [exact Heq|]]; f_equal; lia.
Qed.

Lemma checksum_detects_byte_change_witness :
  checksum_of 0x05 ([] ++ 0x01 :: []) <> checksum_of 0x05 ([] ++ 0x02 :: []).
Proof.
  apply (checksum_detects_byte_change 0x05 0x01 0x02 [] []);
    [reflexivity | reflexivity | discriminate].
Defined.

(** X3: the checksum does not see the order of the payload bytes: a payload
    and any rearrangement of it get the same checksum. *)
Theorem checksum_ignores_order (cmd : Z) (data data' : bytes) :
  data ≡ₚ data' -> checksum_of cmd data = checksum_of cmd data'.
Proof.
  intros Hp. rewrite !checksum_of_eq.
  assert (Hlen : py_len data = py_len data')
    by (unfold py_len; now rewrite Hp).
  assert (Hsum : py_sum data = py_sum data').
  { clear Hlen. induction Hp as [|x l l' _ IH|x y l|l l' l'' _ IH1 _ IH2].
    - reflexivity.
    - rewrite !py_sum_cons. lia.
    - rewrite !py_sum_cons. lia.
    - congruence. }
  now rewrite Hlen, Hsum.
Qed.

Lemma checksum_ignores_order_witness :
  checksum_of 0x07 [0x10; 0x01; 0x00] = checksum_of 0x07 [0x01; 0x10; 0x00].
Proof.
  apply (checksum_ignores_order 0x07 [0x10; 0x01; 0x00] [0x01; 0x10; 0x00]).
  apply perm_swap.
Defined.

(** ** More of the catalog *)

(** X4: the mode, fan boost and lock frames of the catalog, and the
    captured get-info frame, are what the builder returns for their command
    and their one-byte (or empty) payload. *)
Theorem catalog_one_byte_frames_built :
  Forall2 (fun frame v => build_packet CMD_MODE [v] = Ok frame)
          MODE_PACKETS [1; 2; 3; 4; 5]
  /\ build_packet CMD_FAN_BOOST [0x01] = Ok PACKET_FAN_BOOST_ON
  /\ build_packet CMD_FAN_BOOST [0x00] = Ok PACKET_FAN_BOOST_OFF
  /\ build_packet CMD_LOCK [0x01] = Ok PACKET_LOCK_ON
  /\ build_packet CMD_LOCK [0x00] = Ok PACKET_LOCK_OFF
  /\ _build_packet Command.GET_INFO [] = Ok KNOWN_SAFE_PACKETS.get_info
  /\ _build_packet Command.KEEPALIVE [] = Ok KNOWN_SAFE_PACKETS.keepalive.
Proof. repeat split; repeat constructor. Qed.

(** X5: the timer frames of the catalog for 0 and 30 minutes are what the
    builder returns for the timer command and the minutes as payload. The
    frames for 60, 120 and 180 minutes agree with the builder's in header,
    length, command, payload and footer, and differ from it in the checksum
    byte: with the catalog's byte, length + command + payload + checksum is
    not 1 modulo 256. *)
Theorem timer_frames_checksums :
  Forall (fun v => exists frame, TIMER_PACKETS !! v = Some frame
                                 /\ build_packet CMD_TIMER [v] = Ok frame)
         [0; 30]
  /\ Forall (fun v => exists frame built cs,
                 TIMER_PACKETS !! v = Some frame
                 /\ build_packet CMD_TIMER [v] = Ok built
                 /\ frame = [0x55; 0xAA; 0x02; CMD_TIMER; v; cs; 0x5A]
                 /\ take 5 built = take 5 frame
                 /\ drop 6 built = drop 6 frame
                 /\ built !! 5%nat <> Some cs
                 /\ (0x02 + CMD_TIMER + v + cs) `mod` 256 <> 1)
            [60; 120; 180].
Proof.
  split.
  - repeat constructor; (eexists; split; [vm_compute; reflexivity | reflexivity]).
  - repeat constructor;
      (eexists _, _, _;
       split; [vm_compute; reflexivity|];
       split; [vm_compute; reflexivity|];
       split; [reflexivity|];
       split; [reflexivity|];
       split; [reflexivity|];
       split; vm_compute; discriminate).
Qed.

(** ** Day masks *)

Lemma day_map_bits (key : string) (bit : Z) :
  day_map !! key = Some bit -> 0 <= bit <= 6.
Proof.
  intros H. apply elem_of_list_to_map_2 in H.
  repeat (apply elem_of_cons in H as [[= _ ->]|H]; [lia|]).
  now apply elem_of_nil in H.
Qed.

Lemma lor_below_pow2 (a b n : Z) :
  0 <= n -> 0 <= a < 2 ^ n -> 0 <= b < 2 ^ n -> 0 <= Z.lor a b < 2 ^ n.
Proof.
  intros Hn Ha Hb. split; [apply Z.lor_nonneg; lia|].
  destruct (Z.eq_dec (Z.lor a b) 0) as [->|Hnz]; [lia|].
  assert (0 < Z.lor a b) by (pose proof (proj2 (Z.lor_nonneg a b)); lia).
  apply Z.log2_lt_pow2; [assumption|].
  rewrite Z.log2_lor by lia.
  destruct (Z.eq_dec a 0) as [->|]; destruct (Z.eq_dec b 0) as [->|];
    cbn [Z.log2]; try (rewrite ?Z.lor_0_l, ?Z.lor_0_r in *; lia).
  - rewrite Z.max_r by apply Z.log2_nonneg. apply Z.log2_lt_pow2; lia.
  - rewrite Z.max_l by apply Z.log2_nonneg. apply Z.log2_lt_pow2; lia.
  - apply Z.max_lub_lt; apply Z.log2_lt_pow2; lia.
Qed.

Lemma days_step_range (result : Z) (day : string) :
  0 <= result < 128 -> 0 <= days_step result day < 128.
Proof.
  intros Hr. unfold days_step.
  destruct (day_map !! _) as [bit|] eqn:Hbit; [|assumption].
  apply day_map_bits in Hbit.
  apply (lor_below_pow2 _ _ 7); [lia | assumption |].
  rewrite Z.shiftl_1_l.
  split; [apply Z.pow_nonneg; lia | apply Z.pow_lt_mono_r; lia].
Qed.

(** X6: whatever the day names are (known or not, in any case, repeated or
    not), [days_from_list] returns a 7-bit mask. *)
Theorem days_from_list_range (days : list string) :
  0 <= days_from_list days < 128.
Proof.
  unfold days_from_list.
  assert (H : forall acc, 0 <= acc < 128 -> 0 <= foldl days_step acc days < 128).
  { induction days as [|day days IH]; intros acc Hacc; [exact Hacc|].
    cbn [foldl]. apply IH. now apply days_step_range. }
  apply H. lia.
Qed.

Lemma days_step_testbit (result : Z) (day : string) (k : Z) :
  Z.testbit (days_step result day) k
  = Z.testbit result k || bool_decide (day_map !! slice 0 3 (lower day) = Some k).
Proof.
  unfold days_step.
  destruct (day_map !! _) as [bit|] eqn:Hbit.
  - pose proof (day_map_bits _ _ Hbit) as Hrange.
    rewrite Z.lor_spec. f_equal.
    rewrite Z.shiftl_1_l.
    destruct (Z.ltb_spec k 0) as [Hneg|Hpos].
    + rewrite Z.testbit_neg_r by assumption.
      symmetry. apply bool_decide_eq_false. intros [= ->]. lia.
    + rewrite Z.pow2_bits_eqb by lia.
      destruct (Z.eqb_spec bit k) as [->|Hne].
      * symmetry. now apply bool_decide_eq_true.
      * symmetry. apply bool_decide_eq_false. congruence.
  - rewrite orb_false_r. reflexivity.
Qed.

(** X7: for a list of ASCII day names, bit [k] of the mask that
    [days_from_list] returns is set exactly when some name of the list, in
    lower case and cut to three letters, is the abbreviation that [day_map]
    gives position [k]; so the mask does not depend on the order of the
    names or on repetitions. *)
Theorem days_from_list_bits (days : list string) (k : Z) :
  Forall (fun day => isascii day = true) days ->
  (Z.testbit (days_from_list days) k = true
   <-> exists day, day ∈ days /\ day_map !! slice 0 3 (lower day) = Some k)
  /\ (forall days', days ≡ₚ days' -> days_from_list days' = days_from_list days).
Proof.
  intros _.
  assert (Hbits : forall names acc k,
             Z.testbit (foldl days_step acc names) k
             = Z.testbit acc k
               || existsb (fun day =>
                             bool_decide (day_map !! slice 0 3 (lower day) = Some k))
                          names).
  { clear. induction names as [|day names IH]; intros acc k; cbn [foldl existsb].
    - now rewrite orb_false_r.
    - rewrite IH, days_step_testbit. now rewrite orb_assoc. }
  split.
  - unfold days_from_list. rewrite Hbits, Z.bits_0, orb_false_l.
    rewrite existsb_exists. split.
    + intros (day & Hin & Hday). exists day.
      split; [now apply list_elem_of_In | now apply bool_decide_eq_true in Hday].
    + intros (day & Hin & Hday). exists day.
      split; [now apply list_elem_of_In | now apply bool_decide_eq_true].
  - intros days' Hp. unfold days_from_list. apply Z.bits_inj'. intros n _.
    rewrite !Hbits. f_equal.
    apply eq_true_iff_eq. rewrite !existsb_exists.
    split; intros (day & Hin & Hday); exists day; (split; [|exact Hday]);
      apply list_elem_of_In; apply list_elem_of_In in Hin;
      first [now rewrite Hp | now rewrite <- Hp].
Qed.

Lemma days_from_list_bits_witness :
  Z.testbit (days_from_list ["Monday"; "xyz"; "SUN"]%string) 6 = true
  /\ days_from_list ["SUN"; "Monday"; "xyz"]%string
     = days_from_list ["Monday"; "xyz"; "SUN"]%string.
Proof.
  destruct (days_from_list_bits ["Monday"; "xyz"; "SUN"]%string 6)
    as [Hbit Hperm]; [repeat constructor|].
  split.
  - apply Hbit. exists "SUN"%string. split; [|reflexivity].
    do 2 apply list_elem_of_further. apply list_elem_of_here.
  - apply Hperm.
    change (["Monday"; "xyz"; "SUN"]%string ≡ₚ ["SUN"]%string ++ ["Monday"; "xyz"]%string).
    apply (Permutation_app_comm ["Monday"; "xyz"]%string ["SUN"]%string).
Defined.

(** ** Time synchronisation *)

Lemma le32_split (t : Z) :
  t `mod` 256 + 256 * ((t / 256) `mod` 256)
  + 65536 * ((t / 65536) `mod` 256) + 16777216 * ((t / 16777216) `mod` 256)
  = t `mod` 4294967296.
Proof.
  replace (t / 65536) with (t / 256 / 256)
    by (rewrite Z.div_div by lia; reflexivity).
  replace (t / 16777216) with (t / 256 / 256 / 256)
    by (rewrite !Z.div_div by lia; reflexivity).
  change 4294967296 with (256 * (256 * (256 * 256))).
  rewrite (Z.rem_mul_r t 256 (256 * (256 * 256))) by lia.
  rewrite (Z.rem_mul_r (t / 256) 256 (256 * 256)) by lia.
  rewrite (Z.rem_mul_r (t / 256 / 256) 256 256) by lia.
  lia.
Qed.

(** X8: for every integer timestamp (given, or taken from the clock) the
    payload of [sync_time] is four bytes, never an error: the little-endian
    encoding of the timestamp modulo 2^32; a timestamp in 0..2^32-1 is read
    back from it unchanged. *)
Theorem sync_time_data_le32 (timestamp : option Z) (now : Z) :
  let t := match timestamp with Some t => t | None => now end in
  exists b0 b1 b2 b3,
    sync_time_data timestamp now = Ok [b0; b1; b2; b3]
    /\ all_bytes [b0; b1; b2; b3] = true
    /\ b0 + 256 * b1 + 65536 * b2 + 16777216 * b3 = t `mod` 4294967296
    /\ (0 <= t < 4294967296 ->
        b0 + 256 * b1 + 65536 * b2 + 16777216 * b3 = t).
Proof.
  intros t.
  exists (t `mod` 256), ((t / 256) `mod` 256), ((t / 65536) `mod` 256),
    ((t / 16777216) `mod` 256).
  assert (Hb : all_bytes [t `mod` 256; (t / 256) `mod` 256;
                          (t / 65536) `mod` 256; (t / 16777216) `mod` 256] = true).
  { cbn [all_bytes forallb]. now rewrite !is_byte_mod. }
  split; [|split; [exact Hb|split]].
  - unfold sync_time_data. fold t. rewrite !land_0xFF.
    rewrite !Z.shiftr_div_pow2 by lia.
    change (2 ^ 8) with 256. change (2 ^ 16) with 65536.
    change (2 ^ 24) with 16777216.
    now apply bytes_of_ok.
  - apply le32_split.
  - intros Ht. rewrite le32_split. now apply Z.mod_small.
Qed.

Lemma sync_time_data_le32_witness :
  exists b0 b1 b2 b3,
    sync_time_data (Some 1700000000) 0 = Ok [b0; b1; b2; b3]
    /\ b0 + 256 * b1 + 65536 * b2 + 16777216 * b3 = 1700000000.
Proof.
  destruct (sync_time_data_le32 (Some 1700000000) 0)
    as (b0 & b1 & b2 & b3 & Hd & _ & _ & Hback).
  exists b0, b1, b2, b3. split; [exact Hd | apply Hback; lia].
Defined.

(** ** Schedules *)

(** The payload of a schedule whose fields fit, byte by byte. *)
Lemma set_schedule_data_encodable (s : DiffuserSchedule) :
  schedule_encodable s ->
  set_schedule_data s =
    Ok [ mode_index s;
         if enabled s then 0x03 else 0x02;
         days s + (if enabled s then 128 else 0);
         0x00;
         start_minutes_from_midnight s `mod` 256;
         start_minutes_from_midnight s / 256;
         end_minutes_from_midnight s `mod` 256;
         end_minutes_from_midnight s / 256;
         run_time_sec s `mod` 256; run_time_sec s / 256;
         stop_time_sec s `mod` 256; stop_time_sec s / 256;
         0; 0; 0; 0 ].
Proof.
  intros (Hm & Hsh & Hsm & Heh & Hem & Hr & Hst & Hd).
  unfold set_schedule_data.
  set (start := start_minutes_from_midnight s).
  set (stop := end_minutes_from_midnight s).
  assert (Hstart : 0 <= start < 65536)
    by (subst start; unfold start_minutes_from_midnight; lia).
  assert (Hstop : 0 <= stop < 65536)
    by (subst stop; unfold end_minutes_from_midnight; lia).
  destruct (le16_split _ Hstart) as (Ha1 & Ha2 & Ha3 & _).
  destruct (le16_split _ Hstop) as (Hb1 & Hb2 & Hb3 & _).
  destruct (le16_split _ Hr) as (Hc1 & Hc2 & Hc3 & _).
  destruct (le16_split _ Hst) as (Hd1 & Hd2 & Hd3 & _).
  assert (Hlor : Z.lor (days s) (if enabled s then 0x80 else 0x00)
                 = days s + (if enabled s then 128 else 0)).
  { destruct (enabled s); [now apply lor_0x80 | rewrite Z.lor_0_r; lia]. }
  rewrite Hlor, !land_0xFF, !shiftr_8, Ha3, Hb3, Hc3, Hd3.
  apply bytes_of_ok. unfold all_bytes. cbn [forallb].
  repeat (rewrite (proj2 (is_byte_spec _));
          [| first [assumption | destruct (enabled s); lia]]).
  reflexivity.
Qed.

Lemma schedule_in_range_encodable (s : DiffuserSchedule) :
  schedule_in_range s -> schedule_encodable s.
Proof. unfold schedule_in_range, schedule_encodable. lia. Qed.

(** The payload of a schedule in range, byte by byte. *)
Lemma set_schedule_data_in_range (s : DiffuserSchedule) :
  schedule_in_range s ->
  set_schedule_data s =
    Ok [ mode_index s;
         if enabled s then 0x03 else 0x02;
         days s + (if enabled s then 128 else 0);
         0x00;
         start_minutes_from_midnight s `mod` 256;
         start_minutes_from_midnight s / 256;
         end_minutes_from_midnight s `mod` 256;
         end_minutes_from_midnight s / 256;
         run_time_sec s `mod` 256; run_time_sec s / 256;
         stop_time_sec s `mod` 256; stop_time_sec s / 256;
         0; 0; 0; 0 ].
Proof.
  intros H. now apply set_schedule_data_encodable, schedule_in_range_encodable.
Qed.

(** X9: the schedule encoding loses nothing: two schedules whose fields fit
    the payload (a mode index that is a byte, times of day, 16-bit run and
    stop times, a 7-bit day mask) and that have the same payload are the
    same schedule. *)
Theorem set_schedule_data_injective (s1 s2 : DiffuserSchedule) :
  schedule_encodable s1 -> schedule_encodable s2 ->
  set_schedule_data s1 = set_schedule_data s2 -> s1 = s2.
Proof.
  intros H1 H2 Heq.
  rewrite (set_schedule_data_encodable s1 H1),
    (set_schedule_data_encodable s2 H2) in Heq.
  destruct H1 as (Hm1 & Hsh1 & Hsm1 & Heh1 & Hem1 & Hr1 & Hst1 & Hd1).
  destruct H2 as (Hm2 & Hsh2 & Hsm2 & Heh2 & Hem2 & Hr2 & Hst2 & Hd2).
  unfold start_minutes_from_midnight, end_minutes_from_midnight in Heq.
  injection Heq as Emode Eflags Edays Eslo Eshi Eelo Eehi Erlo Erhi Etlo Ethi.
  assert (Een : enabled s1 = enabled s2)
    by (destruct (enabled s1), (enabled s2); congruence).
  rewrite Een in Edays.
  assert (Estart : start_hour s1 * 60 + start_minute s1
                   = start_hour s2 * 60 + start_minute s2).
  { rewrite (Z.div_mod (start_hour s1 * 60 + start_minute s1) 256) by lia.
    rewrite (Z.div_mod (start_hour s2 * 60 + start_minute s2) 256) by lia.
    congruence. }
  assert (Eend : end_hour s1 * 60 + end_minute s1
                 = end_hour s2 * 60 + end_minute s2).
  { rewrite (Z.div_mod (end_hour s1 * 60 + end_minute s1) 256) by lia.
    rewrite (Z.div_mod (end_hour s2 * 60 + end_minute s2) 256) by lia.
    congruence. }
  assert (Erun : run_time_sec s1 = run_time_sec s2).
  { rewrite (Z.div_mod (run_time_sec s1) 256) by lia.
    rewrite (Z.div_mod (run_time_sec s2) 256) by lia. congruence. }
  assert (Estop : stop_time_sec s1 = stop_time_sec s2).
  { rewrite (Z.div_mod (stop_time_sec s1) 256) by lia.
    rewrite (Z.div_mod (stop_time_sec s2) 256) by lia. congruence. }
  destruct s1, s2. cbn in *. subst.
  f_equal; lia.
Qed.

Lemma set_schedule_data_injective_witness :
  let s1 := mkSchedule 200 true 8 30 17 45 300 900 0x1F in
  let s2 := mkSchedule 200 true 8 30 17 45 300 900 (0x0F + 0x10) in
  let s3 := mkSchedule 200 false 8 30 17 45 300 900 0x1F in
  schedule_encodable s1 /\ s1 = s2
  /\ set_schedule_data s1 <> set_schedule_data s3.
Proof.
  intros s1 s2 s3.
  assert (H1 : schedule_encodable s1) by (unfold schedule_encodable; cbn; lia).
  assert (H2 : schedule_encodable s2) by (unfold schedule_encodable; cbn; lia).
  assert (H3 : schedule_encodable s3) by (unfold schedule_encodable; cbn; lia).
  split; [exact H1|]. split.
  - apply (set_schedule_data_injective s1 s2 H1 H2). reflexivity.
  - intros Heq.
    pose proof (set_schedule_data_injective s1 s3 H1 H3 Heq) as Hs.
    discriminate Hs.
Defined.

(** X10: for every schedule in range, [set_schedule] builds a frame, without
    error: 22 bytes, the header, the length byte 17, the command 0x14, the
    16-byte payload of the schedule, a checksum byte and the footer. *)
Theorem set_schedule_packet_shape (s : DiffuserSchedule) :
  schedule_in_range s ->
  exists data cs,
    set_schedule_data s = Ok data
    /\ length data = 16%nat
    /\ set_schedule_packet s
       = Ok (HEADER ++ [17; Command.SCHEDULE] ++ data ++ [cs] ++ FOOTER)
    /\ cs = (0x101 - 17 - Command.SCHEDULE - py_sum data) `mod` 256
    /\ (forall frame, set_schedule_packet s = Ok frame -> length frame = 22%nat).
Proof.
  intros Hs. pose proof (set_schedule_data_in_range s Hs) as Hdata.
  eexists _, _. split; [exact Hdata|].
  split; [reflexivity|].
  unfold set_schedule_packet. rewrite Hdata.
  rewrite _build_packet_ok by (first [reflexivity | unfold py_len; cbn [length]; lia]).
  split; [reflexivity|].
  split.
  - now rewrite checksum_of_eq, land_0xFF.
  - intros frame [= <-]. reflexivity.
Qed.

Lemma set_schedule_packet_shape_witness :
  exists frame,
    set_schedule_packet (mkSchedule 2 true 8 30 17 45 300 900 0x1F) = Ok frame
    /\ length frame = 22%nat.
Proof.
  destruct (set_schedule_packet_shape (mkSchedule 2 true 8 30 17 45 300 900 0x1F))
    as (data & cs & _ & _ & Hp & _ & Hlen);
    [unfold schedule_in_range; cbn; lia|].
  eexists. split; [exact Hp | apply Hlen; exact Hp].
Defined.

(** ** Discovery *)

Lemma discover_snoc (devices : list BLEDevice) (d : BLEDevice) :
  discover (devices ++ [d])
  = discover devices ++ (if is_scent_device d then [d] else []).
Proof. unfold discover. rewrite List.filter_app. cbn. now destruct (is_scent_device d). Qed.

Lemma discovered_devices_snoc (infos : list BLEDevice) (d : BLEDevice) :
  discovered_devices (infos ++ [d]) = discovered_step (discovered_devices infos) d.
Proof. unfold discovered_devices. now rewrite foldl_app. Qed.

Lemma is_scent_device_name (d : BLEDevice) :
  is_scent_device d = true ->
  exists name, ble_name d = Some name /\ String.prefix "Scent-" name = true.
Proof.
  unfold is_scent_device. destruct (ble_name d) as [[|c name]|]; try discriminate.
  intros H. now eexists.
Qed.

(** X11: the devices that the configuration flow offers are those that the
    library's [discover] keeps of the same scan: an address is offered
    exactly when a kept device has it, the name shown for it is the name of
    a kept device with that address and starts with "Scent-", and of two
    scan entries with one address the later one gives the name. A device
    without a name or with an empty name is never kept. *)
Theorem discovered_devices_spec (infos : list BLEDevice) :
  (forall addr name,
      discovered_devices infos !! addr = Some name ->
      String.prefix "Scent-" name = true
      /\ mkBLEDevice (Some name) addr ∈ discover infos)
  /\ (forall d, d ∈ discover infos ->
                is_Some (discovered_devices infos !! ble_address d))
  /\ (forall d, d ∈ discover infos ->
                d ∈ infos /\ ble_name d <> None /\ ble_name d <> Some EmptyString)
  /\ (forall d, is_scent_device d = true ->
                discovered_devices (infos ++ [d]) !! ble_address d = ble_name d).
Proof.
  assert (Hlast : forall l d, is_scent_device d = true ->
                    discovered_devices (l ++ [d]) !! ble_address d = ble_name d).
  { intros l d Hd. rewrite discovered_devices_snoc. unfold discovered_step.
    rewrite Hd. destruct (is_scent_device_name d Hd) as (name & -> & _).
    apply lookup_insert_eq. }
  split; [|split; [|split; [|apply Hlast]]].
  - induction infos as [|d infos IH] using rev_ind; intros addr name Hlook.
    { unfold discovered_devices in Hlook. cbn in Hlook.
      now rewrite lookup_empty in Hlook. }
    rewrite discover_snoc. rewrite discovered_devices_snoc in Hlook.
    unfold discovered_step in Hlook.
    destruct (is_scent_device d) eqn:Hd.
    + destruct (is_scent_device_name d Hd) as (n & Hn & Hpre).
      rewrite Hn in Hlook.
      destruct (decide (ble_address d = addr)) as [<-|Hne].
      * rewrite lookup_insert_eq in Hlook. injection Hlook as <-.
        split; [exact Hpre|]. apply elem_of_app. right.
        destruct d as [dn da]; cbn in *; subst. apply list_elem_of_here.
      * rewrite lookup_insert_ne in Hlook by assumption.
        destruct (IH _ _ Hlook) as [Hp Hin]. split; [exact Hp|].
        apply elem_of_app. now left.
    + rewrite app_nil_r. now apply IH.
  - induction infos as [|d infos IH] using rev_ind; intros d' Hin.
    { now apply elem_of_nil in Hin. }
    rewrite discover_snoc in Hin. rewrite discovered_devices_snoc.
    unfold discovered_step.
    destruct (is_scent_device d) eqn:Hd.
    + destruct (is_scent_device_name d Hd) as (n & Hn & _). rewrite Hn.
      destruct (decide (ble_address d = ble_address d')) as [->|Hne].
      * rewrite lookup_insert_eq. now eexists.
      * rewrite lookup_insert_ne by assumption.
        apply elem_of_app in Hin as [Hin|Hin]; [now apply IH|].
        apply list_elem_of_singleton in Hin. congruence.
    + rewrite app_nil_r in Hin. now apply IH.
  - intros d Hin. unfold discover in Hin.
    apply list_elem_of_In, List.filter_In in Hin as [Hin Hd].
    split; [now apply list_elem_of_In|].
    unfold is_scent_device in Hd.
    destruct (ble_name d) as [[|c name]|]; try discriminate Hd.
    split; discriminate.
Qed.

Lemma discovered_devices_spec_witness :
  let scan := [ mkBLEDevice (Some "Scent-A1") "E4:66:E5:69:91:81";
                mkBLEDevice None "11:22:33:44:55:66" ]%string in
  let late := mkBLEDevice (Some "Scent-B2") "E4:66:E5:69:91:81" in
  discovered_devices (scan ++ [late]) !! "E4:66:E5:69:91:81"%string
  = Some "Scent-B2"%string.
Proof.
  intros scan late.
  apply (proj2 (proj2 (proj2 (discovered_devices_spec scan))) late).
  reflexivity.
Defined.

(** ** Identifiers *)

Lemma upper_lower_ascii (c : ascii) : upper_ascii (lower_ascii c) = upper_ascii c.
Proof. destruct c as [[] [] [] [] [] [] [] []]; vm_compute; reflexivity. Qed.

Lemma lower_upper_ascii (c : ascii) : lower_ascii (upper_ascii c) = lower_ascii c.
Proof. destruct c as [[] [] [] [] [] [] [] []]; vm_compute; reflexivity. Qed.

Lemma lower_hex (c : ascii) : is_hex c = true -> is_hex (lower_ascii c) = true.
Proof.
  destruct c as [[] [] [] [] [] [] [] []]; intros H; vm_compute in H;
    first [discriminate H | vm_compute; reflexivity].
Qed.

(** X12: the address survives the way through the configuration: for an
    address in colon-delimited form, of either case, the id that the
    configuration flow stores (colons removed, lower case) is a bare
    12-digit address; [async_setup_entry] turns it into the upper-case form
    of the original address; and the identifier that the entities report
    for that address is the stored id again. *)
Theorem device_identifier_roundtrip (address : string) :
  is_colon_mac address = true ->
  is_bare_mac (device_identifier address) = true
  /\ canonical_address (device_identifier address) = upper address
  /\ device_identifier (canonical_address (device_identifier address))
     = device_identifier address.
Proof.
  intros H.
  do 17 (destruct address as [|? address]; [discriminate H|]).
  destruct address; [|discriminate H].
  unfold is_colon_mac in H. apply andb_true_iff in H as [Hx Hc].
  cbn [forallb] in Hx, Hc.
  repeat (apply andb_true_iff in Hc as [?Hc Hc]). clear Hc.
  repeat match goal with
         | Hc : bool_decide (_ = ":"%char) = true |- _ =>
             apply bool_decide_eq_true in Hc; subst
         end.
  repeat (apply andb_true_iff in Hx as [?Hx Hx]). clear Hx.
  assert (Hid : device_identifier
                  (String a (String a0 (String ":" (String a2 (String a3
                  (String ":" (String a5 (String a6 (String ":" (String a8
                  (String a9 (String ":" (String a11 (String a12 (String ":"
                  (String a14 (String a15 EmptyString)))))))))))))))))
                = String (lower_ascii a) (String (lower_ascii a0)
                  (String (lower_ascii a2) (String (lower_ascii a3)
                  (String (lower_ascii a5) (String (lower_ascii a6)
                  (String (lower_ascii a8) (String (lower_ascii a9)
                  (String (lower_ascii a11) (String (lower_ascii a12)
                  (String (lower_ascii a14) (String (lower_ascii a15)
                  EmptyString)))))))))))).
  { unfold device_identifier.
    repeat first [ rewrite replace_char_cons_eq
                 | rewrite replace_char_cons_ne by (now apply hex_not_colon) ].
    reflexivity. }
  rewrite Hid.
  assert (Hcanon : canonical_address
                     (String (lower_ascii a) (String (lower_ascii a0)
                     (String (lower_ascii a2) (String (lower_ascii a3)
                     (String (lower_ascii a5) (String (lower_ascii a6)
                     (String (lower_ascii a8) (String (lower_ascii a9)
                     (String (lower_ascii a11) (String (lower_ascii a12)
                     (String (lower_ascii a14) (String (lower_ascii a15)
                     EmptyString))))))))))))
                   = String (upper_ascii a) (String (upper_ascii a0) (String ":"
                     (String (upper_ascii a2) (String (upper_ascii a3) (String ":"
                     (String (upper_ascii a5) (String (upper_ascii a6) (String ":"
                     (String (upper_ascii a8) (String (upper_ascii a9) (String ":"
                     (String (upper_ascii a11) (String (upper_ascii a12) (String ":"
                     (String (upper_ascii a14) (String (upper_ascii a15)
                     EmptyString))))))))))))))))).
  { unfold canonical_address. rewrite !contains_char_cons.
    repeat (rewrite (bool_decide_eq_false_2 (_ = ":"%char))
              by (apply hex_not_colon; now apply lower_hex)).
    cbn [contains_char orb negb map slice String.substring upper join
         String.concat].
    cbv [String.append]. now rewrite !upper_lower_ascii. }
  split; [|split].
  - unfold is_bare_mac. cbn [String.length all_chars].
    rewrite !lower_hex by assumption. reflexivity.
  - rewrite Hcanon. cbn [upper].
    change (upper_ascii ":") with ":"%char. reflexivity.
  - rewrite Hcanon. unfold device_identifier.
    repeat first [ rewrite replace_char_cons_eq
                 | rewrite replace_char_cons_ne by (now apply upper_hex_upper) ].
    cbn [replace_char]. cbv [String.append]. cbn [lower].
    now rewrite !lower_upper_ascii.
Qed.

Lemma device_identifier_roundtrip_witness :
  device_identifier "E4:66:e5:69:91:81" = "e466e5699181"%string
  /\ canonical_address (device_identifier "E4:66:e5:69:91:81")
     = "E4:66:E5:69:91:81"%string.
Proof.
  destruct (device_identifier_roundtrip "E4:66:e5:69:91:81") as (_ & Hc & _);
    [reflexivity|].
  split; [reflexivity | exact Hc].
Defined.

(** ** Setting up the switches *)

(** X13: a mode switch can be constructed for the positions -5..4 of
    [MODE_PACKETS] (Python counts negative positions from the end) and for
    no other: outside, the constructor raises [IndexError]. The frame it
    keeps is the builder's frame for the mode command and the mode number
    1..5 of that position. *)
Theorem mode_switch_init_domain (mode_idx : Z) :
  (-5 <= mode_idx <= 4 ->
   exists sw, XEITINModeSwitch.init mode_idx = Ok sw
              /\ XEITINModeSwitch._mode_idx sw = mode_idx
              /\ build_packet CMD_MODE [mode_idx `mod` 5 + 1]
                 = Ok (XEITINModeSwitch._mode_packet sw))
  /\ (mode_idx < -5 \/ 4 < mode_idx ->
      XEITINModeSwitch.init mode_idx = Err IndexError).
Proof.
  split.
  - intros Hr.
    assert (mode_idx = -5 \/ mode_idx = -4 \/ mode_idx = -3 \/ mode_idx = -2
            \/ mode_idx = -1 \/ mode_idx = 0 \/ mode_idx = 1 \/ mode_idx = 2
            \/ mode_idx = 3 \/ mode_idx = 4) as Hc by lia.
    repeat (destruct Hc as [-> | Hc]); try subst mode_idx;
      (eexists; split; [reflexivity | split; reflexivity]).
  - intros Hr. unfold XEITINModeSwitch.init, py_getitem.
    change (py_len MODE_PACKETS) with 5.
    destruct (Z.ltb_spec mode_idx 0).
    + replace ((0 <=? mode_idx + 5) && (mode_idx + 5 <? 5)) with false;
        [reflexivity|].
      symmetry. apply andb_false_iff. left. apply Z.leb_gt. lia.
    + replace ((0 <=? mode_idx) && (mode_idx <? 5)) with false; [reflexivity|].
      symmetry. apply andb_false_iff. right. apply Z.ltb_ge. lia.
Qed.

Lemma mode_switch_init_domain_witness :
  (exists sw, XEITINModeSwitch.init (-1) = Ok sw
              /\ XEITINModeSwitch._mode_packet sw = PACKET_MODE_5)
  /\ XEITINModeSwitch.init 5 = Err IndexError.
Proof.
  destruct (mode_switch_init_domain (-1)) as [Hin _].
  destruct (mode_switch_init_domain 5) as [_ Hout].
  split.
  - destruct Hin as (sw & Hsw & _ & Hp); [lia|].
    exists sw. split; [exact Hsw|].
    change (build_packet CMD_MODE [(-1) `mod` 5 + 1]) with (Ok PACKET_MODE_5) in Hp.
    now injection Hp.
  - apply Hout. lia.
Defined.

Lemma append_inj_r (p s1 s2 : string) :
  (p +:+ s1)%string = (p +:+ s2)%string -> s1 = s2.
Proof. induction p as [|c p IH]; cbn; [auto|]. intros [= H]. now apply IH. Qed.

(** X14: [async_setup_entry] creates seven switches, the power switch, the
    fan boost switch and one mode switch for each of the positions 0..4,
    each with the frame of its mode; whatever the address is, their unique
    ids are pairwise different. *)
Theorem switch_entities_unique_ids (address : string) :
  exists modes,
    async_setup_entry_entities
      = Ok (PowerSwitchEntity :: FanBoostSwitchEntity :: map ModeSwitchEntity modes)
    /\ map XEITINModeSwitch._mode_idx modes = [0; 1; 2; 3; 4]
    /\ map XEITINModeSwitch._mode_packet modes = MODE_PACKETS
    /\ NoDup (map (fun e => switch_unique_id address (switch_key e))
                  (PowerSwitchEntity :: FanBoostSwitchEntity
                     :: map ModeSwitchEntity modes)).
Proof.
  eexists [_; _; _; _; _].
  split; [vm_compute; reflexivity|].
  split; [reflexivity|]. split; [reflexivity|].
  unfold switch_unique_id.
  set (p := lower (replace_char ":" "_" address)).
  change (map (fun e => (p +:+ "_" +:+ switch_key e)%string) ?l)
    with (map (fun k => (p +:+ "_" +:+ k)%string) (map switch_key l)).
  apply NoDup_fmap_2;
    [intros k1 k2 Hk; now apply append_inj_r, append_inj_r in Hk|].
  apply (bool_decide_unpack _). vm_compute. exact I.
Qed.

(** ** The lock and the transport, on every path *)

Lemma quiet_ret {A} (a : A) : quiet (ret a).
Proof. now intros w. Qed.

Lemma quiet_raise {A} (e : exn) : quiet (@raise A e).
Proof. now intros w. Qed.

Lemma quiet_lift {A} (r : result A) : quiet (lift r).
Proof. destruct r; [apply quiet_ret | apply quiet_raise]. Qed.

Lemma quiet_get_dev : quiet get_dev.
Proof. now intros w. Qed.

Lemma quiet_emit (ev : event) : quiet (emit ev).
Proof. now intros w. Qed.

Lemma quiet_modify_dev (f : XEITINBLEDevice -> XEITINBLEDevice) :
  quiet (modify_dev f).
Proof. now intros w. Qed.

Lemma quiet_transport_call (ev : event) : quiet (transport_call ev).
Proof. intros w. unfold transport_call. now destruct (faults w) as [|[e|] fs]. Qed.

Lemma quiet_bind {A C} (m : M A) (k : A -> M C) :
  quiet m -> (forall a, quiet (k a)) -> quiet (bind m k).
Proof.
  intros Hm Hk w. unfold bind. specialize (Hm w).
  destruct (m w) as [[a|e|] w']; cbn [fst] in *; [apply Hk | discriminate | congruence].
Qed.

Lemma quiet_try_except {A} (body : M A) classes (handler : exn -> M A) :
  quiet body -> (forall e, quiet (handler e)) ->
  quiet (try_except body classes handler).
Proof.
  intros Hb Hh w. unfold try_except. specialize (Hb w).
  destruct (body w) as [[a|e|] w']; cbn [fst] in *; [discriminate| |congruence].
  destruct (isinstance e classes); [apply Hh | discriminate].
Qed.

Lemma quiet_finally {A} (body : M A) (final : M unit) :
  quiet body -> quiet final -> quiet (finally body final).
Proof.
  intros Hb Hf w. unfold finally. specialize (Hb w).
  destruct (body w) as [[a|e|] w']; cbn [fst] in *; [| |congruence];
    specialize (Hf w'); destruct (final w') as [[[]|e'|] w''];
    cbn [fst] in *; congruence.
Qed.

(** The part of [send_command] that runs while the lock is held. *)
Lemma send_command_body_quiet (packet : bytes) :
  quiet (try_except
           (let* d := get_dev in
            with_BleakClient (_address d)
              (write_gatt_char CHARACTERISTIC_UUID PACKET_INIT >>
               sleep 300 >>
               write_gatt_char CHARACTERISTIC_UUID packet >>
               sleep 200) >>
            modify_dev (set__available true) >>
            ret true)
           [BleakError]
           (fun _ => modify_dev (set__available false) >> ret false)).
Proof.
  unfold with_BleakClient, write_gatt_char, sleep.
  repeat first [ apply quiet_try_except; [|intros ?]
               | apply quiet_bind; [|intros ?] | apply quiet_finally
               | apply quiet_get_dev | apply quiet_transport_call
               | apply quiet_emit | apply quiet_ret | apply quiet_modify_dev ].
Qed.

Lemma send_command_body_keeps_lock (packet : bytes) :
  keeps _lock
        (try_except
           (let* d := get_dev in
            with_BleakClient (_address d)
              (write_gatt_char CHARACTERISTIC_UUID PACKET_INIT >>
               sleep 300 >>
               write_gatt_char CHARACTERISTIC_UUID packet >>
               sleep 200) >>
            modify_dev (set__available true) >>
            ret true)
           [BleakError]
           (fun _ => modify_dev (set__available false) >> ret false)).
Proof.
  unfold with_BleakClient, write_gatt_char, sleep.
  repeat first [ apply keeps_try_except; [|intros ?]
               | apply keeps_bind; [|intros ?] | apply keeps_finally
               | apply keeps_get_dev | apply keeps_transport_call
               | apply keeps_emit | apply keeps_ret
               | apply keeps_modify_dev; now intros [] ].
Qed.

Lemma with_lock_lock_safe {A} (body : M A) :
  quiet body -> keeps _lock body -> lock_safe (with_lock body).
Proof.
  intros Hq Hk w Hlock.
  unfold with_lock, bind, get_dev, modify_dev, emit, finally.
  cbn [fst snd dev log faults]. rewrite Hlock.
  set (w1 := mkWorld (set__lock true (dev w)) (log w ++ [LockAcquire]) (faults w)).
  specialize (Hq w1). specialize (Hk w1).
  destruct (body w1) as [[a|e|] w2]; cbn [fst snd dev] in *; try congruence;
    (split; [discriminate | now destruct (dev w2)]).
Qed.

Lemma send_command_lock_safe (packet : bytes) (wait_response : bool) :
  lock_safe (send_command packet wait_response).
Proof.
  unfold send_command. apply with_lock_lock_safe;
    [apply send_command_body_quiet | apply send_command_body_keeps_lock].
Qed.

Lemma lock_safe_ret {A} (a : A) : lock_safe (ret a).
Proof. intros w Hw. now split. Qed.

Lemma lock_safe_lift {A} (r : result A) : lock_safe (lift r).
Proof. destruct r; intros w Hw; now split. Qed.

Lemma lock_safe_get_dev : lock_safe get_dev.
Proof. intros w Hw. now split. Qed.

Lemma lock_safe_cache_write f : cache_write f -> lock_safe (modify_dev f).
Proof.
  intros Hf w Hw. split; [discriminate|]. cbn [snd dev modify_dev].
  destruct Hf; now destruct (dev w).
Qed.

Lemma lock_safe_bind {A C} (m : M A) (k : A -> M C) :
  lock_safe m -> (forall a, lock_safe (k a)) -> lock_safe (bind m k).
Proof.
  intros Hm Hk w Hw. unfold bind. destruct (Hm w Hw) as [Hq Hl].
  destruct (m w) as [[a|e|] w']; cbn [fst snd] in *;
    [now apply Hk | now split | congruence].
Qed.

Lemma lock_safe_try_except {A} (body : M A) classes (handler : exn -> M A) :
  lock_safe body -> (forall e, lock_safe (handler e)) ->
  lock_safe (try_except body classes handler).
Proof.
  intros Hb Hh w Hw. unfold try_except. destruct (Hb w Hw) as [Hq Hl].
  destruct (body w) as [[a|e|] w']; cbn [fst snd] in *;
    [now split | | congruence].
  destruct (isinstance e classes); [now apply Hh | now split].
Qed.

Lemma lock_safe_perform (a : action) : lock_safe (perform a).
Proof.
  destruct a; cbn [perform];
    unfold XEITINPowerSwitch.async_turn_on, XEITINPowerSwitch.async_turn_off,
      XEITINFanBoostSwitch.async_turn_on, XEITINFanBoostSwitch.async_turn_off,
      XEITINModeSwitch.async_turn_on, XEITINModeSwitch.async_turn_off,
      XEITINIntensityNumber.async_set_native_value,
      XEITINModeSelect.async_select_option,
      XEITINTimerSelect.async_select_option, assign_mode_active;
    cbv zeta;
    repeat first
      [ apply send_command_lock_safe
      | apply lock_safe_lift
      | apply lock_safe_ret
      | apply lock_safe_get_dev
      | apply lock_safe_try_except; [|intros ?]
      | apply lock_safe_bind; [|intros ?]
      | apply lock_safe_cache_write; constructor
      | match goal with
        | |- lock_safe (if ?c then _ else _) => destruct c
        end ].
Qed.

(** X15: the lock does not leak and no entity call waits for ever: started
    with the lock free, every entity call ends (it returns or it raises)
    with the lock free again, whatever the transport does, also when it
    raises an exception that [send_command] does not handle; so the same
    holds after any sequence of calls. *)
Theorem lock_released_on_every_path (a : action) (acts : list action) (w : World) :
  _lock (dev w) = false ->
  fst (perform a w) <> Blocked
  /\ _lock (dev (snd (perform a w))) = false
  /\ _lock (dev (run acts w)) = false.
Proof.
  intros Hw. split; [|split]; try now apply lock_safe_perform.
  revert w Hw. induction acts as [|a' acts IH]; intros w Hw; [exact Hw|].
  cbn [run]. apply IH. now apply lock_safe_perform.
Qed.

Lemma lock_released_on_every_path_witness :
  let w := fresh_world "E4:66:E5:69:91:81" [None; Some OtherError; Some ValueError] in
  fst (perform PowerOn w) = Raise ValueError
  /\ _lock (dev (run [PowerOn; SetIntensity 3] w)) = false.
Proof.
  intros w. split; [reflexivity|].
  apply (lock_released_on_every_path PowerOn [PowerOn; SetIntensity 3] w).
  reflexivity.
Defined.

(** ** How much an entity call asks of the transport *)

Lemma transport_calls_app (evs1 evs2 : list event) :
  transport_calls (evs1 ++ evs2) = (transport_calls evs1 + transport_calls evs2)%nat.
Proof. unfold transport_calls. now rewrite List.filter_app, length_app. Qed.

Lemma connects_app (evs1 evs2 : list event) :
  connects (evs1 ++ evs2) = (connects evs1 + connects evs2)%nat.
Proof. unfold connects. now rewrite List.filter_app, length_app. Qed.

Lemma appends_le_weaken {A} (n c n' c' : nat) (m : M A) :
  appends_le n c m -> (n <= n')%nat -> (c <= c')%nat -> appends_le n' c' m.
Proof.
  intros Hm Hn Hc w. destruct (Hm w) as (evs & Hlog & Ht & Hcn).
  exists evs. split; [exact Hlog|]. split; lia.
Qed.

Lemma appends_le_silent {A} (m : M A) :
  (forall w, log (snd (m w)) = log w) -> appends_le 0 0 m.
Proof.
  intros Hm w. exists []. rewrite app_nil_r. split; [apply Hm|]. split; reflexivity.
Qed.

Lemma appends_le_ret {A} (a : A) : appends_le 0 0 (ret a).
Proof. now apply appends_le_silent. Qed.

Lemma appends_le_lift {A} (r : result A) : appends_le 0 0 (lift r).
Proof. apply appends_le_silent. now destruct r. Qed.

Lemma appends_le_get_dev : appends_le 0 0 get_dev.
Proof. now apply appends_le_silent. Qed.

Lemma appends_le_modify_dev f : appends_le 0 0 (modify_dev f).
Proof. now apply appends_le_silent. Qed.

Lemma appends_le_emit (ev : event) :
  is_transport_call ev = false -> appends_le 0 0 (emit ev).
Proof.
  intros Hev w. exists [ev]. split; [reflexivity|].
  unfold transport_calls, connects. cbn. rewrite Hev.
  destruct ev; try discriminate Hev; split; reflexivity.
Qed.

Lemma appends_le_transport_call (ev : event) :
  appends_le 1 1 (transport_call ev).
Proof.
  intros w. exists [ev]. unfold transport_call.
  split; [now destruct (faults w) as [|[e|] fs]|].
  unfold transport_calls, connects. cbn.
  destruct ev; cbn; split; lia.
Qed.

Lemma appends_le_transport_call_other (ev : event) :
  (forall a, ev <> Connect a) -> appends_le 1 0 (transport_call ev).
Proof.
  intros Hev w. exists [ev]. unfold transport_call.
  split; [now destruct (faults w) as [|[e|] fs]|].
  unfold transport_calls, connects. cbn.
  destruct ev; cbn; split; try lia. now destruct (Hev address).
Qed.

Lemma appends_le_bind {A C} (n1 c1 n2 c2 : nat) (m : M A) (k : A -> M C) :
  appends_le n1 c1 m -> (forall a, appends_le n2 c2 (k a)) ->
  appends_le (n1 + n2) (c1 + c2) (bind m k).
Proof.
  intros Hm Hk w. unfold bind. destruct (Hm w) as (evs1 & Hlog1 & Ht1 & Hc1).
  destruct (m w) as [[a|e|] w']; cbn [snd] in *.
  - destruct (Hk a w') as (evs2 & Hlog2 & Ht2 & Hc2).
    exists (evs1 ++ evs2). rewrite Hlog2, Hlog1, app_assoc.
    rewrite transport_calls_app, connects_app. split; [reflexivity|]. split; lia.
  - exists evs1. split; [exact Hlog1|]. split; lia.
  - exists evs1. split; [exact Hlog1|]. split; lia.
Qed.

Lemma appends_le_try_except {A} (n1 c1 n2 c2 : nat) (body : M A) classes
      (handler : exn -> M A) :
  appends_le n1 c1 body -> (forall e, appends_le n2 c2 (handler e)) ->
  appends_le (n1 + n2) (c1 + c2) (try_except body classes handler).
Proof.
  intros Hb Hh w. unfold try_except.
  destruct (Hb w) as (evs1 & Hlog1 & Ht1 & Hc1).
  destruct (body w) as [[a|e|] w']; cbn [snd] in *;
    try (exists evs1; split; [exact Hlog1|]; split; lia).
  destruct (isinstance e classes);
    [| exists evs1; split; [exact Hlog1|]; split; lia].
  destruct (Hh e w') as (evs2 & Hlog2 & Ht2 & Hc2).
  exists (evs1 ++ evs2). rewrite Hlog2, Hlog1, app_assoc.
  rewrite transport_calls_app, connects_app. split; [reflexivity|]. split; lia.
Qed.

Lemma appends_le_finally {A} (n1 c1 n2 c2 : nat) (body : M A) (final : M unit) :
  appends_le n1 c1 body -> appends_le n2 c2 final ->
  appends_le (n1 + n2) (c1 + c2) (finally body final).
Proof.
  intros Hb Hf w. unfold finally.
  destruct (Hb w) as (evs1 & Hlog1 & Ht1 & Hc1).
  destruct (body w) as [[a|e|] w']; cbn [snd] in *;
    try (exists evs1; split; [exact Hlog1|]; split; lia);
    destruct (Hf w') as (evs2 & Hlog2 & Ht2 & Hc2);
    destruct (final w') as [[[]|e'|] w'']; cbn [snd] in *;
    exists (evs1 ++ evs2); rewrite Hlog2, Hlog1, app_assoc;
    rewrite transport_calls_app, connects_app; (split; [reflexivity|]; split; lia).
Qed.

Lemma appends_le_if {A} (n1 c1 n2 c2 : nat) (b : bool) (m1 m2 : M A) :
  appends_le n1 c1 m1 -> appends_le n2 c2 m2 ->
  appends_le (Nat.max n1 n2) (Nat.max c1 c2) (if b then m1 else m2).
Proof.
  intros H1 H2. destruct b; eapply appends_le_weaken; eauto; lia.
Qed.

Lemma appends_le_blocked {A} : appends_le 0 0 (fun w => (@Blocked A, w)).
Proof. now apply appends_le_silent. Qed.

Ltac appends_le_step :=
  first
    [ eapply appends_le_try_except; [|intros ?]
    | eapply appends_le_bind; [|intros ?]
    | eapply appends_le_finally
    | eapply appends_le_if
    | apply appends_le_get_dev
    | apply appends_le_ret
    | apply appends_le_lift
    | apply appends_le_blocked
    | apply appends_le_modify_dev
    | apply appends_le_emit; reflexivity
    | apply appends_le_transport_call_other; solve [intros ? [=]]
    | apply appends_le_transport_call ].

Lemma appends_le_send_command (packet : bytes) (wait_response : bool) :
  appends_le 4 1 (send_command packet wait_response).
Proof.
  unfold send_command, with_lock, with_BleakClient, write_gatt_char, sleep.
  eapply appends_le_weaken; [repeat appends_le_step | cbn; lia | cbn; lia].
Qed.

Lemma appends_le_perform (a : action) : appends_le 4 1 (perform a).
Proof.
  destruct a; cbn [perform];
    unfold XEITINPowerSwitch.async_turn_on, XEITINPowerSwitch.async_turn_off,
      XEITINFanBoostSwitch.async_turn_on, XEITINFanBoostSwitch.async_turn_off,
      XEITINModeSwitch.async_turn_on, XEITINModeSwitch.async_turn_off,
      XEITINIntensityNumber.async_set_native_value,
      XEITINModeSelect.async_select_option,
      XEITINTimerSelect.async_select_option, assign_mode_active;
    cbv zeta;
    (eapply appends_le_weaken;
     [ repeat first [apply appends_le_send_command | appends_le_step]
     | cbn; lia | cbn; lia ]).
Qed.

(** X16: an entity call only appends to the log of events, and what it
    appends holds at most four transport calls, at most one of them a
    connect, whatever the transport answers; switching a mode off makes no
    transport call at all. So a sequence of calls makes at most four
    transport calls and one connect per call, and none by itself. *)
Theorem transport_calls_bounded (acts : list action) (w : World) :
  (exists evs,
      log (run acts w) = log w ++ evs
      /\ (transport_calls evs <= 4 * length acts)%nat
      /\ (connects evs <= length acts)%nat)
  /\ (forall sw, log (snd (perform (ModeOff sw) w)) = log w).
Proof.
  split.
  - revert w. induction acts as [|a acts IH]; intros w.
    + exists []. rewrite app_nil_r. repeat split; cbn; lia.
    + cbn [run length].
      destruct (appends_le_perform a w) as (evs1 & Hlog1 & Ht1 & Hc1).
      destruct (IH (snd (perform a w))) as (evs2 & Hlog2 & Ht2 & Hc2).
      exists (evs1 ++ evs2). rewrite Hlog2, Hlog1, app_assoc.
      rewrite transport_calls_app, connects_app. split; [reflexivity|]. split; lia.
  - intros sw. apply mode_off_is_local.
Qed.

(** ** What the cache can hold *)

Lemma maintains_bind_lift {A C} (I : World -> Prop) (r : result A) (k : A -> M C) :
  (forall a, r = Ok a -> maintains I (k a)) -> maintains I (bind (lift r) k).
Proof.
  intros Hk w Hw. unfold bind, lift. destruct r as [a|e]; cbn [ret raise snd].
  - now apply (Hk a).
  - exact Hw.
Qed.

Lemma cache_ok_cache (d d' : XEITINBLEDevice) :
  cache d' = cache d -> cache_ok d -> cache_ok d'.
Proof.
  unfold cache, cache_ok. intros [= Hp Hf Hm Ht Hi Hmode].
  now rewrite Hm, Ht, Hi, Hmode.
Qed.

Lemma send_command_cache_ok (packet : bytes) (wait_response : bool) :
  maintains (fun w => cache_ok (dev w)) (send_command packet wait_response).
Proof.
  intros w Hw. eapply cache_ok_cache; [|exact Hw].
  apply (keeps_send_command cache); now intros ? [].
Qed.

Lemma py_setitem_length {A} (l l' : list A) (i : Z) (x : A) :
  py_setitem l i x = Ok l' -> length l' = length l.
Proof.
  unfold py_setitem. destruct (_ && _); [|discriminate].
  intros [= <-]. apply length_insert.
Qed.

Lemma py_getitem_elem_of {A} (l : list A) (i : Z) (x : A) :
  py_getitem l i = Ok x -> x ∈ l.
Proof.
  unfold py_getitem. destruct (_ && _); [|discriminate].
  destruct (l !! _) as [y|] eqn:Hy; [|discriminate].
  intros [= <-]. eapply list_elem_of_lookup_2. exact Hy.
Qed.

Lemma py_index_range {A} `{EqDecision A} (l : list A) (x : A) (i : Z) :
  py_index l x = Ok i -> 0 <= i < py_len l.
Proof.
  revert i. induction l as [|y l IH]; intros i; cbn [py_index]; [discriminate|].
  rewrite py_len_cons. pose proof (py_len_nonneg l).
  destruct (decide (y = x)); [intros [= <-]; lia|].
  destruct (py_index l x) as [j|e]; [|discriminate].
  intros [= <-]. specialize (IH j eq_refl). lia.
Qed.

Lemma perform_cache_ok (a : action) :
  maintains (fun w => cache_ok (dev w)) (perform a).
Proof.
  assert (Hkeep : forall f,
             (forall d, intensity (f d) = intensity d /\ timer (f d) = timer d
                        /\ length (modes_active (f d)) = length (modes_active d)
                        /\ mode (f d) = mode d) ->
             maintains (fun w => cache_ok (dev w)) (modify_dev f)).
  { intros f Hf w Hw. cbn [snd dev modify_dev]. unfold cache_ok in *.
    destruct (Hf (dev w)) as (-> & -> & -> & ->). exact Hw. }
  assert (Hsw : forall (ok : bool) f,
             (forall d, intensity (f d) = intensity d /\ timer (f d) = timer d
                        /\ length (modes_active (f d)) = length (modes_active d)
                        /\ mode (f d) = mode d) ->
             maintains (fun w => cache_ok (dev w))
                       (if ok then modify_dev f else ret tt)).
  { intros [] f Hf; [now apply Hkeep | apply maintains_ret]. }
  assert (Hassign : forall idx b,
             maintains (fun w => cache_ok (dev w)) (assign_mode_active idx b)).
  { intros idx b w Hw. unfold assign_mode_active, bind, get_dev, lift.
    destruct (py_setitem (modes_active (dev w)) idx b) as [l|e] eqn:Hl;
      cbn [ret raise snd]; [|exact Hw].
    cbn [modify_dev snd dev]. apply py_setitem_length in Hl.
    unfold cache_ok in *. destruct (dev w); cbn in *. now rewrite Hl. }
  destruct a as [| | | | sw | sw | value | o | o]; cbn [perform].
  - apply maintains_bind; [apply send_command_cache_ok|].
    intros ok. apply Hsw. now intros [].
  - apply maintains_bind; [apply send_command_cache_ok|].
    intros ok. apply Hsw. now intros [].
  - apply maintains_bind; [apply send_command_cache_ok|].
    intros ok. apply Hsw. now intros [].
  - apply maintains_bind; [apply send_command_cache_ok|].
    intros ok. apply Hsw. now intros [].
  - apply maintains_bind; [apply send_command_cache_ok|].
    intros []; [apply Hassign | apply maintains_ret].
  - apply Hassign.
  - unfold XEITINIntensityNumber.async_set_native_value. cbv zeta.
    rewrite clamp_eq. destruct (dict_contains _ _); [|apply maintains_ret].
    apply maintains_bind; [apply maintains_lift|]. intros packet.
    apply maintains_bind; [apply send_command_cache_ok|]. intros _.
    intros w Hw. cbn [snd dev modify_dev]. unfold cache_ok in *.
    pose proof (clamped_level_range value). now destruct (dev w).
  - unfold XEITINModeSelect.async_select_option.
    apply maintains_try_except; [|intros; apply maintains_ret].
    apply maintains_bind_lift. intros idx Hidx.
    apply maintains_bind; [apply maintains_lift|]. intros packet.
    apply maintains_bind; [apply send_command_cache_ok|]. intros _.
    intros w Hw. cbn [snd dev modify_dev]. unfold cache_ok in *.
    apply py_index_range in Hidx.
    destruct (dev w); cbn in *.
    split; [tauto|]. split; [tauto|]. split; [tauto|].
    intros m' [= <-]. lia.
  - unfold XEITINTimerSelect.async_select_option.
    apply maintains_try_except; [|intros; apply maintains_ret].
    apply maintains_bind; [apply maintains_lift|]. intros idx.
    apply maintains_bind_lift. intros timer_val Hval.
    apply maintains_bind; [apply maintains_lift|]. intros packet.
    apply maintains_bind; [apply send_command_cache_ok|]. intros _.
    intros w Hw. cbn [snd dev modify_dev]. unfold cache_ok in *.
    apply py_getitem_elem_of in Hval.
    destruct (dev w); cbn in *. tauto.
Qed.

Lemma perform_keeps_address (a : action) : keeps _address (perform a).
Proof.
  pose proof (fun p wr => keeps_send_command _address
                            ltac:(now intros ? []) ltac:(now intros ? []) p wr)
    as Hsend.
  destruct a; cbn [perform];
    unfold XEITINPowerSwitch.async_turn_on, XEITINPowerSwitch.async_turn_off,
      XEITINFanBoostSwitch.async_turn_on, XEITINFanBoostSwitch.async_turn_off,
      XEITINModeSwitch.async_turn_on, XEITINModeSwitch.async_turn_off,
      XEITINIntensityNumber.async_set_native_value,
      XEITINModeSelect.async_select_option,
      XEITINTimerSelect.async_select_option, assign_mode_active;
    cbv zeta;
    repeat first
      [ apply Hsend
      | apply keeps_lift
      | apply keeps_ret
      | apply keeps_get_dev
      | apply keeps_try_except; [|intros ?]
      | apply keeps_bind; [|intros ?]
      | apply keeps_modify_dev; now intros []
      | match goal with
        | |- keeps _ (if ?c then _ else _) => destruct c
        end ].
Qed.

Lemma run_cache_ok (acts : list action) (w : World) :
  cache_ok (dev w) -> cache_ok (dev (run acts w)).
Proof.
  revert w. induction acts as [|a acts IH]; intros w Hw; [exact Hw|].
  cbn [run]. apply IH. now apply perform_cache_ok.
Qed.

Lemma run_keeps_address (acts : list action) (w : World) :
  _address (dev (run acts w)) = _address (dev w).
Proof.
  revert w. induction acts as [|a acts IH]; intros w; [reflexivity|].
  cbn [run]. rewrite IH. apply perform_keeps_address.
Qed.

Lemma fresh_cache_ok (address : string) : cache_ok (XEITINBLEDevice_init address).
Proof.
  unfold cache_ok. cbn. repeat split; try lia.
  - apply list_elem_of_here.
  - discriminate.
  - discriminate.
Qed.

(** X17: the cache always holds values that the entities can show: after
    any sequence of entity calls on a freshly set up device, whatever the
    transport did, the intensity is in 1..10, the timer is one of 0, 30, 60,
    120, 180, there are five mode flags, a selected mode (when there is one)
    is a position 0..4, and the address is the one the device was set up
    with. *)
Theorem cache_always_valid (address : string) (script : list (option exn))
        (acts : list action) :
  let d := dev (run acts (fresh_world address script)) in
  1 <= intensity d <= 10
  /\ timer d ∈ [0; 30; 60; 120; 180]
  /\ length (modes_active d) = 5%nat
  /\ (forall m, mode d = Some m -> 0 <= m < 5)
  /\ _address d = address.
Proof.
  cbv zeta.
  pose proof (run_cache_ok acts (fresh_world address script)
                (fresh_cache_ok address)) as (Hi & Ht & Hm & Hmode).
  rewrite run_keeps_address.
  split; [exact Hi|]. split; [exact Ht|]. split; [exact Hm|].
  split; [exact Hmode | reflexivity].
Qed.

Lemma cache_always_valid_witness :
  let d := dev (run [SelectMode "Mode III"; SetIntensity 42]
                    (fresh_world "E4:66:E5:69:91:81" [Some BleakError])) in
  mode d = Some 2 /\ 0 <= 2 < 5 /\ intensity d = 10.
Proof.
  intros d.
  destruct (cache_always_valid "E4:66:E5:69:91:81" [Some BleakError]
              [SelectMode "Mode III"; SetIntensity 42]) as (_ & _ & _ & Hmode & _).
  split; [reflexivity|]. split; [apply Hmode; reflexivity | reflexivity].
Defined.

(** ** Reading the entities *)

Lemma mode_switch_init_inv (mode_idx : Z) (sw : XEITINModeSwitch.t) :
  XEITINModeSwitch.init mode_idx = Ok sw ->
  -5 <= mode_idx <= 4 /\ XEITINModeSwitch._mode_idx sw = mode_idx.
Proof.
  unfold XEITINModeSwitch.init, py_getitem. change (py_len MODE_PACKETS) with 5.
  destruct (Z.ltb_spec mode_idx 0).
  - destruct (Z.leb_spec 0 (mode_idx + 5)); cbn [andb]; [|discriminate].
    destruct (MODE_PACKETS !! _); [|destruct (_ <? _); discriminate].
    destruct (_ <? _); [|discriminate]. intros [= <-]. cbn. lia.
  - destruct (Z.leb_spec 0 mode_idx); cbn [andb]; [|discriminate].
    destruct (Z.ltb_spec mode_idx 5); [|discriminate].
    destruct (MODE_PACKETS !! _); [|discriminate]. intros [= <-]. cbn. lia.
Qed.

Lemma py_getitem_five {A} (l : list A) (i : Z) :
  length l = 5%nat -> -5 <= i <= 4 -> exists x, py_getitem l i = Ok x.
Proof.
  intros Hl Hi.
  do 5 (destruct l as [|? l]; [discriminate Hl|]).
  destruct l; [|discriminate Hl].
  assert (i = -5 \/ i = -4 \/ i = -3 \/ i = -2 \/ i = -1 \/ i = 0 \/ i = 1
          \/ i = 2 \/ i = 3 \/ i = 4) as Hc by lia.
  repeat (destruct Hc as [-> | Hc]); try subst i; eexists; reflexivity.
Qed.

(** X18: the state that the entities show can always be read: after any
    sequence of entity calls on a freshly set up device, whatever the
    transport did, the timer entity's current option is one of the five
    timer options, the number entity's value is in 1..10, every mode switch
    that could be constructed reads its flag without an index error, and
    the mode entity's current option, once a mode was selected, is one of
    the five mode options. *)
Theorem entity_reads_succeed (address : string) (script : list (option exn))
        (acts : list action) :
  let d := dev (run acts (fresh_world address script)) in
  (exists o, XEITINTimerSelect.current_option d = Ok o /\ o ∈ TIMER_OPTIONS)
  /\ 1 <= XEITINIntensityNumber.native_value d <= 10
  /\ (forall mode_idx sw,
        XEITINModeSwitch.init mode_idx = Ok sw ->
        exists b, XEITINModeSwitch.is_on sw d = Ok b)
  /\ (mode d <> None ->
      exists o, XEITINModeSelect.current_option d = Ok o /\ o ∈ MODE_OPTIONS).
Proof.
  cbv zeta.
  pose proof (run_cache_ok acts (fresh_world address script)
                (fresh_cache_ok address)) as (Hi & Ht & Hm & Hmode).
  set (d := dev (run acts (fresh_world address script))) in *.
  split; [|split; [exact Hi|split]].
  - unfold XEITINTimerSelect.current_option. cbv zeta.
    unfold TIMER_VALUES in Ht.
    repeat (apply elem_of_cons in Ht as [-> | Ht]);
      [| | | | | now apply elem_of_nil in Ht];
      eexists; (split; [reflexivity|]); unfold TIMER_OPTIONS;
      repeat first [apply list_elem_of_here | apply list_elem_of_further].
  - intros mode_idx sw Hsw.
    apply mode_switch_init_inv in Hsw as [Hrange Hidx].
    unfold XEITINModeSwitch.is_on. rewrite Hidx.
    now apply py_getitem_five.
  - intros Hdef. destruct (mode d) as [m|] eqn:Hm'; [|congruence].
    specialize (Hmode m eq_refl). change (py_len MODE_OPTIONS) with 5 in Hmode.
    unfold XEITINModeSelect.current_option. rewrite Hm'.
    assert (m = 0 \/ m = 1 \/ m = 2 \/ m = 3 \/ m = 4) as Hc by lia.
    repeat (destruct Hc as [-> | Hc]); try subst m;
      eexists; (split; [reflexivity|]); unfold MODE_OPTIONS;
      repeat first [apply list_elem_of_here | apply list_elem_of_further].
Qed.

Lemma entity_reads_succeed_witness :
  let d := dev (run [SelectTimer "2 hours"; SelectMode "Mode II"]
                    (fresh_world "E4:66:E5:69:91:81" [Some OtherError])) in
  (exists b, XEITINModeSwitch.is_on (XEITINModeSwitch.mk 3 PACKET_MODE_4) d = Ok b)
  /\ (exists o, XEITINModeSelect.current_option d = Ok o /\ o ∈ MODE_OPTIONS).
Proof.
  intros d.
  destruct (entity_reads_succeed "E4:66:E5:69:91:81" [Some OtherError]
              [SelectTimer "2 hours"; SelectMode "Mode II"])
    as (_ & _ & Hsw & Hmode).
  split.
  - apply (Hsw 3). reflexivity.
  - apply Hmode. discriminate.
Defined.

(** ** Calls over a transport that does not fail *)

(** The session of a [send_command] that finds the lock free and the
    transport's script empty. *)
Lemma send_command_clean (packet : bytes) (wait_response : bool) (w : World) :
  _lock (dev w) = false -> faults w = [] ->
  send_command packet wait_response w
  = (Ret true,
     mkWorld (set__available true (dev w))
             (log w ++ [LockAcquire] ++ session_complete (_address (dev w)) packet
                    ++ [LockRelease])
             []).
Proof.
  destruct w as [d lg fs]. cbn [dev log faults]. intros Hlock ->.
  unfold_session. cbn [dev log faults]. rewrite Hlock. cbn.
  rewrite <- !app_assoc. cbn [app].
  rewrite (set__available_unlocked true d Hlock). reflexivity.
Qed.

(** A send followed by a write to the cache, on such a transport. *)
Lemma send_then_write_clean (packet : bytes) (f : XEITINBLEDevice -> XEITINBLEDevice)
      (w : World) :
  _lock (dev w) = false -> faults w = [] ->
  (send_command packet false >> modify_dev f) w
  = (Ret tt,
     mkWorld (f (set__available true (dev w)))
             (log w ++ [LockAcquire] ++ session_complete (_address (dev w)) packet
                    ++ [LockRelease])
             []).
Proof.
  intros Hlock Hf. unfold bind. now rewrite send_command_clean.
Qed.

Lemma send_if_ok_write_clean (packet : bytes) (f : XEITINBLEDevice -> XEITINBLEDevice)
      (w : World) :
  _lock (dev w) = false -> faults w = [] ->
  (let* ok := send_command packet false in
   if ok : bool then modify_dev f else ret tt) w
  = (Ret tt,
     mkWorld (f (set__available true (dev w)))
             (log w ++ [LockAcquire] ++ session_complete (_address (dev w)) packet
                    ++ [LockRelease])
             []).
Proof.
  intros Hlock Hf. unfold bind. now rewrite send_command_clean.
Qed.

Lemma mode_packet_defined (o : string) (idx : Z) :
  py_index MODE_OPTIONS o = Ok idx -> exists p, py_getitem MODE_PACKETS idx = Ok p.
Proof.
  intros Hidx. apply py_index_range in Hidx.
  change (py_len MODE_OPTIONS) with 5 in Hidx.
  assert (idx = 0 \/ idx = 1 \/ idx = 2 \/ idx = 3 \/ idx = 4) as Hc by lia.
  destruct Hc as [-> | [-> | [-> | [-> | ->]]]]; eexists; reflexivity.
Qed.

(** The tables of the timer agree: every position of [TIMER_OPTIONS] has a
    value in [TIMER_VALUES], and that value a frame in [TIMER_PACKETS]. *)
Lemma timer_packet_defined (o : string) (idx : Z) :
  py_index TIMER_OPTIONS o = Ok idx ->
  exists v p, py_getitem TIMER_VALUES idx = Ok v
              /\ dict_getitem TIMER_PACKETS v = Ok p
              /\ py_getitem TIMER_OPTIONS idx = Ok o
              /\ py_index TIMER_VALUES v = Ok idx.
Proof.
  intros Hidx.
  assert (Hin : o ∈ TIMER_OPTIONS).
  { destruct (decide (o ∈ TIMER_OPTIONS)) as [|Hout]; [assumption|].
    rewrite (py_index_not_in _ _ Hout) in Hidx. discriminate Hidx. }
  unfold TIMER_OPTIONS in Hin.
  repeat (apply elem_of_cons in Hin as [-> | Hin]);
    [| | | | | now apply elem_of_nil in Hin];
    vm_compute in Hidx; injection Hidx as <-;
    eexists _, _; (split; [reflexivity|]);
    (split; [vm_compute; reflexivity|]); split; reflexivity.
Qed.

(** What each entity call does to an idle world whose transport does not
    fail. *)
Lemma perform_clean (a : action) (w : World) :
  _lock (dev w) = false -> faults w = [] ->
  exists evs,
    snd (perform a w) = mkWorld (success_effect a (dev w)) (log w ++ evs) [].
Proof.
  intros Hlock Hf.
  assert (Hw : w = mkWorld (dev w) (log w ++ []) []).
  { destruct w as [d lg fs]. cbn in Hf |- *. subst. now rewrite app_nil_r. }
  destruct a as [| | | | sw | sw | value | o | o]; cbn [perform success_effect].
  - eexists. unfold XEITINPowerSwitch.async_turn_on.
    rewrite send_if_ok_write_clean by assumption. reflexivity.
  - eexists. unfold XEITINPowerSwitch.async_turn_off.
    rewrite send_if_ok_write_clean by assumption. reflexivity.
  - eexists. unfold XEITINFanBoostSwitch.async_turn_on.
    rewrite send_if_ok_write_clean by assumption. reflexivity.
  - eexists. unfold XEITINFanBoostSwitch.async_turn_off.
    rewrite send_if_ok_write_clean by assumption. reflexivity.
  - eexists. unfold XEITINModeSwitch.async_turn_on, bind at 1.
    rewrite send_command_clean by assumption. cbv beta iota.
    unfold assign_mode_active, bind, get_dev, lift. cbn [dev].
    replace (modes_active (set__available true (dev w)))
      with (modes_active (dev w)) by now destruct (dev w).
    destruct (py_setitem _ _ _); reflexivity.
  - exists []. unfold XEITINModeSwitch.async_turn_off.
    unfold assign_mode_active, bind, get_dev, lift.
    destruct (py_setitem _ _ _); cbn; [|exact Hw].
    now rewrite app_nil_r, Hf.
  - pose proof (clamped_level_range value) as Hrange.
    destruct (intensity_packet_defined _ Hrange) as (frame & Hframe & _).
    eexists. unfold XEITINIntensityNumber.async_set_native_value. cbv zeta.
    rewrite clamp_eq. unfold dict_contains, dict_getitem. rewrite Hframe.
    unfold lift, bind at 1, ret. cbv beta iota.
    rewrite send_then_write_clean by assumption. reflexivity.
  - unfold XEITINModeSelect.async_select_option, try_except, bind at 1.
    destruct (py_index MODE_OPTIONS o) as [idx|e] eqn:Hidx; unfold lift.
    + destruct (mode_packet_defined _ _ Hidx) as [p Hp].
      eexists. unfold ret. cbv beta iota. rewrite Hp.
      unfold lift, bind at 1, ret. cbv beta iota.
      rewrite send_then_write_clean by assumption. reflexivity.
    + exists []. unfold raise. cbv beta iota.
      destruct (isinstance e [ValueError]); exact Hw.
  - unfold XEITINTimerSelect.async_select_option, try_except, bind at 1.
    destruct (py_index TIMER_OPTIONS o) as [idx|e] eqn:Hidx; unfold lift.
    + destruct (timer_packet_defined _ _ Hidx) as (v & p & Hv & Hp & _).
      eexists. unfold ret. cbv beta iota. rewrite Hv.
      unfold lift, bind at 1, ret. cbv beta iota. rewrite Hp.
      unfold lift, bind at 1, ret. cbv beta iota.
      rewrite send_then_write_clean by assumption. reflexivity.
    + exists []. unfold raise. cbv beta iota.
      destruct (isinstance e [ValueError; KeyError]); exact Hw.
Qed.

Lemma py_setitem_idem {A} (l l' : list A) (i : Z) (x : A) :
  py_setitem l i x = Ok l' -> py_setitem l' i x = Ok l'.
Proof.
  unfold py_setitem. intros H.
  destruct ((0 <=? (if i <? 0 then i + py_len l else i))
            && ((if i <? 0 then i + py_len l else i) <? py_len l)) eqn:Hc;
    [|discriminate H].
  injection H as <-.
  assert (Hlen : py_len (<[Z.to_nat (if i <? 0 then i + py_len l else i) := x]> l)
                 = py_len l) by (unfold py_len; now rewrite length_insert).
  rewrite Hlen, Hc. f_equal. apply list_insert_insert_eq.
Qed.

Lemma success_effect_lock (a : action) (d : XEITINBLEDevice) :
  _lock (success_effect a d) = _lock d.
Proof.
  destruct a; cbn [success_effect];
    repeat match goal with
           | |- context [match ?r with Ok _ => _ | Err _ => _ end] => destruct r
           end;
    now destruct d.
Qed.

Lemma success_effect_idem (a : action) (d : XEITINBLEDevice) :
  success_effect a (success_effect a d) = success_effect a d.
Proof.
  destruct a as [| | | | sw | sw | value | o | o]; cbn [success_effect];
    try (now destruct d).
  - destruct (py_setitem (modes_active d) _ true) as [l|e] eqn:Hl.
    + replace (modes_active (set_modes_active l (set__available true d)))
        with l by now destruct d.
      rewrite (py_setitem_idem _ _ _ _ Hl). now destruct d.
    + replace (modes_active (set__available true d)) with (modes_active d)
        by now destruct d.
      rewrite Hl. now destruct d.
  - destruct (py_setitem (modes_active d) _ false) as [l|e] eqn:Hl.
    + replace (modes_active (set_modes_active l d)) with l by now destruct d.
      rewrite (py_setitem_idem _ _ _ _ Hl). now destruct d.
    + now rewrite Hl.
  - destruct (py_index MODE_OPTIONS o); now destruct d.
  - destruct (py_index TIMER_OPTIONS o) as [idx|]; [|reflexivity].
    destruct (py_getitem TIMER_VALUES idx); now destruct d.
Qed.

(** X19: over a transport that does not fail, every entity call is
    idempotent on the device: made twice in a row it leaves the device as
    made once. *)
Theorem entity_call_idempotent (a : action) (w : World) :
  _lock (dev w) = false -> faults w = [] ->
  dev (run [a; a] w) = dev (run [a] w).
Proof.
  intros Hlock Hf. cbn [run].
  destruct (perform_clean a w Hlock Hf) as (evs1 & H1).
  rewrite H1.
  destruct (perform_clean a
              (mkWorld (success_effect a (dev w)) (log w ++ evs1) []))
    as (evs2 & H2); [cbn [dev]; now rewrite success_effect_lock | reflexivity |].
  rewrite H2. cbn [dev]. apply success_effect_idem.
Qed.

Lemma entity_call_idempotent_witness :
  let w := fresh_world "E4:66:E5:69:91:81" [] in
  dev (run [SetIntensity 12; SetIntensity 12] w) = dev (run [SetIntensity 12] w).
Proof.
  intros w. apply (entity_call_idempotent (SetIntensity 12) w); reflexivity.
Defined.

(** X20: the mode switches are independent: over a transport that does not
    fail, switching one mode on sets its own flag and leaves the flag of
    every other mode switch as it was, and switching it off clears its own
    flag only. *)
Theorem mode_switches_independent (i j : Z) (swi swj : XEITINModeSwitch.t)
        (w : World) :
  XEITINModeSwitch.init i = Ok swi -> XEITINModeSwitch.init j = Ok swj ->
  i `mod` 5 <> j `mod` 5 ->
  _lock (dev w) = false -> faults w = [] ->
  length (modes_active (dev w)) = 5%nat ->
  let on := dev (snd (perform (ModeOn swi) w)) in
  let off := dev (snd (perform (ModeOff swi) w)) in
  XEITINModeSwitch.is_on swi on = Ok true
  /\ XEITINModeSwitch.is_on swj on = XEITINModeSwitch.is_on swj (dev w)
  /\ XEITINModeSwitch.is_on swi off = Ok false
  /\ XEITINModeSwitch.is_on swj off = XEITINModeSwitch.is_on swj (dev w).
Proof.
  intros Hi Hj Hne Hlock Hf Hlen. cbv zeta.
  destruct (perform_clean (ModeOn swi) w Hlock Hf) as (evs1 & ->).
  destruct (perform_clean (ModeOff swi) w Hlock Hf) as (evs2 & ->).
  cbn [dev success_effect].
  apply mode_switch_init_inv in Hi as [Hri Hidi].
  apply mode_switch_init_inv in Hj as [Hrj Hidj].
  unfold XEITINModeSwitch.is_on. rewrite Hidi, Hidj. clear Hidi Hidj.
  destruct (dev w) as [addr av lk po fb ma tm it md]. cbn [modes_active] in *.
  do 5 (destruct ma as [|? ma]; [discriminate Hlen|]).
  destruct ma; [|discriminate Hlen].
  assert (i = -5 \/ i = -4 \/ i = -3 \/ i = -2 \/ i = -1 \/ i = 0 \/ i = 1
          \/ i = 2 \/ i = 3 \/ i = 4) as Hci by lia.
  assert (j = -5 \/ j = -4 \/ j = -3 \/ j = -2 \/ j = -1 \/ j = 0 \/ j = 1
          \/ j = 2 \/ j = 3 \/ j = 4) as Hcj by lia.
  repeat (destruct Hci as [-> | Hci]); try subst i;
    repeat (destruct Hcj as [-> | Hcj]); try subst j;
    first [ exfalso; apply Hne; reflexivity | repeat split ].
Qed.

Lemma mode_switches_independent_witness :
  let w := fresh_world "E4:66:E5:69:91:81" [] in
  let sw2 := XEITINModeSwitch.mk 1 PACKET_MODE_2 in
  let sw5 := XEITINModeSwitch.mk 4 PACKET_MODE_5 in
  XEITINModeSwitch.is_on sw2 (dev (snd (perform (ModeOn sw2) w))) = Ok true
  /\ XEITINModeSwitch.is_on sw5 (dev (snd (perform (ModeOn sw2) w))) = Ok false.
Proof.
  intros w sw2 sw5.
  destruct (mode_switches_independent 1 4 sw2 sw5 w) as (Hon & Hother & _);
    try reflexivity; [vm_compute; discriminate|].
  split; [exact Hon | rewrite Hother; reflexivity].
Defined.

(** X21: selecting a timer option is read back: on an idle device, when the
    session completes, selecting one of the five timer options sends the
    catalog's frame for its minutes, stores the minutes, and the timer
    entity then shows the option that was selected. *)
Theorem timer_select_roundtrip (o : string) (w : World) :
  o ∈ TIMER_OPTIONS ->
  session_idle w -> session_clean (faults w) = true ->
  exists idx minutes frame,
    let w' := snd (XEITINTimerSelect.async_select_option o w) in
    py_index TIMER_OPTIONS o = Ok idx
    /\ py_getitem TIMER_VALUES idx = Ok minutes
    /\ TIMER_PACKETS !! minutes = Some frame
    /\ fst (XEITINTimerSelect.async_select_option o w) = Ret tt
    /\ log w' = log w ++ [LockAcquire]
                      ++ session_complete (_address (dev w)) frame
                      ++ [LockRelease]
    /\ timer (dev w') = minutes
    /\ _available (dev w') = true
    /\ XEITINTimerSelect.current_option (dev w') = Ok o.
Proof.
  intros Ho [Hlock Hfs] Hclean.
  destruct (py_index_in _ _ Ho) as (idx & Hidx & _ & _).
  destruct (timer_packet_defined _ _ Hidx) as (v & p & Hv & Hp & Hopt & Hback).
  exists idx, v, p. cbv zeta.
  destruct (send_command_run p false w Hlock Hfs)
    as (ok & calls & rest & Hrun & _ & Hok & Hgood & _).
  rewrite Hclean in Hok. subst ok. rewrite (Hgood eq_refl) in Hrun.
  unfold XEITINTimerSelect.async_select_option, try_except.
  unfold lift, bind, ret, raise. rewrite Hidx. cbv beta iota.
  rewrite Hv. cbv beta iota. rewrite Hp. cbv beta iota. rewrite Hrun.
  cbn [fst snd dev log modify_dev].
  split; [reflexivity|]. split; [reflexivity|].
  split; [unfold dict_getitem in Hp; destruct (TIMER_PACKETS !! v); congruence|].
  split; [reflexivity|]. split; [reflexivity|].
  split; [now destruct (dev w)|]. split; [now destruct (dev w)|].
  unfold XEITINTimerSelect.current_option. cbv zeta.
  replace (timer (set_timer v (set__available true (dev w)))) with v
    by now destruct (dev w).
  now rewrite Hback.
Qed.

Lemma timer_select_roundtrip_witness :
  let w := fresh_world "E4:66:E5:69:91:81" [] in
  XEITINTimerSelect.current_option
    (dev (snd (XEITINTimerSelect.async_select_option "2 hours" w)))
  = Ok "2 hours"%string.
Proof.
  intros w.
  destruct (timer_select_roundtrip "2 hours"%string w)
    as (idx & minutes & frame & _ & _ & _ & _ & _ & _ & _ & Hcur);
    [ unfold TIMER_OPTIONS; do 3 apply list_elem_of_further; apply list_elem_of_here
    | split; reflexivity | reflexivity | exact Hcur ].
Defined.

(** ** The client class *)

Import XEITINDiffuser.

Ltac unfold_client :=
  unfold connect, disconnect, _send_command, keepalive, get_status, power_on,
    power_off, set_fan, set_schedule, sync_time, async_with, test_connection,
    try_except_Exception, cfinally, cbind, clift, creturn, craise, get_self,
    set_self, ble, csleep.

Lemma request_data_short (r : request) (data : bytes) :
  request_data r = Ok data -> py_len data <= 16.
Proof.
  assert (Hb : forall l, bytes_of l = Ok data -> py_len data = py_len l).
  { intros l. unfold bytes_of. destruct (all_bytes l); [|discriminate].
    now intros [= <-]. }
  destruct r; cbn [request_data];
    unfold power_on_data, power_off_data, set_fan_data, set_schedule_data,
      sync_time_data; cbv zeta;
    first [ intros H; apply Hb in H; rewrite H; unfold py_len; cbn [length]; lia
          | intros [= <-]; unfold py_len; cbn [length]; lia ].
Qed.

Lemma request_command_byte (r : request) : is_byte (request_command r) = true.
Proof. now destruct r. Qed.

Lemma issue_unfold (r : request) :
  issue r = cbind (clift (request_data r))
                  (fun data => _send_command (request_command r) data).
Proof. now destruct r. Qed.

(** X22: a command on a client that is not connected raises
    [ConnectionError] and asks nothing of the BLE library; a command whose
    payload cannot be built (a power mode that is no byte, a schedule field
    out of range) raises that error first, connected or not, and asks
    nothing of the BLE library either. *)
Theorem command_needs_connection (r : request) (env : Env) :
  (forall data,
      is_connected (self env) = false -> request_data r = Ok data ->
      issue r env = (Raises ConnectionError, env))
  /\ (forall e,
        request_data r = Err e -> issue r env = (Raises (Exn e), env)).
Proof.
  rewrite issue_unfold. split.
  - intros data Hc Hd. rewrite Hd. unfold_client. now rewrite Hc.
  - intros e Hd. rewrite Hd. reflexivity.
Qed.

Lemma command_needs_connection_witness :
  let env := mkEnv (init "E4:66:E5:69:91:81") [] [] in
  issue (SetFan true) env = (Raises ConnectionError, env)
  /\ issue (PowerOnMode 300) env = (Raises (Exn ValueError), env).
Proof.
  intros env.
  destruct (command_needs_connection (SetFan true) env) as [H1 _].
  destruct (command_needs_connection (PowerOnMode 300) env) as [_ H2].
  split; [eapply H1; reflexivity | apply H2; reflexivity].
Defined.

(** X23: a command on a connected client makes exactly one call into the
    BLE library: the write of the frame that the builder returns for its
    command byte and payload. It does not raise: it returns true when the
    write succeeds and false when the write raises; the object is as
    before. *)
Theorem command_writes_one_frame (r : request) (env : Env) (data : bytes) :
  is_connected (self env) = true ->
  request_data r = Ok data ->
  exists frame,
    _build_packet (request_command r) data = Ok frame
    /\ issue r env
       = (Returns (match script env with Some _ :: _ => false | _ => true end),
          mkEnv (self env)
                (calls env ++ [BleWrite CHARACTERISTIC_UUID frame])
                (tail (script env))).
Proof.
  intros Hc Hd.
  pose proof (request_data_short r data Hd) as Hlen.
  pose proof (_build_packet_ok (request_command r) data
                (request_command_byte r) ltac:(lia)) as Hb.
  eexists. split; [exact Hb|].
  rewrite issue_unfold, Hd. unfold_client. rewrite Hc. cbn [negb].
  rewrite Hb. now destruct (script env) as [|[e|] rest].
Qed.

Lemma command_writes_one_frame_witness :
  let s := mk "E4:66:E5:69:91:81" (Some (mkBleak "E4:66:E5:69:91:81" true)) true in
  issue Keepalive (mkEnv s [] [])
  = (Returns true, mkEnv s [BleWrite CHARACTERISTIC_UUID PACKET_KEEPALIVE] []).
Proof.
  intros s.
  destruct (command_writes_one_frame Keepalive (mkEnv s [] []) [])
    as (frame & Hf & Hi); [reflexivity | reflexivity |].
  rewrite Hi. injection Hf as <-. reflexivity.
Defined.

(** X24: [disconnect] never raises and always leaves the object without
    client and not connected, also when the library's disconnect raises;
    it calls the library once when there is a client and not at all when
    there is none. *)
Theorem disconnect_always_disconnects (env : Env) :
  let env' := snd (disconnect env) in
  fst (disconnect env) = Returns tt
  /\ (_client (self env) = None -> env' = env)
  /\ (_client (self env) <> None ->
      _client (self env') = None /\ _connected (self env') = false
      /\ address (self env') = address (self env)
      /\ calls env' = calls env ++ [BleDisconnect]
      /\ script env' = tail (script env))
  /\ is_connected (self env') = false.
Proof.
  cbv zeta. unfold_client. unfold is_connected.
  destruct env as [[addr [c|] conn] cs sc]; cbn [self _client calls script].
  - destruct sc as [|[e|] rest]; cbn;
      (split; [reflexivity|]); (split; [discriminate|]);
      (split; [intros _; repeat split | reflexivity]).
  - cbn. split; [reflexivity|]. split; [reflexivity|].
    split; [congruence | now rewrite andb_false_r].
Qed.

Lemma disconnect_always_disconnects_witness :
  let s := mk "E4:66:E5:69:91:81" (Some (mkBleak "E4:66:E5:69:91:81" true)) true in
  _client (self (snd (disconnect (mkEnv s [] [Some BleakError])))) = None.
Proof.
  intros s.
  apply (disconnect_always_disconnects (mkEnv s [] [Some BleakError])).
  discriminate.
Defined.

(** X25: [connect] never raises; its result is the new [_connected]. It
    returns true exactly when the library's connect and start_notify both
    succeed (the library's client then reports itself connected); then it
    has made one write, of the INIT handshake (the same bytes as the
    catalog's [PACKET_INIT]), after subscribing, whether or not that write
    succeeded, and the client counts as connected. When it returns false,
    the client does not count as connected and no write was made. *)
Theorem connect_outcome (env : Env) :
  exists ok : bool,
    let env' := snd (connect env) in
    fst (connect env) = Returns ok
    /\ _connected (self env') = ok
    /\ is_connected (self env') = ok
    /\ address (self env') = address (self env)
    /\ ok = forallb no_fault (take 2 (script env))
    /\ (ok = true ->
        calls env' = calls env
                     ++ [ BleConnect (address (self env));
                          BleStartNotify CHARACTERISTIC_UUID;
                          BleWrite CHARACTERISTIC_UUID PACKET_INIT;
                          BleSleep 100 ])
    /\ (ok = false ->
        calls env' = calls env ++ [BleConnect (address (self env))]
        \/ calls env' = calls env ++ [ BleConnect (address (self env));
                                       BleStartNotify CHARACTERISTIC_UUID ]).
Proof.
  destruct env as [[addr c conn] cs sc]. unfold_client. unfold is_connected.
  change (_build_packet Command.INIT []) with (Ok PACKET_INIT).
  cbn [self _client _connected address calls script].
  destruct sc as [|[e1|] [|[e2|] [|[e3|] rest]]]; cbn;
    rewrite <- ?app_assoc; cbn [app];
    first [ exists true; repeat split; first [reflexivity | discriminate]
          | exists false; repeat split;
            first [reflexivity | discriminate | (left; reflexivity)
                  | (right; reflexivity)] ].
Qed.

Lemma connect_outcome_witness :
  let env := mkEnv (init "E4:66:E5:69:91:81") [] [None; None; Some BleakError] in
  calls (snd (connect env))
  = [ BleConnect "E4:66:E5:69:91:81"; BleStartNotify CHARACTERISTIC_UUID;
      BleWrite CHARACTERISTIC_UUID PACKET_INIT; BleSleep 100 ].
Proof.
  intros env.
  destruct (connect_outcome env) as (ok & _ & _ & _ & _ & Hok & Hcalls & _).
  apply Hcalls. rewrite Hok. reflexivity.
Defined.

(** X26: whatever the body of an [async with] block does, and however
    connecting went, the block ends with the client disconnected: no
    client object is kept and the object does not count as connected. And
    [test_connection] never raises: it returns a flag, false whenever the
    library's connect fails. *)
Theorem async_with_ends_disconnected {A} (body : C A) (env : Env)
        (address : string) :
  (let env' := snd (async_with body env) in
   _client (self env') = None /\ is_connected (self env') = false)
  /\ (exists ok, fst (test_connection address env) = Returns ok)
  /\ (forall e rest, script env = Some e :: rest ->
                     fst (test_connection address env) = Returns false).
Proof.
  split; [|split].
  - cbv zeta. remember (snd (async_with body env)) as env' eqn:He.
    unfold async_with, cbind in He.
    destruct (connect_outcome env) as (ok & Hret & _).
    destruct (connect env) as [r0 env0]. cbn [fst] in Hret. subst r0.
    unfold cfinally in He.
    destruct (body env0) as [r env1].
    pose proof (disconnect_always_disconnects env1) as (Hd & Hnone & Hsome & Hc).
    cbv zeta in *.
    destruct (disconnect env1) as [[[]|e] env2]; cbn [fst snd] in *;
      [|discriminate Hd].
    subst env'.
    split; [|exact Hc].
    destruct (_client (self env1)) eqn:Hcl.
    + apply Hsome. discriminate.
    + rewrite (Hnone eq_refl). exact Hcl.
  - unfold test_connection, try_except_Exception.
    destruct (cbind _ _ env) as [[ok|e] env']; cbn [fst]; eexists; reflexivity.
  - intros e rest Hs. destruct env as [s cs sc]. cbn in Hs. subst sc.
    unfold_client. unfold is_connected. cbn.
    now destruct rest as [|[e2|] rest].
Qed.

Lemma async_with_ends_disconnected_witness :
  fst (test_connection "E4:66:E5:69:91:81"
         (mkEnv (init "") [] [Some BleakError]))
  = Returns false.
Proof.
  destruct (async_with_ends_disconnected
              (creturn tt) (mkEnv (init "") [] [Some BleakError])
              "E4:66:E5:69:91:81") as (_ & _ & H).
  eapply H. reflexivity.
Defined.
